(** * PingSource reconciler (pkg/reconciler/pingsource/pingsource.go)

    A shallow embedding of the reconciler of Knative Eventing's PingSource
    and the properties of it that the design document states.

    The Go code runs against a cluster: listers (informer caches), a
    clientset, an event recorder, a tracker and a sink resolver.  Here the
    cluster is an explicit [World] value threaded through a small
    state monad together with the source object being reconciled (the Go
    code holds a pointer to it and mutates its status in place). *)

From Stdlib Require Import ZArith.
From stdpp Require Import base option list strings gmap fin_maps.

Local Open Scope string_scope.
Local Open Scope list_scope.

(** ** Kubernetes object model *)

(** The double quote character, for the format strings that contain one. *)
Definition dq : string := String (Ascii.ascii_of_nat 34) EmptyString.

Module corev1.

Inductive EventType := EventTypeNormal | EventTypeWarning.

Inductive ConditionStatus := ConditionTrue | ConditionFalse | ConditionUnknown.

Record EnvVar := { ev_Name : string; ev_Value : string }.

Record Container := {
  c_Name : string;
  c_Image : string;
  c_Args : list string;
  c_Env : list EnvVar;
  c_ImagePullPolicy : string;
  c_TerminationMessagePath : string;
  c_TTY : bool
}.

(** The fields of [corev1.PodSpec] kept here cover every reflect kind the
    comparison of two pod specs walks through: strings, a slice of
    structs, a pointer, a map and plain scalars. *)
Record PodSpec := {
  Containers : list Container;
  RestartPolicy : string;
  TerminationGracePeriodSeconds : option Z;
  DNSPolicy : string;
  NodeSelector : gmap string string;
  ServiceAccountName : string;
  NodeName : string;
  HostNetwork : bool;
  SchedulerName : string
}.

Record ConfigMap := {
  cm_Name : string;
  cm_Data : gmap string string
}.

End corev1.
Export corev1.

Module metav1.

Record OwnerReference := {
  or_APIVersion : string;
  or_Kind : string;
  or_Name : string;
  or_UID : string;
  or_Controller : option bool
}.

Record ObjectMeta := {
  Namespace : string;
  Name : string;
  UID : string;
  Labels : gmap string string;
  Annotations : gmap string string;
  OwnerReferences : list OwnerReference
}.

(** [metav1.GetControllerOf]: the first owner reference whose
    [Controller] pointer is set and true. *)
Fixpoint GetControllerOf (refs : list OwnerReference) : option OwnerReference :=
  match refs with
  | [] => None
  | ref :: rest =>
      match or_Controller ref with
      | Some true => Some ref
      | _ => GetControllerOf rest
      end
  end.

(** [metav1.IsControlledBy obj owner]: the controller reference of [obj]
    carries the UID of [owner]. *)
Definition IsControlledBy (obj owner : ObjectMeta) : bool :=
  match GetControllerOf (OwnerReferences obj) with
  | None => false
  | Some ref => String.eqb (or_UID ref) (UID owner)
  end.

End metav1.
Export metav1.

(** ** [equality.Semantic.DeepDerivative]

  [DeepDerivative a1 a2] walks [a1] and [a2] together and ignores what
  is unset in [a1]: an empty string, a nil pointer, an empty slice or
  map.  A non-empty slice of [a1] may not be longer than that of [a2]
  and is compared index by index; a non-empty map of [a1] needs each of
  its keys in [a2]; the other scalars are compared with [==]. *)
Module equality.

Definition deriveString (s1 s2 : string) : bool :=
  match s1 with
  | EmptyString => true
  | _ => String.eqb s1 s2
  end.

Definition derivePtr {A} (f : A → A → bool) (p1 p2 : option A) : bool :=
  match p1, p2 with
  | None, _ => true
  | Some _, None => false
  | Some x1, Some x2 => f x1 x2
  end.

(** The index-by-index walk over a slice that is known to be non-empty
    and not longer than the other one; running out of the second slice
    is the [Len] check of the Go code. *)
Fixpoint deriveElems {A} (f : A → A → bool) (l1 l2 : list A) : bool :=
  match l1, l2 with
  | [], _ => true
  | _ :: _, [] => false
  | x1 :: r1, x2 :: r2 => f x1 x2 && deriveElems f r1 r2
  end.

Definition deriveSlice {A} (f : A → A → bool) (l1 l2 : list A) : bool :=
  match l1 with
  | [] => true
  | _ => if Nat.ltb (length l2) (length l1) then false
         else deriveElems f l1 l2
  end.

Definition deriveMap (m1 m2 : gmap string string) : bool :=
  if Nat.eqb (size m1) 0 then true
  else if Nat.ltb (size m2) (size m1) then false
  else forallb (λ kv, match m2 !! kv.1 with
                      | None => false
                      | Some v2 => deriveString kv.2 v2
                      end) (map_to_list m1).

Definition deriveEnvVar (e1 e2 : EnvVar) : bool :=
  deriveString (ev_Name e1) (ev_Name e2) &&
  deriveString (ev_Value e1) (ev_Value e2).

Definition deriveContainer (c1 c2 : Container) : bool :=
  deriveString (c_Name c1) (c_Name c2) &&
  deriveString (c_Image c1) (c_Image c2) &&
  deriveSlice deriveString (c_Args c1) (c_Args c2) &&
  deriveSlice deriveEnvVar (c_Env c1) (c_Env c2) &&
  deriveString (c_ImagePullPolicy c1) (c_ImagePullPolicy c2) &&
  deriveString (c_TerminationMessagePath c1) (c_TerminationMessagePath c2) &&
  Bool.eqb (c_TTY c1) (c_TTY c2).

Definition DeepDerivative (a1 a2 : PodSpec) : bool :=
  deriveSlice deriveContainer (Containers a1) (Containers a2) &&
  deriveString (RestartPolicy a1) (RestartPolicy a2) &&
  derivePtr Z.eqb (TerminationGracePeriodSeconds a1)
                  (TerminationGracePeriodSeconds a2) &&
  deriveString (DNSPolicy a1) (DNSPolicy a2) &&
  deriveMap (NodeSelector a1) (NodeSelector a2) &&
  deriveString (ServiceAccountName a1) (ServiceAccountName a2) &&
  deriveString (NodeName a1) (NodeName a2) &&
  Bool.eqb (HostNetwork a1) (HostNetwork a2) &&
  deriveString (SchedulerName a1) (SchedulerName a2).

End equality.

(** [podSpecChanged]: the live pod spec comes first, the desired one
    second, and the desired one is the first argument of the comparison. *)
Definition podSpecChanged (oldPodSpec newPodSpec : PodSpec) : bool :=
  negb (equality.DeepDerivative newPodSpec oldPodSpec).

(** ** Errors

    A Go [error] of this package is an API status error, a [fmt.Errorf]
    or a reconciler event ([pkgreconciler.NewEvent]).  Formatted messages
    are kept as the format string and its arguments. *)

Inductive APIError :=
| ErrNotFound
| ErrAlreadyExists
| ErrConflict
| ErrInternal (msg : string).

Module apierrors.

Definition IsNotFound (err : APIError) : bool :=
  match err with
  | ErrNotFound => true
  | _ => false
  end.

End apierrors.

Set Warnings "-register-all".

Inductive error :=
| StatusError (e : APIError)
| Errorf (format : string) (args : list Arg)
| ReconcilerEvent (eventtype : EventType) (reason : string)
                  (format : string) (args : list Arg)
with Arg :=
| AString (s : string)
| AError (e : error)
| ASprintf (format : string) (args : list Arg).

(** ** Managed objects and the source *)

Record ServiceAccount := {
  sa_meta : ObjectMeta
}.

Record RoleBinding := {
  rb_meta : ObjectMeta;
  rb_RoleRef : string;
  rb_Subjects : list (string * string)
}.

Record DeploymentCondition := {
  dc_Type : string;
  dc_Status : ConditionStatus;
  dc_Reason : string;
  dc_Message : string
}.

(** A deployment: metadata, [Spec.Template.Spec] and the status
    conditions. *)
Record Deployment := {
  d_meta : ObjectMeta;
  d_PodSpec : PodSpec;
  d_Conditions : list DeploymentCondition
}.

Definition set_PodSpec (d : Deployment) (p : PodSpec) : Deployment :=
  {| d_meta := d_meta d; d_PodSpec := p; d_Conditions := d_Conditions d |}.

Module duckv1.

Record KReference := {
  kr_Kind : string;
  kr_Namespace : string;
  kr_Name : string;
  kr_APIVersion : string
}.

Record Destination := {
  Ref : option KReference;
  URI : option string
}.

Record CloudEventAttributes := {
  cea_Type : string;
  cea_Source : string
}.

End duckv1.
Export duckv1.

Record Condition := {
  cond_Status : ConditionStatus;
  cond_Reason : string;
  cond_Message : string
}.

Module v1alpha2.

Record PingSourceSpec := {
  Schedule : string;
  JsonData : string;
  Sink : Destination
}.

(** [Status.Annotations] is a Go map that may be nil: [None] is the nil
    map, on which an assignment panics. *)
Record PingSourceStatus := {
  SinkProvided : option Condition;
  ValidSchedule : option Condition;
  Deployed : option Condition;
  SinkURI : option string;
  CloudEventAttributes : list duckv1.CloudEventAttributes;
  StatusAnnotations : option (gmap string string)
}.

Record PingSource := {
  meta : ObjectMeta;
  Spec : PingSourceSpec;
  Status : PingSourceStatus
}.

Definition set_Status (s : PingSource) (st : PingSourceStatus) : PingSource :=
  {| meta := meta s; Spec := Spec s; Status := st |}.

Definition set_SinkProvided (st : PingSourceStatus) (c : option Condition) (u : option string) :=
  {| SinkProvided := c; ValidSchedule := ValidSchedule st;
     Deployed := Deployed st; SinkURI := u;
     CloudEventAttributes := CloudEventAttributes st;
     StatusAnnotations := StatusAnnotations st |}.

Definition set_ValidSchedule (st : PingSourceStatus) (c : option Condition) :=
  {| SinkProvided := SinkProvided st; ValidSchedule := c;
     Deployed := Deployed st; SinkURI := SinkURI st;
     CloudEventAttributes := CloudEventAttributes st;
     StatusAnnotations := StatusAnnotations st |}.

Definition set_Deployed (st : PingSourceStatus) (c : option Condition) :=
  {| SinkProvided := SinkProvided st; ValidSchedule := ValidSchedule st;
     Deployed := c; SinkURI := SinkURI st;
     CloudEventAttributes := CloudEventAttributes st;
     StatusAnnotations := StatusAnnotations st |}.

Definition set_CloudEventAttributes (st : PingSourceStatus)
    (l : list duckv1.CloudEventAttributes) :=
  {| SinkProvided := SinkProvided st; ValidSchedule := ValidSchedule st;
     Deployed := Deployed st; SinkURI := SinkURI st;
     CloudEventAttributes := l;
     StatusAnnotations := StatusAnnotations st |}.

Definition set_StatusAnnotations (st : PingSourceStatus)
    (a : option (gmap string string)) :=
  {| SinkProvided := SinkProvided st; ValidSchedule := ValidSchedule st;
     Deployed := Deployed st; SinkURI := SinkURI st;
     CloudEventAttributes := CloudEventAttributes st;
     StatusAnnotations := a |}.

Definition condTrue : Condition :=
  {| cond_Status := ConditionTrue; cond_Reason := ""; cond_Message := "" |}.

(** Modelled from the spec: the status helpers of the API package
    ([pkg/apis/sources/v1alpha2], absent from the sources at hand).  The
    sink condition becomes false with the given reason and message. *)
Definition MarkNoSink (reason message : string) (st : PingSourceStatus) :=
  set_SinkProvided st
    (Some {| cond_Status := ConditionFalse; cond_Reason := reason;
             cond_Message := message |})
    (SinkURI st).

(** Modelled from the spec: the sink address is stored and the sink
    condition becomes true. *)
Definition MarkSink (uri : string) (st : PingSourceStatus) :=
  set_SinkProvided st (Some condTrue) (Some uri).

(** Modelled from the spec: the schedule condition becomes true. *)
Definition MarkSchedule (st : PingSourceStatus) :=
  set_ValidSchedule st (Some condTrue).

(** Modelled from the spec: the availability condition mirrors the
    [Available] condition of the deployment, and is unknown when the
    deployment has none. *)
Definition PropagateDeploymentAvailability (d : Deployment)
    (st : PingSourceStatus) :=
  match List.find (λ c, String.eqb (dc_Type c) "Available") (d_Conditions d) with
  | Some c =>
      set_Deployed st
        (Some {| cond_Status := dc_Status c;
                 cond_Reason := match dc_Status c with
                                | ConditionTrue => ""
                                | _ => dc_Reason c
                                end;
                 cond_Message := match dc_Status c with
                                 | ConditionTrue => ""
                                 | _ => dc_Message c
                                 end |})
  | None =>
      set_Deployed st
        (Some {| cond_Status := ConditionUnknown;
                 cond_Reason := "DeploymentUnavailable";
                 cond_Message := "The Deployment '" +:+ Name (d_meta d)
                                 +:+ "' is unavailable." |})
  end.

End v1alpha2.
Export v1alpha2.

Module eventing.

(** Modelled from the spec: the scope annotation and its two values
    ([pkg/apis/eventing], absent from the sources at hand). *)
Definition ScopeAnnotationKey : string := "eventing.knative.dev/scope".
Definition ScopeCluster : string := "cluster".
Definition ScopeResource : string := "resource".

End eventing.

(** ** The cluster

    Each managed kind has the authoritative store behind the clientset and
    the informer cache behind its lister; the cache may lag.  Both are
    keyed by namespace and name.  The world also records, in the order
    they happen, every lister and client call with its outcome, every
    event handed to the recorder, every reference given to the tracker
    and every destination handed to the sink resolver. *)

Abbreviation key := (string * string)%type.

Inductive Kind := ServiceAccounts | RoleBindings | Deployments.

Inductive Verb := get | create | update | delete.

Record Action := {
  a_verb : Verb;
  a_kind : Kind;
  a_namespace : string;
  a_name : string;
  a_err : option APIError
}.

Record Event := {
  e_object : key;
  e_type : EventType;
  e_reason : string;
  e_format : string;
  e_args : list Arg
}.

Record Reference := {
  ref_APIVersion : string;
  ref_Kind : string;
  ref_Namespace : string;
  ref_Name : string
}.

Record Objects (A : Type) := {
  store : gmap key A;
  lister : gmap key A
}.
Arguments store {A} _.
Arguments lister {A} _.

Record World := {
  serviceAccounts : Objects ServiceAccount;
  roleBindings : Objects RoleBinding;
  deployments : Objects Deployment;
  actions : list Action;
  events : list Event;
  tracked : list (Reference * key);
  resolved : list (Destination * key)
}.

Definition set_serviceAccounts (o : Objects ServiceAccount) (w : World) : World :=
  {| serviceAccounts := o; roleBindings := roleBindings w;
     deployments := deployments w; actions := actions w; events := events w;
     tracked := tracked w; resolved := resolved w |}.

Definition set_roleBindings (o : Objects RoleBinding) (w : World) : World :=
  {| serviceAccounts := serviceAccounts w; roleBindings := o;
     deployments := deployments w; actions := actions w; events := events w;
     tracked := tracked w; resolved := resolved w |}.

Definition set_deployments (o : Objects Deployment) (w : World) : World :=
  {| serviceAccounts := serviceAccounts w; roleBindings := roleBindings w;
     deployments := o; actions := actions w; events := events w;
     tracked := tracked w; resolved := resolved w |}.

Definition add_action (a : Action) (w : World) : World :=
  {| serviceAccounts := serviceAccounts w; roleBindings := roleBindings w;
     deployments := deployments w; actions := actions w ++ [a];
     events := events w; tracked := tracked w; resolved := resolved w |}.

Definition add_event (e : Event) (w : World) : World :=
  {| serviceAccounts := serviceAccounts w; roleBindings := roleBindings w;
     deployments := deployments w; actions := actions w;
     events := events w ++ [e]; tracked := tracked w; resolved := resolved w |}.

Definition add_tracked (t : Reference * key) (w : World) : World :=
  {| serviceAccounts := serviceAccounts w; roleBindings := roleBindings w;
     deployments := deployments w; actions := actions w; events := events w;
     tracked := tracked w ++ [t]; resolved := resolved w |}.

Definition add_resolved (d : Destination * key) (w : World) : World :=
  {| serviceAccounts := serviceAccounts w; roleBindings := roleBindings w;
     deployments := deployments w; actions := actions w; events := events w;
     tracked := tracked w; resolved := resolved w ++ [d] |}.

(** What the code needs of a managed kind: its name in the action log,
    the metadata of an object and where its objects live in the world. *)
Class Resource (A : Type) := {
  kindOf : Kind;
  metaOf : A → ObjectMeta;
  objects : World → Objects A;
  set_objects : Objects A → World → World
}.

#[export] Instance ServiceAccount_Resource : Resource ServiceAccount :=
  {| kindOf := ServiceAccounts; metaOf := sa_meta;
     objects := serviceAccounts; set_objects := set_serviceAccounts |}.

#[export] Instance RoleBinding_Resource : Resource RoleBinding :=
  {| kindOf := RoleBindings; metaOf := rb_meta;
     objects := roleBindings; set_objects := set_roleBindings |}.

#[export] Instance Deployment_Resource : Resource Deployment :=
  {| kindOf := Deployments; metaOf := d_meta;
     objects := deployments; set_objects := set_deployments |}.

Definition set_store {A} (o : Objects A) (s : gmap key A) : Objects A :=
  {| store := s; lister := lister o |}.

(** The informer caches catch up with the store. *)
Definition sync (w : World) : World :=
  set_serviceAccounts
    {| store := store (serviceAccounts w); lister := store (serviceAccounts w) |}
  (set_roleBindings
    {| store := store (roleBindings w); lister := store (roleBindings w) |}
  (set_deployments
    {| store := store (deployments w); lister := store (deployments w) |} w)).

(** The listers agree with the store. *)
Definition consistent (w : World) : Prop :=
  lister (serviceAccounts w) = store (serviceAccounts w) ∧
  lister (roleBindings w) = store (roleBindings w) ∧
  lister (deployments w) = store (deployments w).

(** ** The reconciler monad

    The state is the world and the source being reconciled (a pointer in
    Go, whose status the code writes through).  A computation returns a
    value and a new state, or panics in the state it has reached. *)

Record St := {
  world : World;
  source : PingSource
}.

Inductive Res (A : Type) :=
| Done (a : A) (s : St)
| Panic (msg : string) (s : St).
Arguments Done {A} _ _.
Arguments Panic {A} _ _.

(** The state a run ends in, also when it ends in a panic. *)
Definition final {A} (x : Res A) : St :=
  match x with
  | Done _ s => s
  | Panic _ s => s
  end.

Definition M (A : Type) : Type := St → Res A.

Definition ret {A} (a : A) : M A := λ s, Done a s.

Definition bind {A B} (m : M A) (f : A → M B) : M B :=
  λ s, match m s with
       | Done a s' => f a s'
       | Panic msg s' => Panic msg s'
       end.

Definition panic {A} (msg : string) : M A := λ s, Panic msg s.

Declare Scope reconcile_scope.
Delimit Scope reconcile_scope with reconcile.
Notation "x <- c1 ;; c2" := (bind c1 (λ x, c2))
  (at level 100, c1 at next level, right associativity) : reconcile_scope.
Notation "c1 ;; c2" := (bind c1 (λ _, c2))
  (at level 100, right associativity) : reconcile_scope.
Local Open Scope reconcile_scope.

Definition getSource : M PingSource := λ s, Done (source s) s.

Definition modifyWorld (f : World → World) : M unit :=
  λ s, Done tt {| world := f (world s); source := source s |}.

Definition getWorld : M World := λ s, Done (world s) s.

Definition modifyStatus (f : PingSourceStatus → PingSourceStatus) : M unit :=
  λ s, Done tt {| world := world s;
                  source := set_Status (source s) (f (Status (source s))) |}.

(** [source.Status.Annotations[k] = v]: an assignment to an entry of a
    nil map panics. *)
Definition setStatusAnnotation (k v : string) : M unit :=
  src <- getSource;;
  match StatusAnnotations (Status src) with
  | None => panic "assignment to entry in nil map"
  | Some m => modifyStatus (λ st, set_StatusAnnotations st (Some (<[k:=v]> m)))
  end.

(** ** Reconciler

    The fields of the Go struct.  The clientset and the listers are
    given by the errors they are made to return (as the reactors of a
    fake clientset do); without one, a call acts on the world. *)
Record LoggingConfig := {
  LoggingConfig_zap : string;
  LoggingLevel : gmap string string
}.

Record ExporterOptions := {
  eo_Domain : string;
  eo_Component : string;
  eo_ConfigMap : gmap string string
}.

Record Reconciler := {
  kubeClientSet : Verb → Kind → option APIError;
  receiveAdapterImage : string;
  receiveMTAdapterImage : string;
  listerError : Kind → option APIError;
  tracker : Reference → option error;
  sinkResolver : Destination → key → string + error;
  loggingConfig : option LoggingConfig;
  metricsConfig : option ExporterOptions;
  leConfig : string
}.

Definition set_loggingConfig (r : Reconciler) (c : option LoggingConfig) : Reconciler :=
  {| kubeClientSet := kubeClientSet r;
     receiveAdapterImage := receiveAdapterImage r;
     receiveMTAdapterImage := receiveMTAdapterImage r;
     listerError := listerError r; tracker := tracker r;
     sinkResolver := sinkResolver r; loggingConfig := c;
     metricsConfig := metricsConfig r; leConfig := leConfig r |}.

Definition set_metricsConfig (r : Reconciler) (c : option ExporterOptions) : Reconciler :=
  {| kubeClientSet := kubeClientSet r;
     receiveAdapterImage := receiveAdapterImage r;
     receiveMTAdapterImage := receiveMTAdapterImage r;
     listerError := listerError r; tracker := tracker r;
     sinkResolver := sinkResolver r; loggingConfig := loggingConfig r;
     metricsConfig := c; leConfig := leConfig r |}.

(** What a call that touches no cluster state does: it returns, or the
    process panics. *)
Inductive Outcome (A : Type) :=
| Returned (a : A)
| Crashed (msg : string).
Arguments Returned {A} _.
Arguments Crashed {A} _.

Definition keyOf (s : PingSource) : key := (Namespace (meta s), Name (meta s)).

Section Calls.
Context {A : Type} `{Resource A}.
Variable r : Reconciler.

Definition logAction (v : Verb) (ns name : string) (e : option APIError) : M unit :=
  modifyWorld (add_action {| a_verb := v; a_kind := kindOf; a_namespace := ns;
                             a_name := name; a_err := e |}).

(** [lister.<Kind>(ns).Get(name)] *)
Definition listerGet (ns name : string) : M (A + APIError) :=
  w <- getWorld;;
  match listerError r kindOf with
  | Some e => logAction get ns name (Some e);; ret (inr e)
  | None =>
      match lister (objects w) !! (ns, name) with
      | Some o => logAction get ns name None;; ret (inl o)
      | None => logAction get ns name (Some ErrNotFound);; ret (inr ErrNotFound)
      end
  end.

(** [kubeClientSet.<Kind>(ns).Create(obj)] *)
Definition clientCreate (ns : string) (obj : A) : M (A + APIError) :=
  w <- getWorld;;
  let name := Name (metaOf obj) in
  match kubeClientSet r create kindOf with
  | Some e => logAction create ns name (Some e);; ret (inr e)
  | None =>
      match store (objects w) !! (ns, name) with
      | Some _ =>
          logAction create ns name (Some ErrAlreadyExists);;
          ret (inr ErrAlreadyExists)
      | None =>
          modifyWorld (set_objects
            (set_store (objects w) (<[(ns, name):=obj]> (store (objects w)))));;
          logAction create ns name None;;
          ret (inl obj)
      end
  end.

(** [kubeClientSet.<Kind>(ns).Update(obj)] *)
Definition clientUpdate (ns : string) (obj : A) : M (A + APIError) :=
  w <- getWorld;;
  let name := Name (metaOf obj) in
  match kubeClientSet r update kindOf with
  | Some e => logAction update ns name (Some e);; ret (inr e)
  | None =>
      match store (objects w) !! (ns, name) with
      | None =>
          logAction update ns name (Some ErrNotFound);;
          ret (inr ErrNotFound)
      | Some _ =>
          modifyWorld (set_objects
            (set_store (objects w) (<[(ns, name):=obj]> (store (objects w)))));;
          logAction update ns name None;;
          ret (inl obj)
      end
  end.

(** [kubeClientSet.<Kind>(ns).Delete(name, opts)] *)
Definition clientDelete (ns name : string) : M (option APIError) :=
  w <- getWorld;;
  match kubeClientSet r delete kindOf with
  | Some e => logAction delete ns name (Some e);; ret (Some e)
  | None =>
      match store (objects w) !! (ns, name) with
      | None =>
          logAction delete ns name (Some ErrNotFound);;
          ret (Some ErrNotFound)
      | Some _ =>
          modifyWorld (set_objects
            (set_store (objects w) (base.delete (ns, name) (store (objects w)))));;
          logAction delete ns name None;;
          ret None
      end
  end.

(** An assignment through the pointer a lister returned: the object of
    the informer cache is the one that changes. *)
Definition listerAssign (ns name : string) (obj : A) : M unit :=
  w <- getWorld;;
  modifyWorld (set_objects
    {| store := store (objects w);
       lister := <[(ns, name):=obj]> (lister (objects w)) |}).

End Calls.

(** [controller.GetEventRecorder(ctx).Eventf(source, ...)] *)
Definition Eventf (t : EventType) (reason format : string) (args : list Arg) : M unit :=
  src <- getSource;;
  modifyWorld (add_event {| e_object := keyOf src; e_type := t;
                            e_reason := reason; e_format := format;
                            e_args := args |}).

(** ** What the reconciler builds its objects with

    Modelled from the spec: the builders of the desired objects and the
    naming functions live in [pkg/reconciler/pingsource/resources],
    [pkg/reconciler/resources] and [pkg/utils], the serialisers in
    [knative.dev/pkg]; none is among the sources at hand.  They are pure
    functions of their arguments, taken here as an interface. *)

Record Args := {
  args_Image : string;
  args_Source : PingSource;
  args_Labels : gmap string string;
  args_SinkURI : string;
  args_LoggingConfig : string;
  args_MetricsConfig : string
}.

Record MTArgs := {
  mt_ServiceAccountName : string;
  mt_MTAdapterName : string;
  mt_Image : string;
  mt_LoggingConfig : string;
  mt_MetricsConfig : string;
  mt_LeConfig : string
}.

Class Resources := {
  CreateReceiveAdapterName : string → string → string;
  Labels_of : string → gmap string string;
  MakeServiceAccount : ObjectMeta → string → ServiceAccount;
  MakeRoleBinding : PingSource → string → string → RoleBinding;
  MakeReceiveAdapter : Args → Deployment;
  MakeMTReceiveAdapter : MTArgs → Deployment;
  GenerateFixedName : ObjectMeta → string → string;
  json_Marshal : Destination → string;
  NewConfigFromConfigMap : option ConfigMap → Outcome (LoggingConfig + error);
  LoggingConfigToJson : option LoggingConfig → string;
  MetricsOptionsToJson : option ExporterOptions → string;
  system_Namespace : string;
  metrics_Domain : string;
  PingSourceEventType : string;
  PingSourceSource : string → string → string
}.

(** ** The reconciler proper *)

Definition pingSourceDeploymentCreated := "PingSourceDeploymentCreated".
Definition pingSourceDeploymentUpdated := "PingSourceDeploymentUpdated".
Definition pingSourceDeploymentDeleted := "PingSourceDeploymentDeleted".
Definition pingSourceServiceAccountCreated := "PingSourceServiceAccountCreated".
Definition pingSourceRoleBindingCreated := "PingSourceRoleBindingCreated".

Definition component := "pingsource".
Definition mtcomponent := "pingsource-mt-adapter".
Definition mtadapterName := "pingsource-mt-adapter".
Definition stadapterClusterRoleName := "knative-eventing-pingsource-adapter".

Section Reconcile.
Context `{Resources}.

Definition newWarningSinkNotFound (sink : Destination) : error :=
  ReconcilerEvent EventTypeWarning "SinkNotFound" "Sink not found: %s"
    [AString (json_Marshal sink)].

Definition newServiceAccountWarn (err : error) : error :=
  ReconcilerEvent EventTypeWarning "PingSourceServiceAccountFailed"
    "Reconciling PingSource ServiceAccount failed: %s" [AError err].

Definition newRoleBindingWarn (err : error) : error :=
  ReconcilerEvent EventTypeWarning "PingSourceRoleBindingFailed"
    "Reconciling PingSource RoleBinding failed: %s" [AError err].

Variable r : Reconciler.

(** A Go result pair [(obj, err)]: the callers in this file drop the
    object whenever the error is set. *)
Definition reconcileServiceAccount : M (ServiceAccount + error) :=
  source <- getSource;;
  let saName := CreateReceiveAdapterName (Name (meta source)) (UID (meta source)) in
  res <- listerGet r (Namespace (meta source)) saName;;
  match res with
  | inr err =>
      if apierrors.IsNotFound err then
        let expected := MakeServiceAccount (meta source) saName in
        res <- clientCreate r (Namespace (meta source)) expected;;
        match res with
        | inr err => ret (inr (newServiceAccountWarn (StatusError err)))
        | inl sa =>
            Eventf EventTypeNormal pingSourceServiceAccountCreated
              "PingSource ServiceAccount created" [];;
            ret (inl sa)
        end
      else
        setStatusAnnotation "serviceAccount" "Failed to get ServiceAccount";;
        ret (inr (newServiceAccountWarn (StatusError err)))
  | inl sa => ret (inl sa)
  end.

Definition reconcileRoleBinding : M (RoleBinding + error) :=
  source <- getSource;;
  let rbName := CreateReceiveAdapterName (Name (meta source)) (UID (meta source)) in
  res <- listerGet r (Namespace (meta source)) rbName;;
  match res with
  | inr err =>
      if apierrors.IsNotFound err then
        let expected := MakeRoleBinding source rbName stadapterClusterRoleName in
        res <- clientCreate r (Namespace (meta source)) expected;;
        match res with
        | inr err => ret (inr (newRoleBindingWarn (StatusError err)))
        | inl rb =>
            Eventf EventTypeNormal pingSourceRoleBindingCreated
              "PingSource RoleBinding created" [];;
            ret (inl rb)
        end
      else
        setStatusAnnotation "roleBinding" "Failed to get PingSource RoleBinding";;
        ret (inr (newRoleBindingWarn (StatusError err)))
  | inl rb => ret (inl rb)
  end.

(** The desired per-source deployment, as [createReceiveAdapter] builds
    it before it looks anything up. *)
Definition adapterArgs (src : PingSource) (sinkURI : string) : Args :=
  {| args_Image := receiveAdapterImage r;
     args_Source := src;
     args_Labels := Labels_of (Name (meta src));
     args_SinkURI := sinkURI;
     args_LoggingConfig := LoggingConfigToJson (loggingConfig r);
     args_MetricsConfig := MetricsOptionsToJson (metricsConfig r) |}.

Definition deprecatedNameOf (src : PingSource) : string :=
  GenerateFixedName (meta src) ("pingsource-" +:+ Name (meta src)).

Definition createReceiveAdapter (sinkURI : string) : M (Deployment + error) :=
  src <- getSource;;
  let expected := MakeReceiveAdapter (adapterArgs src sinkURI) in
  res <- listerGet r (Namespace (meta src)) (Name (d_meta expected));;
  match res with
  | inr err =>
      if apierrors.IsNotFound err then
        let deprecatedName := deprecatedNameOf src in
        let removed :=
          Eventf EventTypeNormal pingSourceDeploymentDeleted
            ("Deprecated deployment removed: " +:+ dq +:+ "%s/%s" +:+ dq)
            [AString (Namespace (meta src)); AString deprecatedName];;
          ret None in
        migrated <-
          (if negb (String.eqb deprecatedName (Name (d_meta expected))) then
             derr <- clientDelete (A:=Deployment) r (Namespace (meta src)) deprecatedName;;
             match derr with
             | Some err =>
                 if negb (apierrors.IsNotFound err) then
                   ret (Some (Errorf "error deleting deprecated named deployment: %v"
                                [AError (StatusError err)]))
                 else removed
             | None => removed
             end
           else ret None);;
        match migrated with
        | Some e => ret (inr e)
        | None =>
            res <- clientCreate r (Namespace (meta src)) expected;;
            match res with
            | inr err =>
                Eventf EventTypeNormal pingSourceDeploymentCreated "%s"
                  [ASprintf "Deployment created, error: %v"
                     [AError (StatusError err)]];;
                ret (inr (StatusError err))
            | inl ra =>
                Eventf EventTypeNormal pingSourceDeploymentCreated "%s"
                  [AString "Deployment created"];;
                ret (inl ra)
            end
        end
      else
        ret (inr (Errorf "error getting receive adapter: %v"
                    [AError (StatusError err)]))
  | inl ra =>
      if negb (IsControlledBy (d_meta ra) (meta src)) then
        ret (inr (Errorf "deployment %q is not owned by PingSource %q"
                    [AString (Name (d_meta ra)); AString (Name (meta src))]))
      else if podSpecChanged (d_PodSpec ra) (d_PodSpec expected) then
        let ra := set_PodSpec ra (d_PodSpec expected) in
        listerAssign (Namespace (meta src)) (Name (d_meta expected)) ra;;
        res <- clientUpdate r (Namespace (meta src)) ra;;
        match res with
        | inr err => ret (inr (StatusError err))
        | inl ra =>
            Eventf EventTypeNormal pingSourceDeploymentUpdated
              "Deployment %q updated" [AString (Name (d_meta ra))];;
            ret (inl ra)
        end
      else
        ret (inl ra)
  end.

Definition mtArgs : MTArgs :=
  {| mt_ServiceAccountName := mtadapterName;
     mt_MTAdapterName := mtadapterName;
     mt_Image := receiveMTAdapterImage r;
     mt_LoggingConfig := LoggingConfigToJson (loggingConfig r);
     mt_MetricsConfig := MetricsOptionsToJson (metricsConfig r);
     mt_LeConfig := leConfig r |}.

Definition reconcileMTReceiveAdapter : M (Deployment + error) :=
  let expected := MakeMTReceiveAdapter mtArgs in
  res <- listerGet r system_Namespace mtadapterName;;
  match res with
  | inr err =>
      if apierrors.IsNotFound err then
        res <- clientCreate r system_Namespace expected;;
        match res with
        | inr err =>
            Eventf EventTypeWarning pingSourceDeploymentCreated
              "Cluster-scoped deployment not created (%v)"
              [AError (StatusError err)];;
            ret (inr (StatusError err))
        | inl d =>
            Eventf EventTypeNormal pingSourceDeploymentCreated
              "Cluster-scoped deployment created" [];;
            ret (inl d)
        end
      else
        ret (inr (Errorf "error getting mt adapter deployment %v"
                    [AError (StatusError err)]))
  | inl d =>
      if podSpecChanged (d_PodSpec d) (d_PodSpec expected) then
        let d := set_PodSpec d (d_PodSpec expected) in
        listerAssign system_Namespace mtadapterName d;;
        res <- clientUpdate r system_Namespace d;;
        match res with
        | inr err => ret (inr (StatusError err))
        | inl d =>
            Eventf EventTypeNormal pingSourceDeploymentUpdated
              "Cluster-scoped deployment updated" [];;
            ret (inl d)
        end
      else
        ret (inl d)
  end.

(** [dest := source.Spec.Sink.DeepCopy()] followed by the defaulting of
    the namespace of the reference: the copy is a value of its own. *)
Definition defaultedSink (source : PingSource) : Destination :=
  let dest := Sink (Spec source) in
  match Ref dest with
  | Some ref =>
      if String.eqb (kr_Namespace ref) "" then
        {| Ref := Some {| kr_Kind := kr_Kind ref;
                          kr_Namespace := Namespace (meta source);
                          kr_Name := kr_Name ref;
                          kr_APIVersion := kr_APIVersion ref |};
           URI := URI dest |}
      else dest
  | None => dest
  end.

(** [r.sinkResolver.URIFromDestinationV1(dest, source)] *)
Definition URIFromDestinationV1 (dest : Destination) : M (string + error) :=
  source <- getSource;;
  modifyWorld (add_resolved (dest, keyOf source));;
  ret (sinkResolver r dest (keyOf source)).

(** [r.tracker.TrackReference(ref, source)] *)
Definition TrackReference (ref : Reference) : M (option error) :=
  source <- getSource;;
  match tracker r ref with
  | Some err => ret (Some err)
  | None => modifyWorld (add_tracked (ref, keyOf source));; ret None
  end.

(** The branch of [ReconcileKind] for the cluster scope. *)
Definition reconcileClusterScope : M (option error) :=
  res <- reconcileMTReceiveAdapter;;
  match res with
  | inr err => ret (Some err)
  | inl d =>
      modifyStatus (PropagateDeploymentAvailability d);;
      terr <- TrackReference {| ref_APIVersion := "apps/v1";
                                ref_Kind := "Deployment";
                                ref_Namespace := Namespace (d_meta d);
                                ref_Name := Name (d_meta d) |};;
      match terr with
      | Some err => ret (Some err)
      | None => ret None
      end
  end.

(** The other branch of [ReconcileKind]. *)
Definition reconcileResourceScope (sinkURI : string) : M (option error) :=
  res <- reconcileServiceAccount;;
  match res with
  | inr err =>
      ret (Some (Errorf "creating receive adapter service account: %v" [AError err]))
  | inl _ =>
      res <- reconcileRoleBinding;;
      match res with
      | inr err =>
          ret (Some (Errorf "creating receive adapter role binding: %v" [AError err]))
      | inl _ =>
          res <- createReceiveAdapter sinkURI;;
          match res with
          | inr err =>
              ret (Some (Errorf "creating receive adapter: %v" [AError err]))
          | inl ra =>
              modifyStatus (PropagateDeploymentAvailability ra);;
              ret None
          end
      end
  end.

(** [scope, ok := source.Annotations[eventing.ScopeAnnotationKey]] with
    its default. *)
Definition scopeOf (source : PingSource) : string :=
  match Annotations (meta source) !! eventing.ScopeAnnotationKey with
  | Some scope => scope
  | None => eventing.ScopeCluster
  end.

Definition ReconcileKind : M (option error) :=
  source <- getSource;;
  let dest := defaultedSink source in
  res <- URIFromDestinationV1 dest;;
  match res with
  | inr _ =>
      modifyStatus (MarkNoSink "NotFound" "");;
      ret (Some (newWarningSinkNotFound dest))
  | inl sinkURI =>
      modifyStatus (MarkSink sinkURI);;
      modifyStatus MarkSchedule;;
      source <- getSource;;
      failed <-
        (if String.eqb (scopeOf source) eventing.ScopeCluster
         then reconcileClusterScope
         else reconcileResourceScope sinkURI);;
      match failed with
      | Some err => ret (Some err)
      | None =>
          modifyStatus (λ st, set_CloudEventAttributes st
            [{| cea_Type := PingSourceEventType;
                cea_Source := PingSourceSource (Namespace (meta source))
                                               (Name (meta source)) |}]);;
          ret None
      end
  end.

End Reconcile.

(** ** The configuration callbacks

    The ConfigMap is a pointer: [None] is nil.  [delete(cfg.Data, k)]
    changes the map the caller handed in, so the callbacks return it
    next to the reconciler they updated. *)
Section Config.
Context `{Resources}.

Definition stripExample (cfg : option ConfigMap) : option ConfigMap :=
  match cfg with
  | Some c => Some {| cm_Name := cm_Name c;
                      cm_Data := base.delete "_example" (cm_Data c) |}
  | None => None
  end.

Definition UpdateFromLoggingConfigMap (r : Reconciler) (cfg : option ConfigMap)
    : Outcome (Reconciler * option ConfigMap) :=
  let cfg := stripExample cfg in
  match NewConfigFromConfigMap cfg with
  | Crashed msg => Crashed msg
  | Returned (inr err) =>
      (* the warning reads [cfg.Name] *)
      match cfg with
      | None => Crashed "nil pointer dereference"
      | Some _ => Returned (r, cfg)
      end
  | Returned (inl logcfg) => Returned (set_loggingConfig r (Some logcfg), cfg)
  end.

Definition UpdateFromMetricsConfigMap (r : Reconciler) (cfg : option ConfigMap)
    : Outcome (Reconciler * option ConfigMap) :=
  let cfg := stripExample cfg in
  match cfg with
  | None => Crashed "nil pointer dereference"
  | Some c =>
      Returned (set_metricsConfig r
                  (Some {| eo_Domain := metrics_Domain;
                           eo_Component := component;
                           eo_ConfigMap := cm_Data c |}),
                cfg)
  end.

End Config.

(** ** A concrete cluster for the examples *)
Module Fixture.

Definition controllerRef (owner : ObjectMeta) : OwnerReference :=
  {| or_APIVersion := "sources.knative.dev/v1alpha2"; or_Kind := "PingSource";
     or_Name := Name owner; or_UID := UID owner;
     or_Controller := Some true |}.

Definition ownedBy (owner : ObjectMeta) (name : string) : ObjectMeta :=
  {| Namespace := Namespace owner; Name := name; UID := "";
     Labels := ∅; Annotations := ∅;
     OwnerReferences := [controllerRef owner] |}.

Definition ownedMeta (src : PingSource) (name : string) : ObjectMeta :=
  ownedBy (meta src) name.

Definition adapterPodSpec (image sa : string) (env : list EnvVar) : PodSpec :=
  {| Containers := [ {| c_Name := "receive-adapter"; c_Image := image;
                        c_Args := []; c_Env := env;
                        c_ImagePullPolicy := "";
                        c_TerminationMessagePath := ""; c_TTY := false |} ];
     RestartPolicy := ""; TerminationGracePeriodSeconds := None;
     DNSPolicy := ""; NodeSelector := ∅; ServiceAccountName := sa;
     NodeName := ""; HostNetwork := false; SchedulerName := "" |}.

Definition adapterName (name uid : string) : string :=
  "pingsource-" +:+ name +:+ "-" +:+ uid.

Definition marshal (d : Destination) : string :=
  let field k v := dq +:+ k +:+ dq +:+ ":" +:+ dq +:+ v +:+ dq in
  "{" +:+
  match Ref d with
  | Some ref =>
      dq +:+ "ref" +:+ dq +:+ ":{" +:+ field "kind" (kr_Kind ref) +:+ "," +:+
      field "namespace" (kr_Namespace ref) +:+ "," +:+
      field "name" (kr_Name ref) +:+ "," +:+
      field "apiVersion" (kr_APIVersion ref) +:+ "}"
  | None => ""
  end +:+
  match URI d with
  | Some u => field "uri" u
  | None => ""
  end +:+ "}".

Definition levels : list string :=
  ["debug"; "info"; "warn"; "error"; "dpanic"; "panic"; "fatal"].

Definition parseLogging (cfg : option ConfigMap) : Outcome (LoggingConfig + error) :=
  match cfg with
  | None => Crashed "nil pointer dereference"
  | Some c =>
      match cm_Data c !! "loglevel.controller" with
      | Some v =>
          if existsb (String.eqb v) levels then
            Returned (inl {| LoggingConfig_zap := default "" (cm_Data c !! "zap-logger-config");
                             LoggingLevel := {["controller" := v]} |})
          else Returned (inr (Errorf "invalid logging level: %v" [AString v]))
      | None =>
          Returned (inl {| LoggingConfig_zap := default "" (cm_Data c !! "zap-logger-config");
                           LoggingLevel := ∅ |})
      end
  end.

#[export] Instance resources : Resources :=
  {| CreateReceiveAdapterName := adapterName;
     Labels_of := λ name, {["sources.knative.dev/pingSource" := name]};
     MakeServiceAccount := λ owner name, {| sa_meta := ownedBy owner name |};
     MakeRoleBinding := λ src name role,
       {| rb_meta := ownedMeta src name; rb_RoleRef := role;
          rb_Subjects := [(Namespace (meta src), name)] |};
     MakeReceiveAdapter := λ a,
       {| d_meta := ownedMeta (args_Source a)
                      (adapterName (Name (meta (args_Source a)))
                                   (UID (meta (args_Source a))));
          d_PodSpec := adapterPodSpec (args_Image a)
                         (adapterName (Name (meta (args_Source a)))
                                      (UID (meta (args_Source a))))
                         [ {| ev_Name := "SINK_URI"; ev_Value := args_SinkURI a |};
                           {| ev_Name := "SCHEDULE";
                              ev_Value := Schedule (Spec (args_Source a)) |};
                           {| ev_Name := "K_LOGGING_CONFIG";
                              ev_Value := args_LoggingConfig a |};
                           {| ev_Name := "K_METRICS_CONFIG";
                              ev_Value := args_MetricsConfig a |} ];
          d_Conditions := [] |};
     MakeMTReceiveAdapter := λ a,
       {| d_meta := {| Namespace := "knative-eventing";
                       Name := mt_MTAdapterName a; UID := ""; Labels := ∅;
                       Annotations := ∅; OwnerReferences := [] |};
          d_PodSpec := adapterPodSpec (mt_Image a) (mt_ServiceAccountName a)
                         [ {| ev_Name := "K_LOGGING_CONFIG";
                              ev_Value := mt_LoggingConfig a |};
                           {| ev_Name := "K_METRICS_CONFIG";
                              ev_Value := mt_MetricsConfig a |};
                           {| ev_Name := "K_LEADER_ELECTION_CONFIG";
                              ev_Value := mt_LeConfig a |} ];
          d_Conditions := [] |};
     GenerateFixedName := λ owner prefix, prefix +:+ "." +:+ UID owner;
     json_Marshal := marshal;
     NewConfigFromConfigMap := parseLogging;
     LoggingConfigToJson := λ c, match c with
                                 | Some c => LoggingConfig_zap c
                                 | None => ""
                                 end;
     MetricsOptionsToJson := λ c, match c with
                                  | Some c => eo_Domain c +:+ "/" +:+ eo_Component c
                                  | None => ""
                                  end;
     system_Namespace := "knative-eventing";
     metrics_Domain := "knative.dev/eventing";
     PingSourceEventType := "dev.knative.sources.ping";
     PingSourceSource := λ ns name,
       "/apis/v1/namespaces/" +:+ ns +:+ "/pingsources/" +:+ name |}.

Definition emptyStatus : PingSourceStatus :=
  {| SinkProvided := None; ValidSchedule := None; Deployed := None;
     SinkURI := None; CloudEventAttributes := [];
     StatusAnnotations := Some ∅ |}.

Definition svc1 : Destination :=
  {| Ref := Some {| kr_Kind := "Service"; kr_Namespace := ""; kr_Name := "svc1";
                    kr_APIVersion := "v1" |};
     URI := None |}.

(** The source of the scenario of the design document, with the scope
    annotation left to the caller. *)
Definition p1 (annotations : gmap string string) : PingSource :=
  {| meta := {| Namespace := "default"; Name := "p1"; UID := "abc";
                Labels := ∅; Annotations := annotations;
                OwnerReferences := [] |};
     Spec := {| Schedule := "*/2 * * * *"; JsonData := "{}"; Sink := svc1 |};
     Status := emptyStatus |}.

(** A source whose sink is a service nobody knows. *)
Definition lost : PingSource :=
  {| meta := meta (p1 ∅);
     Spec := {| Schedule := "*/2 * * * *"; JsonData := "{}";
                Sink := {| Ref := Some {| kr_Kind := "Service"; kr_Namespace := "";
                                          kr_Name := "gone"; kr_APIVersion := "v1" |};
                           URI := None |} |};
     Status := emptyStatus |}.

Definition scoped (scope : string) : gmap string string :=
  {[ eventing.ScopeAnnotationKey := scope ]}.

Definition resourceScoped : gmap string string :=
  {[ eventing.ScopeAnnotationKey := eventing.ScopeResource ]}.

Definition noObjects {A} : Objects A := {| store := ∅; lister := ∅ |}.

Definition emptyWorld : World :=
  {| serviceAccounts := noObjects; roleBindings := noObjects;
     deployments := noObjects; actions := []; events := []; tracked := [];
     resolved := [] |}.

(** A reconciler whose collaborators all work: the resolver knows the
    service [svc1] of the namespace [default]. *)
Definition healthy : Reconciler :=
  {| kubeClientSet := λ _ _, None;
     receiveAdapterImage := "adapter:1";
     receiveMTAdapterImage := "mtadapter:1";
     listerError := λ _, None;
     tracker := λ _, None;
     sinkResolver := λ d _,
       match Ref d with
       | Some ref =>
           if String.eqb (kr_Namespace ref) "default" && String.eqb (kr_Name ref) "svc1"
           then inl "http://svc1.default.svc.cluster.local"
           else inr (Errorf "not found" [])
       | None => match URI d with
                 | Some u => inl u
                 | None => inr (Errorf "destination missing Ref and URI" [])
                 end
       end;
     loggingConfig := None;
     metricsConfig := None;
     leConfig := "" |}.

(** Another source of the same namespace, and a service account it
    owns under the name the per-source objects of [p1] get. *)
Definition other : PingSource :=
  {| meta := {| Namespace := "default"; Name := "p0"; UID := "xyz";
                Labels := ∅; Annotations := resourceScoped;
                OwnerReferences := [] |};
     Spec := Spec (p1 ∅); Status := emptyStatus |}.

Definition foreignServiceAccount : ServiceAccount :=
  {| sa_meta := ownedMeta other "pingsource-p1-abc" |}.

Definition withServiceAccount (sa : ServiceAccount) (w : World) : World :=
  set_serviceAccounts
    {| store := <[("default", Name (sa_meta sa)):=sa]> (store (serviceAccounts w));
       lister := <[("default", Name (sa_meta sa)):=sa]> (lister (serviceAccounts w)) |}
    w.

Definition foreignWorld : World :=
  withServiceAccount foreignServiceAccount emptyWorld.

(** A reconciler whose service-account lister fails. *)
Definition deafLister : Reconciler :=
  {| kubeClientSet := kubeClientSet healthy;
     receiveAdapterImage := receiveAdapterImage healthy;
     receiveMTAdapterImage := receiveMTAdapterImage healthy;
     listerError := λ k, match k with
                         | ServiceAccounts => Some (ErrInternal "cache not synced")
                         | _ => None
                         end;
     tracker := tracker healthy; sinkResolver := sinkResolver healthy;
     loggingConfig := None; metricsConfig := None; leConfig := "" |}.

(** A reconciler whose clientset fails every create of a deployment. *)
Definition noCreate : Reconciler :=
  {| kubeClientSet := λ v k, match v, k with
                             | create, Deployments => Some (ErrInternal "etcd timeout")
                             | _, _ => None
                             end;
     receiveAdapterImage := receiveAdapterImage healthy;
     receiveMTAdapterImage := receiveMTAdapterImage healthy;
     listerError := listerError healthy;
     tracker := tracker healthy; sinkResolver := sinkResolver healthy;
     loggingConfig := None; metricsConfig := None; leConfig := "" |}.

Definition start (w : World) (src : PingSource) : St :=
  {| world := w; source := src |}.

End Fixture.

(** ** Reading a run *)

(** The calls and the events a run added to the log of the world it
    started from. *)
Definition newActions (before after : World) : list Action :=
  drop (length (actions before)) (actions after).

Definition newEvents (before after : World) : list Event :=
  drop (length (events before)) (events after).

Definition getAction (k : Kind) (ns name : string) (e : option APIError) : Action :=
  {| a_verb := get; a_kind := k; a_namespace := ns; a_name := name; a_err := e |}.

(** The source once the sink is resolved: lines 135 to 139 have marked
    the sink and the schedule, nothing else has happened yet. *)
Definition resolvedSource (src : PingSource) (sinkURI : string) : PingSource :=
  set_Status src (MarkSchedule (MarkSink sinkURI (Status src))).

Definition resolvedState (s : St) (sinkURI : string) : St :=
  {| world := add_resolved (defaultedSink (source s), keyOf (source s)) (world s);
     source := resolvedSource (source s) sinkURI |}.

(** [preserves R m]: the state any run of [m] ends in is related by [R]
    to the one it started from. *)
Definition preserves {A} (R : relation St) (m : M A) : Prop :=
  ∀ s, R s (final (m s)).

(** A run keeps an observation of the state. *)
Definition keepsOn {B} (f : St → B) : relation St := λ s s', f s' = f s.

(** A run only appends to the log of calls, and calls that satisfy [P]. *)
Definition appendsActions (P : Action → Prop) : relation St := λ s s',
  ∃ l, actions (world s') = actions (world s) ++ l ∧ Forall P l.

(** The first call a run makes is the lister's get of the given object. *)
Definition startsWithGet (k : Kind) (ns name : string) : relation St := λ s s',
  ∃ e l, actions (world s') =
           actions (world s) ++
           {| a_verb := get; a_kind := k; a_namespace := ns; a_name := name;
              a_err := e |} :: l.

(** A call that is no create, update or delete on the given kind. *)
Definition readsOnly (k : Kind) (a : Action) : Prop :=
  a_kind a = k → a_verb a = get.

(** The store of a kind. *)
Definition storeOf (k : Kind) (s : St) :
    match k with
    | ServiceAccounts => gmap key ServiceAccount
    | RoleBindings => gmap key RoleBinding
    | Deployments => gmap key Deployment
    end :=
  match k with
  | ServiceAccounts => store (serviceAccounts (world s))
  | RoleBindings => store (roleBindings (world s))
  | Deployments => store (deployments (world s))
  end.

(** A run leaves the store of a kind alone and makes no create, update
    or delete call on it. *)
Definition noWritesOn (k : Kind) : relation St := λ s s',
  storeOf k s' = storeOf k s ∧ appendsActions (readsOnly k) s s'.


(** The lister of a kind is made to fail with something else than
    not-found. *)
Definition listerFailed (r : Reconciler) (k : Kind) : Prop :=
  ∃ e, listerError r k = Some e ∧ e ≠ ErrNotFound.


(** Who the source is, what it asks for and what the resolver was
    asked: only the first lines of [ReconcileKind] touch the last. *)
Definition intentOf (s : St) : ObjectMeta * PingSourceSpec * list (Destination * key) :=
  (meta (source s), Spec (source s), resolved (world s)).

(** What the resolution wrote on the status. *)
Definition sinkStatusOf (s : St)
    : option Condition * option Condition * option string :=
  (SinkProvided (Status (source s)), ValidSchedule (Status (source s)),
   SinkURI (Status (source s))).

Section Scope.
Context `{Resources}.
Variable r : Reconciler.

(** The name of the service account and of the role binding of a
    source. *)
Definition saNameOf (src : PingSource) : string :=
  CreateReceiveAdapterName (Name (meta src)) (UID (meta src)).

(** The error of line 279. *)
Definition notOwned (ra : Deployment) (src : PingSource) : error :=
  Errorf "deployment %q is not owned by PingSource %q"
    [AString (Name (d_meta ra)); AString (Name (meta src))].

(** The event of line 274 when the create of line 269 failed. *)
Definition createFailedEvent (src : PingSource) (e : APIError) : Event :=
  {| e_object := keyOf src; e_type := EventTypeNormal;
     e_reason := pingSourceDeploymentCreated; e_format := "%s";
     e_args := [ASprintf "Deployment created, error: %v"
                  [AError (StatusError e)]] |}.

(** The event of line 319. *)
Definition mtCreateFailedEvent (src : PingSource) (e : APIError) : Event :=
  {| e_object := keyOf src; e_type := EventTypeWarning;
     e_reason := pingSourceDeploymentCreated;
     e_format := "Cluster-scoped deployment not created (%v)";
     e_args := [AError (StatusError e)] |}.

(** Lines 187 to 192 of [ReconcileKind], and the early returns of the
    two branches before them. *)
Definition finishReconcile (src : PingSource) (failed : option error) : M (option error) :=
  match failed with
  | Some err => ret (Some err)
  | None =>
      modifyStatus (λ st, set_CloudEventAttributes st
        [{| cea_Type := PingSourceEventType;
            cea_Source := PingSourceSource (Namespace (meta src))
                                           (Name (meta src)) |}]);;
      ret None
  end.

(** What is left of [ReconcileKind] once the sink is resolved. *)
Definition reconcileScope (src : PingSource) (uri : string) : M (option error) :=
  failed <-
    (if String.eqb (scopeOf src) eventing.ScopeCluster
     then reconcileClusterScope r
     else reconcileResourceScope r uri);;
  finishReconcile src failed.

(** The reference line 156 hands to the tracker. *)
Definition deploymentRef (d : Deployment) : Reference :=
  {| ref_APIVersion := "apps/v1"; ref_Kind := "Deployment";
     ref_Namespace := Namespace (d_meta d); ref_Name := Name (d_meta d) |}.

(** The source at the end of a run that succeeded on the deployment [d]. *)
Definition succeeded (src : PingSource) (d : Deployment) (s : St) : PingSource :=
  set_Status (source s)
    (set_CloudEventAttributes
       (PropagateDeploymentAvailability d (Status (source s)))
       [{| cea_Type := PingSourceEventType;
           cea_Source := PingSourceSource (Namespace (meta src))
                                          (Name (meta src)) |}]).

End Scope.

(** Modelled from the spec: what the design document says of the
    builders of the desired objects, which are not among the sources at
    hand.  An object is built under the name it is asked for, the
    per-source adapter is stamped with a controller reference to its
    source, and the desired state is computed from what the source asks
    for, not from its status. *)
Class WellBuilt `{Resources} : Prop := {
  serviceAccount_name : ∀ owner name,
    Name (sa_meta (MakeServiceAccount owner name)) = name;
  roleBinding_name : ∀ src name role,
    Name (rb_meta (MakeRoleBinding src name role)) = name;
  adapter_controlled : ∀ a,
    IsControlledBy (d_meta (MakeReceiveAdapter a)) (meta (args_Source a)) = true;
  adapter_intent : ∀ image src labels uri lc mc st,
    MakeReceiveAdapter
      {| args_Image := image; args_Source := set_Status src st;
         args_Labels := labels; args_SinkURI := uri;
         args_LoggingConfig := lc; args_MetricsConfig := mc |} =
    MakeReceiveAdapter
      {| args_Image := image; args_Source := src;
         args_Labels := labels; args_SinkURI := uri;
         args_LoggingConfig := lc; args_MetricsConfig := mc |};
  mtAdapter_name : ∀ a,
    Name (d_meta (MakeMTReceiveAdapter a)) = mt_MTAdapterName a
}.

(** No lister is made to fail: a get answers from the cache. *)
Definition faithfulListers (r : Reconciler) : Prop :=
  ∀ k, listerError r k = None.

(** A deployment is stored under its own name. *)
Definition wellKeyed (w : World) : Prop :=
  ∀ ns n d, store (deployments w) !! (ns, n) = Some d → Name (d_meta d) = n.

(** ** Examples on the concrete cluster *)
Module Examples.
Import Fixture.

Definition uri1 : string := "http://svc1.default.svc.cluster.local".

(** The source [p1] of the per-source scope and of the cluster scope. *)
Definition dedicated : PingSource := p1 resourceScoped.
Definition shared : PingSource := p1 ∅.

(** The desired adapter of [dedicated], and a live one that the server
    and other controllers have added to. *)
Definition desiredAdapter : Deployment :=
  MakeReceiveAdapter (adapterArgs healthy (resolvedSource dedicated uri1) uri1).

Definition liveAdapter : Deployment :=
  set_PodSpec desiredAdapter
    {| Containers :=
         [ {| c_Name := "receive-adapter"; c_Image := "adapter:1";
              c_Args := [];
              c_Env := c_Env (default (Build_Container "" "" [] [] "" "" false)
                                (head (Containers (d_PodSpec desiredAdapter))))
                       ++ [ {| ev_Name := "INJECTED"; ev_Value := "1" |} ];
              c_ImagePullPolicy := "IfNotPresent";
              c_TerminationMessagePath := "/dev/termination-log";
              c_TTY := false |};
           {| c_Name := "sidecar"; c_Image := "proxy:2"; c_Args := ["--quiet"];
              c_Env := []; c_ImagePullPolicy := "Always";
              c_TerminationMessagePath := ""; c_TTY := false |} ];
       RestartPolicy := "Always";
       TerminationGracePeriodSeconds := Some 30%Z;
       DNSPolicy := "ClusterFirst";
       NodeSelector := {[ "zone" := "a" ]};
       ServiceAccountName := "pingsource-p1-abc";
       NodeName := "node-7";
       HostNetwork := false;
       SchedulerName := "default-scheduler" |}.

(** The same adapter, controlled by another source. *)
Definition foreignAdapter : Deployment :=
  {| d_meta := ownedMeta other "pingsource-p1-abc";
     d_PodSpec := d_PodSpec desiredAdapter; d_Conditions := [] |}.

Definition withDeployment (ns : string) (d : Deployment) (w : World) : World :=
  set_deployments
    {| store := <[(ns, Name (d_meta d)):=d]> (store (deployments w));
       lister := <[(ns, Name (d_meta d)):=d]> (lister (deployments w)) |}
    w.

Definition liveWorld : World := withDeployment "default" liveAdapter emptyWorld.
Definition contestedWorld : World := withDeployment "default" foreignAdapter emptyWorld.

(** The shared adapter, live with additions of the server. *)
Definition liveMTAdapter : Deployment :=
  set_PodSpec (MakeMTReceiveAdapter (mtArgs healthy))
    {| Containers := Containers (d_PodSpec (MakeMTReceiveAdapter (mtArgs healthy)));
       RestartPolicy := "Always"; TerminationGracePeriodSeconds := Some 30%Z;
       DNSPolicy := "ClusterFirst"; NodeSelector := ∅;
       ServiceAccountName := "pingsource-mt-adapter"; NodeName := "node-3";
       HostNetwork := false; SchedulerName := "default-scheduler" |}.

Definition liveMTWorld : World :=
  withDeployment "knative-eventing" liveMTAdapter emptyWorld.

(** Where the first run of [dedicated] on an empty cluster ends. *)
Definition afterFirstRun : St :=
  final (ReconcileKind healthy (start emptyWorld dedicated)).

End Examples.

(** ** Reading a run, continued *)

(** The event types on the status. *)
Definition attributesOf (s : St) : list duckv1.CloudEventAttributes :=
  CloudEventAttributes (Status (source s)).

(** The references handed to the tracker so far. *)
Definition trackedOf (s : St) : list (Reference * key) := tracked (world s).

(** From a source with the metadata [m], a run keeps the metadata and
    only makes calls that satisfy [P]. *)
Definition confinedTo (m : ObjectMeta) (P : Action → Prop) : relation St := λ s s',
  meta (source s) = m →
  meta (source s') = m ∧
  ∃ l, actions (world s') = actions (world s) ++ l ∧ Forall P l.

(** A call that asks the cluster to change: a create, an update or a
    delete. *)
Definition isWrite (a : Action) : bool :=
  match a_verb a with
  | get => false
  | _ => true
  end.

(** A run only appends to the two logs, and no more events than write
    calls. *)
Definition announces : relation St := λ s s',
  ∃ la le, actions (world s') = actions (world s) ++ la ∧
           events (world s') = events (world s) ++ le ∧
           (List.length le ≤ List.length (List.filter isWrite la))%nat.

(** A run makes at most [n] calls, all on the kind [k]. *)
Definition callsOn (k : Kind) (n : nat) : relation St := λ s s',
  ∃ l, actions (world s') = actions (world s) ++ l ∧
       Forall (λ a, a_kind a = k) l ∧ (List.length l ≤ n)%nat.

(** ** Further scenarios on the concrete cluster *)
Module Scenarios.
Import Fixture Examples.

(** The source [dedicated] with a status whose annotations were never
    initialised. *)
Definition bare : PingSource :=
  set_Status dedicated (set_StatusAnnotations emptyStatus None).

(** A reconciler whose clientset fails every update, resp. every
    delete, of a deployment. *)
Definition noUpdate : Reconciler :=
  {| kubeClientSet := λ v k, match v, k with
                             | update, Deployments => Some (ErrInternal "conflict")
                             | _, _ => None
                             end;
     receiveAdapterImage := receiveAdapterImage healthy;
     receiveMTAdapterImage := receiveMTAdapterImage healthy;
     listerError := listerError healthy;
     tracker := tracker healthy; sinkResolver := sinkResolver healthy;
     loggingConfig := None; metricsConfig := None; leConfig := "" |}.

Definition noDelete : Reconciler :=
  {| kubeClientSet := λ v k, match v, k with
                             | delete, Deployments => Some (ErrInternal "forbidden")
                             | _, _ => None
                             end;
     receiveAdapterImage := receiveAdapterImage healthy;
     receiveMTAdapterImage := receiveMTAdapterImage healthy;
     listerError := listerError healthy;
     tracker := tracker healthy; sinkResolver := sinkResolver healthy;
     loggingConfig := None; metricsConfig := None; leConfig := "" |}.

(** The adapter of [dedicated] and the shared adapter as an older
    release deployed them: with another image. *)
Definition staleAdapter : Deployment :=
  set_PodSpec desiredAdapter (adapterPodSpec "adapter:0" "pingsource-p1-abc" []).

Definition staleWorld : World := withDeployment "default" staleAdapter emptyWorld.

Definition staleMTAdapter : Deployment :=
  set_PodSpec (MakeMTReceiveAdapter (mtArgs healthy))
    (adapterPodSpec "mtadapter:0" "pingsource-mt-adapter" []).

Definition staleMTWorld : World :=
  withDeployment "knative-eventing" staleMTAdapter emptyWorld.

(** A cluster whose stores hold the objects of [dedicated] and the
    shared adapter while the caches have not seen them yet. *)
Definition unseenWorld : World :=
  {| serviceAccounts :=
       {| store := {[ ("default", "pingsource-p1-abc") :=
                        MakeServiceAccount (meta dedicated) "pingsource-p1-abc" ]};
          lister := ∅ |};
     roleBindings :=
       {| store := {[ ("default", "pingsource-p1-abc") :=
                        MakeRoleBinding dedicated "pingsource-p1-abc"
                          stadapterClusterRoleName ]};
          lister := ∅ |};
     deployments :=
       {| store := {[ ("knative-eventing", "pingsource-mt-adapter") :=
                        MakeMTReceiveAdapter (mtArgs healthy) ]};
          lister := ∅ |};
     actions := []; events := []; tracked := []; resolved := [] |}.

(** Builders under which the deprecated naming scheme gives the name
    the adapter has today. *)
Definition sameNames : Resources :=
  {| CreateReceiveAdapterName := adapterName;
     Labels_of := @Labels_of resources;
     MakeServiceAccount := @MakeServiceAccount resources;
     MakeRoleBinding := @MakeRoleBinding resources;
     MakeReceiveAdapter := @MakeReceiveAdapter resources;
     MakeMTReceiveAdapter := @MakeMTReceiveAdapter resources;
     GenerateFixedName := λ owner _, adapterName (Name owner) (UID owner);
     json_Marshal := marshal;
     NewConfigFromConfigMap := parseLogging;
     LoggingConfigToJson := @LoggingConfigToJson resources;
     MetricsOptionsToJson := @MetricsOptionsToJson resources;
     system_Namespace := "knative-eventing";
     metrics_Domain := "knative.dev/eventing";
     PingSourceEventType := "dev.knative.sources.ping";
     PingSourceSource := @PingSourceSource resources |}.

(** Two snapshots of the configuration, as the ConfigMaps are shipped:
    with the reserved key. *)
Definition loggingSnapshot : ConfigMap :=
  {| cm_Name := "config-logging";
     cm_Data := {[ "loglevel.controller" := "debug"; "_example" := "# sample" ]} |}.

Definition metricsSnapshot : ConfigMap :=
  {| cm_Name := "config-observability";
     cm_Data := {[ "metrics.backend-destination" := "prometheus";
                   "_example" := "# sample" ]} |}.

(** The reconciler [healthy] after each callback was delivered its
    snapshot. *)
Definition afterLogging : Reconciler :=
  set_loggingConfig healthy
    (Some {| LoggingConfig_zap := "";
             LoggingLevel := {[ "controller" := "debug" ]} |}).

Definition afterMetrics : Reconciler :=
  set_metricsConfig healthy
    (Some {| eo_Domain := metrics_Domain; eo_Component := component;
             eo_ConfigMap := {[ "metrics.backend-destination" := "prometheus" ]} |}).

(** A reconciler whose tracker refuses every reference. *)
Definition noTracker : Reconciler :=
  {| kubeClientSet := kubeClientSet healthy;
     receiveAdapterImage := receiveAdapterImage healthy;
     receiveMTAdapterImage := receiveMTAdapterImage healthy;
     listerError := listerError healthy;
     tracker := λ _, Some (Errorf "tracker closed" []);
     sinkResolver := sinkResolver healthy;
     loggingConfig := None; metricsConfig := None; leConfig := "" |}.

(** The adapter of [dedicated] as another controller left it: it runs
    on the host network, a flag the builder leaves at its zero value;
    everything else is as desired. *)
Definition hostNetworkAdapter : Deployment :=
  set_PodSpec desiredAdapter
    {| Containers := Containers (d_PodSpec desiredAdapter);
       RestartPolicy := RestartPolicy (d_PodSpec desiredAdapter);
       TerminationGracePeriodSeconds :=
         TerminationGracePeriodSeconds (d_PodSpec desiredAdapter);
       DNSPolicy := DNSPolicy (d_PodSpec desiredAdapter);
       NodeSelector := NodeSelector (d_PodSpec desiredAdapter);
       ServiceAccountName := ServiceAccountName (d_PodSpec desiredAdapter);
       NodeName := NodeName (d_PodSpec desiredAdapter);
       HostNetwork := true;
       SchedulerName := SchedulerName (d_PodSpec desiredAdapter) |}.

Definition hostNetworkWorld : World :=
  withDeployment "default" hostNetworkAdapter emptyWorld.
End Scenarios.


(** * Properties *)

Ltac unfold_calls :=
  unfold listerGet, clientCreate, clientUpdate, clientDelete, listerAssign,
    logAction, Eventf, setStatusAnnotation, modifyStatus, modifyWorld,
    getWorld, getSource, panic, bind, ret in *.

Section DriftCheck.
Context `{Resources}.

Lemma podSpecChanged_derivative (L D : PodSpec) :
  equality.DeepDerivative D L = true → podSpecChanged L D = false.
Proof. unfold podSpecChanged. intros ->. reflexivity. Qed.

Lemma podSpecChanged_scalar (L D : PodSpec) :
  HostNetwork L ≠ HostNetwork D → podSpecChanged L D = true.
Proof.
  intros Hne. unfold podSpecChanged, equality.DeepDerivative.
  destruct (Bool.eqb (HostNetwork D) (HostNetwork L)) eqn:Heq.
  - apply Bool.eqb_prop in Heq. by destruct Hne.
  - by rewrite andb_false_r.
Qed.

(** C3 (amended). The drift check is one-directional.  When the desired
    pod spec [D] is a semantic derivative of the live pod spec [L],
    whatever else [L] carries, [podSpecChanged L D] reports no drift,
    and both the per-source and the shared adapter step return the live
    deployment after the lookup alone: the only call logged is the
    lister's get, no update is issued.  What the desired pod spec leaves
    unset is ignored only where unset is an empty string, a nil pointer
    or an empty slice or map: a plain scalar is compared even at its
    zero value, so when the host-network flags differ drift is reported
    and both steps go from the get to the update. *)
Theorem drift_check_one_directional (r : Reconciler) (L D : PodSpec) :
  (equality.DeepDerivative D L = true →
   podSpecChanged L D = false ∧
   (∀ w src uri ra,
      listerError r Deployments = None →
      let expected := MakeReceiveAdapter (adapterArgs r src uri) in
      lister (deployments w) !! (Namespace (meta src), Name (d_meta expected)) = Some ra →
      IsControlledBy (d_meta ra) (meta src) = true →
      d_PodSpec ra = L → d_PodSpec expected = D →
      createReceiveAdapter r uri {| world := w; source := src |} =
        Done (inl ra)
             {| world := add_action (getAction Deployments (Namespace (meta src))
                                       (Name (d_meta expected)) None) w;
                source := src |}) ∧
   (∀ w src d,
      listerError r Deployments = None →
      lister (deployments w) !! (system_Namespace, mtadapterName) = Some d →
      d_PodSpec d = L → d_PodSpec (MakeMTReceiveAdapter (mtArgs r)) = D →
      reconcileMTReceiveAdapter r {| world := w; source := src |} =
        Done (inl d)
             {| world := add_action (getAction Deployments system_Namespace
                                       mtadapterName None) w;
                source := src |})) ∧
  (HostNetwork L ≠ HostNetwork D →
   podSpecChanged L D = true ∧
   (∀ w src uri ra,
      listerError r Deployments = None →
      let expected := MakeReceiveAdapter (adapterArgs r src uri) in
      lister (deployments w) !! (Namespace (meta src), Name (d_meta expected)) = Some ra →
      IsControlledBy (d_meta ra) (meta src) = true →
      d_PodSpec ra = L → d_PodSpec expected = D →
      ∃ e, newActions w
             (world (final (createReceiveAdapter r uri
                              {| world := w; source := src |}))) =
             [ getAction Deployments (Namespace (meta src))
                 (Name (d_meta expected)) None;
               {| a_verb := update; a_kind := Deployments;
                  a_namespace := Namespace (meta src);
                  a_name := Name (d_meta ra); a_err := e |} ]) ∧
   (∀ w src d,
      listerError r Deployments = None →
      lister (deployments w) !! (system_Namespace, mtadapterName) = Some d →
      d_PodSpec d = L → d_PodSpec (MakeMTReceiveAdapter (mtArgs r)) = D →
      ∃ e, newActions w
             (world (final (reconcileMTReceiveAdapter r
                              {| world := w; source := src |}))) =
             [ getAction Deployments system_Namespace mtadapterName None;
               {| a_verb := update; a_kind := Deployments;
                  a_namespace := system_Namespace;
                  a_name := Name (d_meta d); a_err := e |} ])).
Proof.
  split.
  - intros HD. split; [by apply podSpecChanged_derivative|]. split.
    + intros w src uri ra Hl expected Hget Hown HL HDe.
      unfold createReceiveAdapter. unfold_calls. simpl.
      rewrite Hl. fold expected. rewrite Hget. simpl.
      rewrite Hown. simpl. rewrite HL, HDe, (podSpecChanged_derivative _ _ HD).
      reflexivity.
    + intros w src d Hl Hget HL HDe.
      unfold reconcileMTReceiveAdapter. unfold_calls. simpl.
      rewrite Hl, Hget. simpl.
      rewrite HL, HDe, (podSpecChanged_derivative _ _ HD). reflexivity.
  - intros Hne. pose proof (podSpecChanged_scalar _ _ Hne) as Hch.
    split; [done|]. split.
    + intros w src uri ra Hl expected Hget Hown HL HDe.
      unfold createReceiveAdapter. unfold_calls. simpl.
      rewrite Hl. fold expected. rewrite Hget. simpl.
      rewrite Hown. simpl. rewrite HL, HDe, Hch. simpl.
      unfold newActions.
      repeat (case_match; simplify_eq/=);
        rewrite <-?app_assoc, drop_app_length; by eexists.
    + intros w src d Hl Hget HL HDe.
      unfold reconcileMTReceiveAdapter. unfold_calls. simpl.
      rewrite Hl, Hget. simpl. rewrite HL, HDe, Hch. simpl.
      unfold newActions.
      repeat (case_match; simplify_eq/=);
        rewrite <-?app_assoc, drop_app_length; by eexists.
Qed.

End DriftCheck.

(** ** Frame reasoning *)
(** ** Frame reasoning *)
Section Frames.
Context `{Resources}.
Variable r : Reconciler.

Lemma preserves_ret {A} (R : relation St) `{!Reflexive R} (a : A) :
  preserves R (ret a).
Proof. intros s. simpl. reflexivity. Qed.

Lemma preserves_bind {A B} (R : relation St) `{!Transitive R}
    (m : M A) (f : A → M B) :
  preserves R m → (∀ a, preserves R (f a)) → preserves R (bind m f).
Proof.
  intros Hm Hf s. unfold bind. specialize (Hm s).
  destruct (m s) as [a s1|msg s1]; simpl in *; [|done].
  etrans; [exact Hm|apply Hf].
Qed.

Lemma final_bind {A B} (m : M A) (f : A → M B) (s : St) :
  final (bind m f s) =
    match m s with
    | Done a s1 => final (f a s1)
    | Panic _ s1 => s1
    end.
Proof. unfold bind. by destruct (m s). Qed.

#[export] Instance keepsOn_refl {B} (f : St → B) : Reflexive (keepsOn f).
Proof. by intros s. Qed.

#[export] Instance keepsOn_trans {B} (f : St → B) : Transitive (keepsOn f).
Proof. unfold keepsOn. intros s1 s2 s3 ??. congruence. Qed.

#[export] Instance appendsActions_refl P : Reflexive (appendsActions P).
Proof. intros s. exists []. by rewrite app_nil_r. Qed.

#[export] Instance appendsActions_trans P : Transitive (appendsActions P).
Proof.
  intros s1 s2 s3 (l1&H1&?) (l2&H2&?). exists (l1 ++ l2).
  rewrite H2, H1, (assoc_L (++)). split; [done|]. by apply Forall_app.
Qed.

Lemma preserves_bind_then {A B} (R1 R2 : relation St) (m : M A) (f : A → M B) :
  (∀ x y z, R1 x y → R2 y z → R1 x z) →
  preserves R1 m → (∀ a, preserves R2 (f a)) → preserves R1 (bind m f).
Proof.
  intros Hc Hm Hf s. unfold bind. specialize (Hm s).
  destruct (m s) as [a s1|msg s1]; simpl in *; [|done].
  eapply Hc; [exact Hm|apply Hf].
Qed.

Lemma startsWithGet_grows k ns name x y z :
  startsWithGet k ns name x y → appendsActions (λ _, True) y z →
  startsWithGet k ns name x z.
Proof.
  intros (e&l&Hy) (l'&Hz&_). exists e, (l ++ l').
  by rewrite Hz, Hy, <-(assoc_L (++)).
Qed.

Lemma newActions_app (w w' : World) l :
  actions w' = actions w ++ l → newActions w w' = l.
Proof. unfold newActions. intros ->. by rewrite drop_app_length. Qed.

#[export] Instance noWritesOn_refl k : Reflexive (noWritesOn k).
Proof. intros s. split; reflexivity. Qed.

#[export] Instance noWritesOn_trans k : Transitive (noWritesOn k).
Proof.
  intros s1 s2 s3 [H1 ?] [H2 ?]. split; [by rewrite H2|by etrans].
Qed.

Lemma appendsActions_new P s s' :
  appendsActions P s s' → Forall P (newActions (world s) (world s')).
Proof. intros (l&Hl&?). by rewrite (newActions_app _ _ _ Hl). Qed.

Lemma ReconcileKind_unfold (s : St) :
  ReconcileKind r s =
    match sinkResolver r (defaultedSink (source s)) (keyOf (source s)) with
    | inr _ =>
        Done (Some (newWarningSinkNotFound (defaultedSink (source s))))
             {| world := add_resolved (defaultedSink (source s), keyOf (source s))
                           (world s);
                source := set_Status (source s)
                            (MarkNoSink "NotFound" "" (Status (source s))) |}
    | inl uri =>
        reconcileScope r (resolvedSource (source s) uri) uri (resolvedState s uri)
    end.
Proof.
  unfold ReconcileKind, URIFromDestinationV1.
  unfold bind at 1. unfold getSource at 1.
  unfold bind at 1. unfold bind at 1. unfold getSource at 1.
  unfold bind at 1. unfold modifyWorld at 1. unfold ret at 1.
  cbn [world source].
  destruct (sinkResolver r (defaultedSink (source s)) (keyOf (source s))); reflexivity.
Qed.

End Frames.

(** The steps of a reconcile, unfolded down to the calls. *)
Ltac unfold_steps :=
  unfold reconcileScope, finishReconcile, reconcileClusterScope,
    reconcileResourceScope, reconcileServiceAccount, reconcileRoleBinding,
    createReceiveAdapter, reconcileMTReceiveAdapter, TrackReference.

(** [frame leaf] walks a computation along its binds and matches and
    closes what is left with [leaf]. *)
Ltac frame leaf :=
  repeat first
    [ apply preserves_ret; tc_solve
    | apply preserves_bind; [tc_solve| |intros ?]
    | progress cbv zeta
    | case_match
    | leaf ].

Ltac keeps_leaf :=
  intros ?; unfold keepsOn, intentOf, sinkStatusOf,
    PropagateDeploymentAvailability;
  unfold_calls; simpl; repeat case_match; simpl; done.

Ltac appends_leaf :=
  intros ?; unfold_calls; simpl;
  first [ exists []; split; [by rewrite app_nil_r|by constructor]
        | eexists [_]; split; [reflexivity|];
          repeat constructor; simpl; (done || naive_solver) ].

Ltac noWrites_leaf :=
  intros ?; unfold noWritesOn, storeOf, readsOnly; unfold_calls; simpl;
  repeat case_match; simpl;
  (split; [done|]);
  first [ exists []; split; [by rewrite app_nil_r|by constructor]
        | eexists [_]; split; [reflexivity|];
          repeat constructor; simpl; done ].

(** [run_step] runs a step down to its calls and splits on everything
    the run depends on. *)
Ltac run_step :=
  unfold_steps; unfold_calls; unfold newActions, newEvents; simpl;
  repeat (case_match; simplify_eq/=);
  rewrite <-?app_assoc, ?drop_app_length, ?drop_all; simpl.

Section Resolution.
Context `{Resources}.
Variable r : Reconciler.

Lemma keepsIntent_reconcileScope src uri :
  preserves (keepsOn intentOf) (reconcileScope r src uri).
Proof. unfold_steps. frame keeps_leaf. Qed.

Lemma keepsSinkStatus_reconcileScope src uri :
  preserves (keepsOn sinkStatusOf) (reconcileScope r src uri).
Proof. unfold_steps. frame keeps_leaf. Qed.

Lemma grows_reconcileScope src uri :
  preserves (appendsActions (λ _, True)) (reconcileScope r src uri).
Proof. unfold_steps. frame appends_leaf. Qed.

(** C9. Namespace defaulting.  Whatever the run does afterwards, the
    resolver is asked exactly once, for [defaultedSink] of the source:
    when the sink is a reference with an empty namespace this is a copy
    of it whose namespace is the namespace of the source, and when the
    reference carries a namespace it is the sink as it stands.  The spec
    of the source is the same after the run. *)
Theorem namespace_defaulting (s : St) :
  let src := source s in
  let s' := final (ReconcileKind r s) in
  resolved (world s') = resolved (world s) ++ [(defaultedSink src, keyOf src)] ∧
  Spec (source s') = Spec src ∧
  (∀ ref, Ref (Sink (Spec src)) = Some ref → kr_Namespace ref = "" →
     defaultedSink src =
       {| Ref := Some {| kr_Kind := kr_Kind ref;
                         kr_Namespace := Namespace (meta src);
                         kr_Name := kr_Name ref;
                         kr_APIVersion := kr_APIVersion ref |};
          URI := URI (Sink (Spec src)) |}) ∧
  (∀ ref, Ref (Sink (Spec src)) = Some ref → kr_Namespace ref ≠ "" →
     defaultedSink src = Sink (Spec src)).
Proof.
  intros src s'. subst src s'. split_and!.
  - rewrite ReconcileKind_unfold.
    destruct (sinkResolver r _ _) as [uri|e]; [|done].
    pose proof (keepsIntent_reconcileScope (resolvedSource (source s) uri) uri
                  (resolvedState s uri)) as Hk.
    injection Hk as _ _ ->. done.
  - rewrite ReconcileKind_unfold.
    destruct (sinkResolver r _ _) as [uri|e]; [|done].
    pose proof (keepsIntent_reconcileScope (resolvedSource (source s) uri) uri
                  (resolvedState s uri)) as Hk.
    injection Hk as _ -> _. done.
  - intros ref Href Hns. unfold defaultedSink. rewrite Href, Hns. done.
  - intros ref Href Hns. unfold defaultedSink. rewrite Href.
    destruct (String.eqb_spec (kr_Namespace ref) ""); done.
Qed.

Lemma listerGet_starts `{Resource A} ns name :
  preserves (startsWithGet kindOf ns name) (listerGet (A:=A) r ns name).
Proof.
  intros s. unfold_calls. simpl.
  repeat case_match; simpl; eexists _, []; reflexivity.
Qed.

Lemma reconcileClusterScope_starts src :
  preserves (startsWithGet Deployments system_Namespace mtadapterName)
    (failed <- reconcileClusterScope r;; finishReconcile src failed).
Proof.
  unfold reconcileClusterScope, reconcileMTReceiveAdapter.
  do 3 (apply (preserves_bind_then _ (appendsActions (λ _, True)));
        [apply startsWithGet_grows| |intros ?; unfold_steps; frame appends_leaf]).
  exact (listerGet_starts (A:=Deployment) system_Namespace mtadapterName).
Qed.

Lemma reconcileResourceScope_starts src uri :
  preserves (λ s s',
      startsWithGet ServiceAccounts (Namespace (meta (source s)))
        (CreateReceiveAdapterName (Name (meta (source s))) (UID (meta (source s))))
        s s')
    (failed <- reconcileResourceScope r uri;; finishReconcile src failed).
Proof.
  unfold reconcileResourceScope.
  do 2 (apply (preserves_bind_then _ (appendsActions (λ _, True)));
        [intros ???; apply startsWithGet_grows| |
         intros ?; unfold_steps; frame appends_leaf]).
  intros s. unfold reconcileServiceAccount.
  unfold bind at 1. unfold getSource at 1.
  apply (preserves_bind_then _ (appendsActions (λ _, True)));
    [apply startsWithGet_grows| |intros ?; frame appends_leaf].
  exact (listerGet_starts (A:=ServiceAccount) _ _).
Qed.

(** C6 (amended). Resolution of the sink.  When the resolver fails on
    the namespace-defaulted destination, the run ends at once: the sink
    condition is false with reason [NotFound] and an empty message, the
    error returned is the [SinkNotFound] warning that carries the
    serialised destination, and the world is the one the run started
    from but for the record of the resolver call, so no managed object
    was read or written.  When the resolver succeeds, the steps on the
    managed objects start from a state whose status has the sink
    address and both conditions true and whose log of calls is
    untouched; the run ends with these three still in place. *)
Theorem sink_resolution_outcome (s : St) :
  let src := source s in
  let dest := defaultedSink src in
  (∀ e, sinkResolver r dest (keyOf src) = inr e →
     ReconcileKind r s =
       Done (Some (newWarningSinkNotFound dest))
            {| world := add_resolved (dest, keyOf src) (world s);
               source := set_Status src (MarkNoSink "NotFound" "" (Status src)) |} ∧
     SinkProvided (MarkNoSink "NotFound" "" (Status src)) =
       Some {| cond_Status := ConditionFalse; cond_Reason := "NotFound";
               cond_Message := "" |} ∧
     newWarningSinkNotFound dest =
       ReconcilerEvent EventTypeWarning "SinkNotFound" "Sink not found: %s"
         [AString (json_Marshal dest)] ∧
     newActions (world s) (world (final (ReconcileKind r s))) = []) ∧
  (∀ uri, sinkResolver r dest (keyOf src) = inl uri →
     ReconcileKind r s =
       reconcileScope r (resolvedSource src uri) uri (resolvedState s uri) ∧
     actions (world (resolvedState s uri)) = actions (world s) ∧
     sinkStatusOf (resolvedState s uri) = (Some condTrue, Some condTrue, Some uri) ∧
     sinkStatusOf (final (ReconcileKind r s)) =
       (Some condTrue, Some condTrue, Some uri)).
Proof.
  intros src dest. subst src dest. split.
  - intros e He. rewrite ReconcileKind_unfold, He. split_and!; try done.
    simpl. unfold newActions. simpl. by rewrite drop_all.
  - intros uri Huri. rewrite ReconcileKind_unfold, Huri. split_and!; try done.
    rewrite (keepsSinkStatus_reconcileScope _ _ (resolvedState s uri)). done.
Qed.

End Resolution.

Section Routing.
Context `{Resources}.
Variable r : Reconciler.

Lemma scopeOf_cluster (src : PingSource) :
  String.eqb (scopeOf src) eventing.ScopeCluster = true ↔
  Annotations (meta src) !! eventing.ScopeAnnotationKey = None ∨
  Annotations (meta src) !! eventing.ScopeAnnotationKey = Some eventing.ScopeCluster.
Proof.
  unfold scopeOf. rewrite String.eqb_eq.
  destruct (Annotations (meta src) !! eventing.ScopeAnnotationKey) as [v|];
    [|by intuition].
  split; [intros ->; by right|]. by intros [?|[= ->]].
Qed.

(** C5 (amended). Scope routing reads the scope annotation and nothing
    else, and cannot fail.  Once the sink is resolved, a source whose
    annotation is absent or is the cluster value runs the cluster
    branch: its first call is the lister's get of the shared adapter
    deployment.  A source with any other value of the annotation, the
    resource value or not, runs the per-source branch: its first call is
    the lister's get of its own service account. *)
Theorem scope_routing (s : St) (uri : string) :
  let src := source s in
  let s1 := resolvedState s uri in
  let s' := final (ReconcileKind r s) in
  sinkResolver r (defaultedSink src) (keyOf src) = inl uri →
  (Annotations (meta src) !! eventing.ScopeAnnotationKey = None ∨
   Annotations (meta src) !! eventing.ScopeAnnotationKey = Some eventing.ScopeCluster →
     ReconcileKind r s =
       (failed <- reconcileClusterScope r;; finishReconcile (source s1) failed) s1 ∧
     ∃ e l, newActions (world s) (world s') =
              getAction Deployments system_Namespace mtadapterName e :: l) ∧
  (∀ v, Annotations (meta src) !! eventing.ScopeAnnotationKey = Some v →
        v ≠ eventing.ScopeCluster →
     ReconcileKind r s =
       (failed <- reconcileResourceScope r uri;; finishReconcile (source s1) failed) s1 ∧
     ∃ e l, newActions (world s) (world s') =
              getAction ServiceAccounts (Namespace (meta src))
                (CreateReceiveAdapterName (Name (meta src)) (UID (meta src))) e :: l).
Proof.
  intros src s1 s' Huri. subst src s1 s'.
  rewrite ReconcileKind_unfold, Huri. unfold reconcileScope. split.
  - intros Hc. apply scopeOf_cluster in Hc as Hc'.
    change (scopeOf (resolvedSource (source s) uri)) with (scopeOf (source s)).
    rewrite Hc'. split; [done|].
    destruct (reconcileClusterScope_starts r (source (resolvedState s uri))
                (resolvedState s uri)) as (e&l&Hl).
    exists e, l. by apply newActions_app.
  - intros v Hv Hne.
    change (scopeOf (resolvedSource (source s) uri)) with (scopeOf (source s)).
    assert (String.eqb (scopeOf (source s)) eventing.ScopeCluster = false) as ->.
    { apply String.eqb_neq. unfold scopeOf. by rewrite Hv. }
    split; [done|].
    destruct (reconcileResourceScope_starts r (source (resolvedState s uri)) uri
                (resolvedState s uri)) as (e&l&Hl).
    exists e, l. by apply newActions_app.
Qed.

End Routing.

(** ** The steps on the managed objects *)
Section Steps.
Context `{Resources}.
Variable r : Reconciler.

Lemma bind_Done {A B} (m : M A) (f : A → M B) s a s1 :
  m s = Done a s1 → bind m f s = f a s1.
Proof. unfold bind. by intros ->. Qed.

Lemma bind_Panic {A B} (m : M A) (f : A → M B) s msg s1 :
  m s = Panic msg s1 → bind m f s = Panic msg s1.
Proof. unfold bind. by intros ->. Qed.

Lemma reconcileServiceAccount_hit s sa :
  listerError r ServiceAccounts = None →
  lister (serviceAccounts (world s))
    !! (Namespace (meta (source s)), saNameOf (source s)) = Some sa →
  reconcileServiceAccount r s =
    Done (inl sa)
      {| world := add_action (getAction ServiceAccounts (Namespace (meta (source s)))
                                (saNameOf (source s)) None) (world s);
         source := source s |}.
Proof.
  intros He Hl. unfold reconcileServiceAccount. unfold_calls. simpl.
  unfold saNameOf in Hl. by rewrite He, Hl.
Qed.

Lemma reconcileRoleBinding_hit s rb :
  listerError r RoleBindings = None →
  lister (roleBindings (world s))
    !! (Namespace (meta (source s)), saNameOf (source s)) = Some rb →
  reconcileRoleBinding r s =
    Done (inl rb)
      {| world := add_action (getAction RoleBindings (Namespace (meta (source s)))
                                (saNameOf (source s)) None) (world s);
         source := source s |}.
Proof.
  intros He Hl. unfold reconcileRoleBinding. unfold_calls. simpl.
  unfold saNameOf in Hl. by rewrite He, Hl.
Qed.

Lemma createReceiveAdapter_foreign s uri ra :
  let expected := MakeReceiveAdapter (adapterArgs r (source s) uri) in
  listerError r Deployments = None →
  lister (deployments (world s))
    !! (Namespace (meta (source s)), Name (d_meta expected)) = Some ra →
  IsControlledBy (d_meta ra) (meta (source s)) = false →
  createReceiveAdapter r uri s =
    Done (inr (notOwned ra (source s)))
      {| world := add_action (getAction Deployments (Namespace (meta (source s)))
                                (Name (d_meta expected)) None) (world s);
         source := source s |}.
Proof.
  intros expected He Hl Hc. unfold createReceiveAdapter. unfold_calls. simpl.
  fold expected. by rewrite He, Hl, Hc.
Qed.

(** A step that returns its object has left the source as it was, and
    the objects of the other kinds too. *)
Lemma reconcileServiceAccount_ok s sa s' :
  reconcileServiceAccount r s = Done (inl sa) s' →
  source s' = source s ∧
  roleBindings (world s') = roleBindings (world s) ∧
  deployments (world s') = deployments (world s).
Proof.
  unfold reconcileServiceAccount. unfold_calls. simpl.
  repeat case_match; simpl; intros; by simplify_eq.
Qed.

Lemma reconcileRoleBinding_ok s rb s' :
  reconcileRoleBinding r s = Done (inl rb) s' →
  source s' = source s ∧
  serviceAccounts (world s') = serviceAccounts (world s) ∧
  deployments (world s') = deployments (world s).
Proof.
  unfold reconcileRoleBinding. unfold_calls. simpl.
  repeat case_match; simpl; intros; by simplify_eq.
Qed.

Lemma bind2_Done {A B C} (m : M A) (f : A → M B) (g : B → M C) s a s1 :
  m s = Done a s1 → bind (bind m f) g s = bind (f a) g s1.
Proof. unfold bind. by intros ->. Qed.

Lemma bind2_Panic {A B C} (m : M A) (f : A → M B) (g : B → M C) s msg s1 :
  m s = Panic msg s1 → bind (bind m f) g s = Panic msg s1.
Proof. unfold bind. by intros ->. Qed.

Lemma noWritesOn_resolved k s uri : noWritesOn k s (resolvedState s uri).
Proof. split; [by destruct k|]. exists []. by rewrite app_nil_r. Qed.

Lemma noWritesOn_get k k' s ns name e :
  noWritesOn k s
    {| world := add_action (getAction k' ns name e) (world s);
       source := source s |}.
Proof.
  split; [by destruct k|]. eexists [_]. split; [done|].
  by repeat constructor.
Qed.

(** The per-source branch from a given step on never writes the kinds
    of the steps before it. *)
Lemma noWritesOn_reconcileServiceAccount k :
  k ≠ ServiceAccounts → preserves (noWritesOn k) (reconcileServiceAccount r).
Proof.
  intros Hk. unfold_steps. destruct k; [done|..]; frame noWrites_leaf.
Qed.

Lemma noWritesOn_reconcileRoleBinding k :
  k ≠ RoleBindings → preserves (noWritesOn k) (reconcileRoleBinding r).
Proof.
  intros Hk. unfold_steps. destruct k; [|done|]; frame noWrites_leaf.
Qed.

Lemma noWritesOn_createReceiveAdapter k uri :
  k ≠ Deployments → preserves (noWritesOn k) (createReceiveAdapter r uri).
Proof.
  intros Hk. unfold_steps. destruct k; [..|done]; frame noWrites_leaf.
Qed.

Lemma noWritesOn_finishReconcile k src failed :
  preserves (noWritesOn k) (finishReconcile src failed).
Proof. unfold_steps. destruct k; frame noWrites_leaf. Qed.

Lemma noWritesOn_modifyStatus k f : preserves (noWritesOn k) (modifyStatus f).
Proof. destruct k; noWrites_leaf. Qed.

End Steps.

Section Ownership.
Context `{Resources}.
Variable r : Reconciler.

Lemma preserves_at {A} (R : relation St) (m : M A) s :
  preserves R m → R s (final (m s)).
Proof. intros Hm. apply Hm. Qed.

Ltac tail :=
  repeat first
    [ apply preserves_ret; tc_solve
    | apply noWritesOn_reconcileServiceAccount; done
    | apply noWritesOn_reconcileRoleBinding; done
    | apply noWritesOn_createReceiveAdapter; done
    | apply noWritesOn_finishReconcile
    | apply noWritesOn_modifyStatus
    | apply preserves_bind; [tc_solve| |intros ?]
    | case_match ].

Lemma resource_branch s uri :
  sinkResolver r (defaultedSink (source s)) (keyOf (source s)) = inl uri →
  scopeOf (source s) ≠ eventing.ScopeCluster →
  ReconcileKind r s =
    (failed <- reconcileResourceScope r uri;;
     finishReconcile (resolvedSource (source s) uri) failed) (resolvedState s uri).
Proof.
  intros Huri Hscope. rewrite ReconcileKind_unfold, Huri. unfold reconcileScope.
  change (scopeOf (resolvedSource (source s) uri)) with (scopeOf (source s)).
  by apply String.eqb_neq in Hscope as ->.
Qed.

(** C1 (amended). Ownership safety, for a source of the per-source
    scope whose sink resolves.  If the lister returns an object at the
    expected name of the source, the run makes no create, update or
    delete call on that kind and leaves its store as it was: for the
    service account and the role binding whoever owns the object, for
    the adapter deployment when the source does not control it.  In the
    last case the run never succeeds: unless the service-account or the
    role-binding step fails first, it returns the ownership-conflict
    error of the deployment step. *)
Theorem ownership_conflict (s : St) (uri : string) :
  let src := source s in
  let ns := Namespace (meta src) in
  let expected := MakeReceiveAdapter (adapterArgs r (resolvedSource src uri) uri) in
  let s' := final (ReconcileKind r s) in
  sinkResolver r (defaultedSink src) (keyOf src) = inl uri →
  scopeOf src ≠ eventing.ScopeCluster →
  (∀ sa, listerError r ServiceAccounts = None →
         lister (serviceAccounts (world s)) !! (ns, saNameOf src) = Some sa →
         store (serviceAccounts (world s')) = store (serviceAccounts (world s)) ∧
         Forall (readsOnly ServiceAccounts) (newActions (world s) (world s'))) ∧
  (∀ rb, listerError r RoleBindings = None →
         lister (roleBindings (world s)) !! (ns, saNameOf src) = Some rb →
         store (roleBindings (world s')) = store (roleBindings (world s)) ∧
         Forall (readsOnly RoleBindings) (newActions (world s) (world s'))) ∧
  (∀ ra, listerError r Deployments = None →
         lister (deployments (world s)) !! (ns, Name (d_meta expected)) = Some ra →
         IsControlledBy (d_meta ra) (meta src) = false →
         store (deployments (world s')) = store (deployments (world s)) ∧
         Forall (readsOnly Deployments) (newActions (world s) (world s')) ∧
         ∀ res, ReconcileKind r s = Done res s' →
           (∃ e, res = Some (Errorf "creating receive adapter service account: %v"
                               [AError e])) ∨
           (∃ e, res = Some (Errorf "creating receive adapter role binding: %v"
                               [AError e])) ∨
           res = Some (Errorf "creating receive adapter: %v"
                         [AError (notOwned ra src)])).
Proof.
  intros src ns expected s' Huri Hscope. subst src ns s'.
  rewrite (resource_branch _ _ Huri Hscope).
  set (s1 := resolvedState s uri).
  assert (∀ k, noWritesOn k s s1) as Hs1 by (intros; apply noWritesOn_resolved).
  split_and!.
  - intros sa He Hl.
    cut (noWritesOn ServiceAccounts s
           (final ((failed <- reconcileResourceScope r uri;;
                    finishReconcile (resolvedSource (source s) uri) failed) s1))).
    { intros [? ?]. split; [done|]. by apply appendsActions_new. }
    unfold reconcileResourceScope.
    rewrite (bind2_Done _ _ _ _ _ _ (reconcileServiceAccount_hit r s1 sa He Hl)).
    etrans; [apply Hs1|]. etrans; [apply noWritesOn_get|].
    apply (preserves_at _ (bind _ _)). tail.
  - intros rb He Hl.
    cut (noWritesOn RoleBindings s
           (final ((failed <- reconcileResourceScope r uri;;
                    finishReconcile (resolvedSource (source s) uri) failed) s1))).
    { intros [? ?]. split; [done|]. by apply appendsActions_new. }
    unfold reconcileResourceScope.
    pose proof (noWritesOn_reconcileServiceAccount r RoleBindings ltac:(done) s1) as HSA'.
    destruct (reconcileServiceAccount r s1) as [[sa|e] s2|msg s2] eqn:HSA;
      simpl in HSA'.
    + rewrite (bind2_Done _ _ _ _ _ _ HSA).
      apply reconcileServiceAccount_ok in HSA as (Hsrc&Hrb&_).
      assert (lister (roleBindings (world s2))
                !! (Namespace (meta (source s2)), saNameOf (source s2)) = Some rb)
        as Hl2 by (by rewrite Hsrc, Hrb).
      rewrite (bind2_Done _ _ _ _ _ _ (reconcileRoleBinding_hit r s2 rb He Hl2)).
      etrans; [apply Hs1|]. etrans; [exact HSA'|]. etrans; [apply noWritesOn_get|].
      apply (preserves_at _ (bind _ _)). tail.
    + rewrite (bind2_Done _ _ _ _ _ _ HSA). simpl. by etrans.
    + rewrite (bind2_Panic _ _ _ _ _ _ HSA). simpl. by etrans.
  - intros ra He Hl Hown.
    cut (noWritesOn Deployments s
           (final ((failed <- reconcileResourceScope r uri;;
                    finishReconcile (resolvedSource (source s) uri) failed) s1)) ∧
         ∀ res s', (failed <- reconcileResourceScope r uri;;
                    finishReconcile (resolvedSource (source s) uri) failed) s1
                   = Done res s' →
           (∃ e, res = Some (Errorf "creating receive adapter service account: %v"
                               [AError e])) ∨
           (∃ e, res = Some (Errorf "creating receive adapter role binding: %v"
                               [AError e])) ∨
           res = Some (Errorf "creating receive adapter: %v"
                         [AError (notOwned ra (source s))])).
    { intros [[? ?] Hres]. split_and!; [done|by apply appendsActions_new|].
      intros res. apply Hres. }
    unfold reconcileResourceScope.
    pose proof (noWritesOn_reconcileServiceAccount r Deployments ltac:(done) s1) as HSA'.
    destruct (reconcileServiceAccount r s1) as [[sa|e] s2|msg s2] eqn:HSA;
      simpl in HSA'.
    2:{ rewrite (bind2_Done _ _ _ _ _ _ HSA). simpl. split; [by etrans|].
        intros ?? [= <- <-]. eauto. }
    2:{ rewrite (bind2_Panic _ _ _ _ _ _ HSA). simpl. split; [by etrans|done]. }
    rewrite (bind2_Done _ _ _ _ _ _ HSA).
    apply reconcileServiceAccount_ok in HSA as (Hsrc2&_&Hd2).
    pose proof (noWritesOn_reconcileRoleBinding r Deployments ltac:(done) s2) as HRB'.
    destruct (reconcileRoleBinding r s2) as [[rb|e] s3|msg s3] eqn:HRB;
      simpl in HRB'.
    2:{ rewrite (bind2_Done _ _ _ _ _ _ HRB). simpl.
        split; [by etrans; [|etrans]|]. intros ?? [= <- <-]. eauto. }
    2:{ rewrite (bind2_Panic _ _ _ _ _ _ HRB). simpl.
        split; [by etrans; [|etrans]|done]. }
    rewrite (bind2_Done _ _ _ _ _ _ HRB).
    apply reconcileRoleBinding_ok in HRB as (Hsrc3&_&Hd3).
    assert (source s3 = resolvedSource (source s) uri) as Hsrc
      by (by rewrite Hsrc3, Hsrc2).
    assert (createReceiveAdapter r uri s3 =
            Done (inr (notOwned ra (source s)))
              {| world := add_action
                   (getAction Deployments (Namespace (meta (source s)))
                      (Name (d_meta expected)) None) (world s3);
                 source := resolvedSource (source s) uri |}) as HD.
    { pose proof (createReceiveAdapter_foreign r s3 uri ra) as HD. simpl in HD.
      rewrite Hsrc, Hd3, Hd2 in HD. exact (HD He Hl Hown). }
    rewrite (bind2_Done _ _ _ _ _ _ HD). simpl. split.
    + etrans; [apply Hs1|]. etrans; [exact HSA'|]. etrans; [exact HRB'|].
      rewrite <-Hsrc. apply noWritesOn_get.
    + intros ?? [= <- <-]. eauto.
Qed.

End Ownership.

Section Failures.
Context `{Resources}.
Variable r : Reconciler.



End Failures.

Section FailureEvents.
Context `{Resources}.
Variable r : Reconciler.

Ltac invert_calls H :=
  repeat (apply Exists_cons in H as [H|H]);
  try (by apply Exists_nil in H);
  try (destruct H as (?&?); simplify_eq/=).

Ltac all_calls H :=
  repeat (apply Forall_cons in H as [? H]); simpl in *.

(** C8 (amended). Events on failure.  A service-account or
    role-binding step that returns an error has emitted no event.  A
    deployment step that returns an error has emitted no event unless
    its create call failed; when the create failed, the error returned
    is the error of the create and the last event emitted is the
    [PingSourceDeploymentCreated] event that reports it: a normal one
    for the per-source adapter, a warning and the only event for the
    shared adapter. *)
Theorem failure_events :
  (∀ s err s', reconcileServiceAccount r s = Done (inr err) s' →
     newEvents (world s) (world s') = []) ∧
  (∀ s err s', reconcileRoleBinding r s = Done (inr err) s' →
     newEvents (world s) (world s') = []) ∧
  (∀ s uri err s', createReceiveAdapter r uri s = Done (inr err) s' →
     (Forall (λ a, a_verb a = create → a_err a = None)
        (newActions (world s) (world s')) →
      newEvents (world s) (world s') = []) ∧
     (∀ e, Exists (λ a, a_verb a = create ∧ a_err a = Some e)
             (newActions (world s) (world s')) →
        err = StatusError e ∧
        ∃ pre, newEvents (world s) (world s') =
                 pre ++ [createFailedEvent (source s) e])) ∧
  (∀ s err s', reconcileMTReceiveAdapter r s = Done (inr err) s' →
     (Forall (λ a, a_verb a = create → a_err a = None)
        (newActions (world s) (world s')) →
      newEvents (world s) (world s') = []) ∧
     (∀ e, Exists (λ a, a_verb a = create ∧ a_err a = Some e)
             (newActions (world s) (world s')) →
        err = StatusError e ∧
        newEvents (world s) (world s') = [mtCreateFailedEvent (source s) e])).
Proof.
  split_and!.
  - intros s err s'. run_step; intros; simplify_eq/=.
    all: by rewrite <-?app_assoc, ?drop_app_length, ?drop_all.
  - intros s err s'. run_step; intros; simplify_eq/=.
    all: by rewrite <-?app_assoc, ?drop_app_length, ?drop_all.
  - intros s uri err s'. run_step; intros; simplify_eq/=.
    all: rewrite <-?app_assoc, ?drop_app_length, ?drop_all; simpl.
    all: split; [intros Hall; all_calls Hall; try done; naive_solver|].
    all: intros e Hex; invert_calls Hex.
    all: split; [done|].
    all: first [by exists [] | by eexists [_]].
  - intros s err s'. run_step; intros; simplify_eq/=.
    all: rewrite <-?app_assoc, ?drop_app_length, ?drop_all; simpl.
    all: split; [intros Hall; all_calls Hall; try done; naive_solver|].
    all: intros e Hex; invert_calls Hex.
    all: done.
Qed.

End FailureEvents.

Section Callbacks.
Context `{Resources}.
Variable r : Reconciler.

(** Both callbacks drop the reserved key of a snapshot that is there. *)
Lemma stripExample_lookup (c : ConfigMap) :
  ∃ c', stripExample (Some c) = Some c' ∧ cm_Name c' = cm_Name c ∧
        cm_Data c' !! "_example" = None ∧
        ∀ k, k ≠ "_example" → cm_Data c' !! k = cm_Data c !! k.
Proof.
  eexists. split; [done|]. simpl. split_and!; [done|apply lookup_delete_eq|].
  intros k Hk. by apply lookup_delete_ne.
Qed.

(** The logging callback on a snapshot that is there: the parser sees
    the stripped snapshot, and when it fails the reconciler is returned
    as it was. *)
Lemma UpdateFromLoggingConfigMap_parse_failure (c : ConfigMap) (err : error) :
  NewConfigFromConfigMap (stripExample (Some c)) = Returned (inr err) →
  UpdateFromLoggingConfigMap r (Some c) = Returned (r, stripExample (Some c)).
Proof. unfold UpdateFromLoggingConfigMap. simpl. by intros ->. Qed.

(** The metrics callback on a snapshot that is there parses nothing: it
    stores the stripped data. *)
Lemma UpdateFromMetricsConfigMap_some (c : ConfigMap) :
  UpdateFromMetricsConfigMap r (Some c) =
    Returned (set_metricsConfig r
                (Some {| eo_Domain := metrics_Domain; eo_Component := component;
                         eo_ConfigMap := base.delete "_example" (cm_Data c) |}),
              stripExample (Some c)).
Proof. reflexivity. Qed.

(** C10. The configuration callbacks on a nil snapshot.  The metrics
    callback guards the removal of [_example] against nil and then
    reads [cfg.Data] of the nil snapshot all the same: it panics
    instead of returning. *)
Theorem UpdateFromMetricsConfigMap_nil :
  UpdateFromMetricsConfigMap r None = Crashed "nil pointer dereference".
Proof. reflexivity. Qed.

(** On a nil snapshot the logging callback is no better off whenever
    its parser reports an error: the warning it logs reads [cfg.Name]. *)
Lemma UpdateFromLoggingConfigMap_nil (err : error) :
  NewConfigFromConfigMap None = Returned (inr err) →
  UpdateFromLoggingConfigMap r None = Crashed "nil pointer dereference".
Proof. unfold UpdateFromLoggingConfigMap. simpl. by intros ->. Qed.

End Callbacks.

Section Migration.
Context `{Resources}.
Variable r : Reconciler.

Lemma resource_success s uri s' :
  sinkResolver r (defaultedSink (source s)) (keyOf (source s)) = inl uri →
  scopeOf (source s) ≠ eventing.ScopeCluster →
  ReconcileKind r s = Done None s' →
  ∃ sa s2 rb s3 ra s4,
    reconcileServiceAccount r (resolvedState s uri) = Done (inl sa) s2 ∧
    reconcileRoleBinding r s2 = Done (inl rb) s3 ∧
    createReceiveAdapter r uri s3 = Done (inl ra) s4 ∧
    s' = {| world := world s4;
            source := set_Status (source s4)
              (set_CloudEventAttributes
                 (PropagateDeploymentAvailability ra (Status (source s4)))
                 [{| cea_Type := PingSourceEventType;
                     cea_Source := PingSourceSource (Namespace (meta (source s)))
                                     (Name (meta (source s))) |}]) |}.
Proof.
  intros Huri Hscope. rewrite (resource_branch _ _ _ Huri Hscope).
  unfold reconcileResourceScope.
  destruct (reconcileServiceAccount r (resolvedState s uri))
    as [[sa|e] s2|msg s2] eqn:HSA;
    [|by rewrite (bind2_Done _ _ _ _ _ _ HSA)
     |by rewrite (bind2_Panic _ _ _ _ _ _ HSA)].
  rewrite (bind2_Done _ _ _ _ _ _ HSA).
  destruct (reconcileRoleBinding r s2) as [[rb|e] s3|msg s3] eqn:HRB;
    [|by rewrite (bind2_Done _ _ _ _ _ _ HRB)
     |by rewrite (bind2_Panic _ _ _ _ _ _ HRB)].
  rewrite (bind2_Done _ _ _ _ _ _ HRB).
  destruct (createReceiveAdapter r uri s3) as [[ra|e] s4|msg s4] eqn:HD;
    [|by rewrite (bind2_Done _ _ _ _ _ _ HD)
     |by rewrite (bind2_Panic _ _ _ _ _ _ HD)].
  rewrite (bind2_Done _ _ _ _ _ _ HD). simpl. intros [= <-].
  by eexists _, _, _, _, _, _.
Qed.

(** The calls of the identity steps are calls on their own kind. *)
Lemma ownKind_reconcileServiceAccount :
  preserves (appendsActions (λ a, a_kind a = ServiceAccounts))
    (reconcileServiceAccount r).
Proof. unfold_steps. frame appends_leaf. Qed.

Lemma ownKind_reconcileRoleBinding :
  preserves (appendsActions (λ a, a_kind a = RoleBindings))
    (reconcileRoleBinding r).
Proof. unfold_steps. frame appends_leaf. Qed.

Lemma createReceiveAdapter_absent s uri ra s' :
  let src := source s in
  let ns := Namespace (meta src) in
  let expected := MakeReceiveAdapter (adapterArgs r src uri) in
  listerError r Deployments = None →
  lister (deployments (world s)) !! (ns, Name (d_meta expected)) = None →
  deprecatedNameOf src ≠ Name (d_meta expected) →
  createReceiveAdapter r uri s = Done (inl ra) s' →
  ra = expected ∧ source s' = src ∧
  ∃ e,
    actions (world s') =
      actions (world s) ++
      [ getAction Deployments ns (Name (d_meta expected)) (Some ErrNotFound);
        {| a_verb := delete; a_kind := Deployments; a_namespace := ns;
           a_name := deprecatedNameOf src; a_err := e |};
        {| a_verb := create; a_kind := Deployments; a_namespace := ns;
           a_name := Name (d_meta expected); a_err := None |} ] ∧
    ((e = None ∧
      store (deployments (world s')) =
        <[(ns, Name (d_meta expected)):=expected]>
          (base.delete (ns, deprecatedNameOf src) (store (deployments (world s))))) ∨
     (e = Some ErrNotFound ∧
      store (deployments (world s')) =
        <[(ns, Name (d_meta expected)):=expected]> (store (deployments (world s))))).
Proof.
  intros src ns expected He Hl Hne. subst src ns expected.
  apply String.eqb_neq in Hne.
  unfold createReceiveAdapter. unfold_calls. simpl. rewrite He, Hl. simpl.
  rewrite Hne. simpl.
  repeat (case_match; simplify_eq/=); intros; simplify_eq/=.
  all: repeat match goal with a : APIError |- _ => destruct a end; simplify_eq/=.
  all: split_and!; [done..|]; eexists; rewrite <-!app_assoc; simpl.
  all: split; [reflexivity|]; eauto.
Qed.

Lemma createReceiveAdapter_present s uri ra :
  listerError r Deployments = None →
  lister (deployments (world s))
    !! (Namespace (meta (source s)),
        Name (d_meta (MakeReceiveAdapter (adapterArgs r (source s) uri)))) = Some ra →
  appendsActions (λ a, a_verb a ≠ delete) s (final (createReceiveAdapter r uri s)).
Proof.
  intros He Hl. unfold createReceiveAdapter. unfold_calls. simpl.
  rewrite He, Hl. simpl.
  repeat (case_match; simplify_eq/=).
  all: first [ eexists [_]; split; [reflexivity|];
               by repeat (constructor; simpl; try done)
             | eexists [_; _]; split; [simpl; by rewrite <-!app_assoc|];
               by repeat (constructor; simpl; try done) ].
Qed.

(** How a property of runs goes through the per-source branch: the
    deployment step starts from the source as it was resolved and from
    the deployments the run started from. *)
Lemma resource_branch_rel (R : relation St) `{!Reflexive R, !Transitive R} s uri :
  sinkResolver r (defaultedSink (source s)) (keyOf (source s)) = inl uri →
  scopeOf (source s) ≠ eventing.ScopeCluster →
  R s (resolvedState s uri) →
  preserves R (reconcileServiceAccount r) →
  preserves R (reconcileRoleBinding r) →
  (∀ f, preserves R (modifyStatus f)) →
  (∀ s3, source s3 = resolvedSource (source s) uri →
         deployments (world s3) = deployments (world s) →
         R s3 (final (createReceiveAdapter r uri s3))) →
  R s (final (ReconcileKind r s)).
Proof.
  intros Huri Hscope Hs1 HSA HRB Hst HD.
  rewrite (resource_branch _ _ _ Huri Hscope).
  unfold reconcileResourceScope.
  specialize (HSA (resolvedState s uri)).
  destruct (reconcileServiceAccount r (resolvedState s uri))
    as [[sa|e] s2|msg s2] eqn:HSA'; simpl in HSA;
    [|rewrite (bind2_Done _ _ _ _ _ _ HSA'); simpl; by etrans
     |rewrite (bind2_Panic _ _ _ _ _ _ HSA'); simpl; by etrans].
  rewrite (bind2_Done _ _ _ _ _ _ HSA').
  apply reconcileServiceAccount_ok in HSA' as (Hsrc2&_&Hd2).
  specialize (HRB s2).
  destruct (reconcileRoleBinding r s2) as [[rb|e] s3|msg s3] eqn:HRB';
    simpl in HRB;
    [|rewrite (bind2_Done _ _ _ _ _ _ HRB'); simpl; by etrans; [|etrans]
     |rewrite (bind2_Panic _ _ _ _ _ _ HRB'); simpl; by etrans; [|etrans]].
  rewrite (bind2_Done _ _ _ _ _ _ HRB').
  apply reconcileRoleBinding_ok in HRB' as (Hsrc3&_&Hd3).
  assert (R s3 (final (createReceiveAdapter r uri s3))) as HD'.
  { apply HD; [by rewrite Hsrc3, Hsrc2|by rewrite Hd3, Hd2]. }
  assert (R s s3) as Hs3 by (by etrans; [|etrans]).
  destruct (createReceiveAdapter r uri s3) as [[ra|e] s4|msg s4] eqn:HD'';
    simpl in HD';
    [|rewrite (bind2_Done _ _ _ _ _ _ HD''); simpl; by etrans
     |rewrite (bind2_Panic _ _ _ _ _ _ HD''); simpl; by etrans].
  rewrite (bind2_Done _ _ _ _ _ _ HD'').
  etrans; [exact Hs3|]. etrans; [exact HD'|].
  apply (preserves_at _ (bind _ _)). unfold finishReconcile.
  repeat first
    [ apply preserves_ret; tc_solve
    | apply preserves_bind; [tc_solve| |intros ?]
    | case_match
    | apply Hst ].
Qed.

(** C4. The migration shim, for a source of the per-source scope whose
    sink resolves.  When the lister has no deployment under the current
    name and the deprecated scheme names it otherwise, a run that
    succeeds has made exactly three calls on deployments, in this
    order: the get that found nothing, the delete of the deprecated
    name, which either removed the old deployment or was answered
    not-found, and the create of the deployment under the current name;
    the store holds the new deployment and no longer the old one.  When
    the lister has the deployment under the current name, the run makes
    no delete call at all. *)
Theorem migration_shim (s : St) (uri : string) :
  let src := source s in
  let ns := Namespace (meta src) in
  let expected := MakeReceiveAdapter (adapterArgs r (resolvedSource src uri) uri) in
  let old := deprecatedNameOf src in
  sinkResolver r (defaultedSink src) (keyOf src) = inl uri →
  scopeOf src ≠ eventing.ScopeCluster →
  listerError r Deployments = None →
  (∀ s', lister (deployments (world s)) !! (ns, Name (d_meta expected)) = None →
         old ≠ Name (d_meta expected) →
         ReconcileKind r s = Done None s' →
         ∃ pre e,
           newActions (world s) (world s') =
             pre ++
             [ getAction Deployments ns (Name (d_meta expected)) (Some ErrNotFound);
               {| a_verb := delete; a_kind := Deployments; a_namespace := ns;
                  a_name := old; a_err := e |};
               {| a_verb := create; a_kind := Deployments; a_namespace := ns;
                  a_name := Name (d_meta expected); a_err := None |} ] ∧
           Forall (λ a, a_kind a ≠ Deployments) pre ∧
           ((e = None ∧
             store (deployments (world s')) =
               <[(ns, Name (d_meta expected)):=expected]>
                 (base.delete (ns, old) (store (deployments (world s))))) ∨
            (e = Some ErrNotFound ∧
             store (deployments (world s')) =
               <[(ns, Name (d_meta expected)):=expected]>
                 (store (deployments (world s)))))) ∧
  (∀ ra, lister (deployments (world s)) !! (ns, Name (d_meta expected)) = Some ra →
         Forall (λ a, a_verb a ≠ delete)
           (newActions (world s) (world (final (ReconcileKind r s))))).
Proof.
  intros src ns expected old Huri Hscope He. subst src ns old. split.
  - intros s' Hl Hne Hrun.
    destruct (resource_success _ _ _ Huri Hscope Hrun)
      as (sa&s2&rb&s3&ra&s4&HSA&HRB&HD&->). simpl.
    destruct (ownKind_reconcileServiceAccount (resolvedState s uri))
      as (lSA&HlSA&HkSA).
    destruct (ownKind_reconcileRoleBinding s2) as (lRB&HlRB&HkRB).
    rewrite HSA in HlSA. rewrite HRB in HlRB. simpl in HlSA, HlRB.
    apply reconcileServiceAccount_ok in HSA as (Hsrc2&_&Hd2).
    apply reconcileRoleBinding_ok in HRB as (Hsrc3&_&Hd3).
    assert (source s3 = resolvedSource (source s) uri) as Hsrc
      by (by rewrite Hsrc3, Hsrc2).
    assert (deployments (world s3) = deployments (world s)) as Hd
      by (by rewrite Hd3, Hd2).
    pose proof (createReceiveAdapter_absent s3 uri ra s4) as Habs. simpl in Habs.
    rewrite Hsrc, Hd in Habs.
    destruct (Habs He Hl Hne HD) as (_&_&e&Hact&Hstore).
    exists (lSA ++ lRB), e. split_and!; [|apply Forall_app; split|done].
    + apply newActions_app. by rewrite Hact, HlRB, HlSA, <-!app_assoc.
    + eapply Forall_impl; [exact HkSA|]. by intros ? ->.
    + eapply Forall_impl; [exact HkRB|]. by intros ? ->.
  - intros ra Hl. apply appendsActions_new.
    apply (resource_branch_rel _ s uri); [done..| | | | |].
    + exists []. by rewrite app_nil_r.
    + unfold_steps. frame appends_leaf.
    + unfold_steps. frame appends_leaf.
    + intros f. appends_leaf.
    + intros s3 Hsrc Hd. apply (createReceiveAdapter_present s3 uri ra He).
      by rewrite Hsrc, Hd.
Qed.

End Migration.

Section Derivative.
Import equality.

Lemma deriveString_refl s : deriveString s s = true.
Proof. destruct s; [done|]. apply String.eqb_refl. Qed.

Lemma deriveElems_refl {A} (f : A → A → bool) l :
  (∀ x, f x x = true) → deriveElems f l l = true.
Proof. intros Hf. induction l as [|x l IH]; simpl; [done|]. by rewrite Hf. Qed.

Lemma deriveSlice_refl {A} (f : A → A → bool) l :
  (∀ x, f x x = true) → deriveSlice f l l = true.
Proof.
  intros Hf. unfold deriveSlice. destruct l as [|x l]; [done|].
  rewrite Nat.ltb_irrefl. by apply deriveElems_refl.
Qed.

Lemma deriveMap_refl m : deriveMap m m = true.
Proof.
  unfold deriveMap. destruct (Nat.eqb (size m) 0); [done|].
  rewrite Nat.ltb_irrefl. apply forallb_forall. intros [k v] Hin.
  apply list_elem_of_In, elem_of_map_to_list in Hin. simpl. rewrite Hin.
  apply deriveString_refl.
Qed.

Lemma deriveEnvVar_refl e : deriveEnvVar e e = true.
Proof. unfold deriveEnvVar. by rewrite !deriveString_refl. Qed.

Lemma deriveContainer_refl c : deriveContainer c c = true.
Proof.
  unfold deriveContainer.
  rewrite !deriveString_refl, (deriveSlice_refl _ _ deriveString_refl),
    (deriveSlice_refl _ _ deriveEnvVar_refl), Bool.eqb_reflx. done.
Qed.

Lemma DeepDerivative_refl p : DeepDerivative p p = true.
Proof.
  unfold DeepDerivative.
  rewrite !deriveString_refl, (deriveSlice_refl _ _ deriveContainer_refl),
    deriveMap_refl, Bool.eqb_reflx.
  destruct (TerminationGracePeriodSeconds p); simpl; [|done].
  by rewrite Z.eqb_refl.
Qed.

End Derivative.

Section Idempotence.
Context `{Resources} `{!WellBuilt}.
Variable r : Reconciler.

Lemma reconcileServiceAccount_stored s sa s' :
  listerError r ServiceAccounts = None →
  lister (serviceAccounts (world s)) = store (serviceAccounts (world s)) →
  reconcileServiceAccount r s = Done (inl sa) s' →
  store (serviceAccounts (world s'))
    !! (Namespace (meta (source s)), saNameOf (source s)) = Some sa.
Proof.
  intros He Hc. unfold reconcileServiceAccount, saNameOf. unfold_calls. simpl.
  rewrite He, Hc.
  repeat (case_match; simplify_eq/=); intros; simplify_eq/=; [done|].
  rewrite serviceAccount_name. apply lookup_insert_eq.
Qed.

Lemma reconcileRoleBinding_stored s rb s' :
  listerError r RoleBindings = None →
  lister (roleBindings (world s)) = store (roleBindings (world s)) →
  reconcileRoleBinding r s = Done (inl rb) s' →
  store (roleBindings (world s'))
    !! (Namespace (meta (source s)), saNameOf (source s)) = Some rb.
Proof.
  intros He Hc. unfold reconcileRoleBinding, saNameOf. unfold_calls. simpl.
  rewrite He, Hc.
  repeat (case_match; simplify_eq/=); intros; simplify_eq/=; [done|].
  rewrite roleBinding_name. apply lookup_insert_eq.
Qed.

Lemma createReceiveAdapter_ok s uri ra s' :
  createReceiveAdapter r uri s = Done (inl ra) s' →
  source s' = source s ∧
  serviceAccounts (world s') = serviceAccounts (world s) ∧
  roleBindings (world s') = roleBindings (world s).
Proof.
  unfold createReceiveAdapter. unfold_calls. simpl.
  repeat (case_match; simplify_eq/=); intros; by simplify_eq/=.
Qed.

Lemma createReceiveAdapter_stored s uri ra s' :
  let expected := MakeReceiveAdapter (adapterArgs r (source s) uri) in
  listerError r Deployments = None →
  lister (deployments (world s)) = store (deployments (world s)) →
  wellKeyed (world s) →
  createReceiveAdapter r uri s = Done (inl ra) s' →
  store (deployments (world s'))
    !! (Namespace (meta (source s)), Name (d_meta expected)) = Some ra ∧
  IsControlledBy (d_meta ra) (meta (source s)) = true ∧
  equality.DeepDerivative (d_PodSpec expected) (d_PodSpec ra) = true.
Proof.
  intros expected He Hc Hk. subst expected.
  unfold createReceiveAdapter. unfold_calls. simpl. rewrite He, Hc.
  repeat (case_match; simplify_eq/=); intros; simplify_eq/=.
  - match goal with Hd : _ !! (_, Name (d_meta (MakeReceiveAdapter _))) = Some ?d
      |- _ => rewrite (Hk _ _ _ Hd) end.
    rewrite lookup_insert_eq, DeepDerivative_refl.
    match goal with Hn : negb (IsControlledBy _ _) = false |- _ =>
      by apply negb_false_iff in Hn end.
  - split_and!; [done|by apply negb_false_iff|].
    unfold podSpecChanged in *. by apply negb_false_iff.
  - rewrite lookup_insert_eq, DeepDerivative_refl.
    by rewrite (adapter_controlled (adapterArgs r (source s) uri)).
  - rewrite lookup_insert_eq, DeepDerivative_refl.
    by rewrite (adapter_controlled (adapterArgs r (source s) uri)).
  - rewrite lookup_insert_eq, DeepDerivative_refl.
    by rewrite (adapter_controlled (adapterArgs r (source s) uri)).
  - rewrite lookup_insert_eq, DeepDerivative_refl.
    by rewrite (adapter_controlled (adapterArgs r (source s) uri)).
Qed.

Lemma reconcileMTReceiveAdapter_ok s d s' :
  reconcileMTReceiveAdapter r s = Done (inl d) s' →
  source s' = source s ∧
  serviceAccounts (world s') = serviceAccounts (world s) ∧
  roleBindings (world s') = roleBindings (world s) ∧
  tracked (world s') = tracked (world s).
Proof.
  unfold reconcileMTReceiveAdapter. unfold_calls. simpl.
  repeat (case_match; simplify_eq/=); intros; by simplify_eq/=.
Qed.

Lemma reconcileMTReceiveAdapter_stored s d s' :
  let expected := MakeMTReceiveAdapter (mtArgs r) in
  listerError r Deployments = None →
  lister (deployments (world s)) = store (deployments (world s)) →
  wellKeyed (world s) →
  reconcileMTReceiveAdapter r s = Done (inl d) s' →
  store (deployments (world s')) !! (system_Namespace, mtadapterName) = Some d ∧
  equality.DeepDerivative (d_PodSpec expected) (d_PodSpec d) = true.
Proof.
  intros expected He Hc Hk. subst expected.
  unfold reconcileMTReceiveAdapter. unfold_calls. simpl. rewrite He, Hc.
  repeat (case_match; simplify_eq/=); intros; simplify_eq/=.
  - match goal with Hd : _ !! (_, mtadapterName) = Some ?d
      |- _ => rewrite (Hk _ _ _ Hd) end.
    by rewrite lookup_insert_eq, DeepDerivative_refl.
  - split; [done|]. unfold podSpecChanged in *. by apply negb_false_iff.
  - rewrite (mtAdapter_name (mtArgs r)). simpl.
    by rewrite lookup_insert_eq, DeepDerivative_refl.
Qed.

Lemma createReceiveAdapter_current s uri ra :
  let expected := MakeReceiveAdapter (adapterArgs r (source s) uri) in
  listerError r Deployments = None →
  lister (deployments (world s))
    !! (Namespace (meta (source s)), Name (d_meta expected)) = Some ra →
  IsControlledBy (d_meta ra) (meta (source s)) = true →
  equality.DeepDerivative (d_PodSpec expected) (d_PodSpec ra) = true →
  createReceiveAdapter r uri s =
    Done (inl ra)
      {| world := add_action (getAction Deployments (Namespace (meta (source s)))
                                (Name (d_meta expected)) None) (world s);
         source := source s |}.
Proof.
  intros expected He Hl Hown HD. unfold createReceiveAdapter. unfold_calls.
  simpl. fold expected. rewrite He, Hl. simpl. rewrite Hown. simpl.
  by rewrite (podSpecChanged_derivative _ _ HD).
Qed.

Lemma reconcileMTReceiveAdapter_current s d :
  listerError r Deployments = None →
  lister (deployments (world s)) !! (system_Namespace, mtadapterName) = Some d →
  equality.DeepDerivative (d_PodSpec (MakeMTReceiveAdapter (mtArgs r)))
    (d_PodSpec d) = true →
  reconcileMTReceiveAdapter r s =
    Done (inl d)
      {| world := add_action (getAction Deployments system_Namespace
                                mtadapterName None) (world s);
         source := source s |}.
Proof.
  intros He Hl HD. unfold reconcileMTReceiveAdapter. unfold_calls. simpl.
  rewrite He, Hl. simpl. by rewrite (podSpecChanged_derivative _ _ HD).
Qed.

Lemma cluster_branch s uri :
  sinkResolver r (defaultedSink (source s)) (keyOf (source s)) = inl uri →
  scopeOf (source s) = eventing.ScopeCluster →
  ReconcileKind r s =
    (failed <- reconcileClusterScope r;;
     finishReconcile (resolvedSource (source s) uri) failed) (resolvedState s uri).
Proof.
  intros Huri Hscope. rewrite ReconcileKind_unfold, Huri. unfold reconcileScope.
  change (scopeOf (resolvedSource (source s) uri)) with (scopeOf (source s)).
  by apply String.eqb_eq in Hscope as ->.
Qed.

Lemma cluster_success s uri s' :
  sinkResolver r (defaultedSink (source s)) (keyOf (source s)) = inl uri →
  scopeOf (source s) = eventing.ScopeCluster →
  ReconcileKind r s = Done None s' →
  ∃ d s2,
    reconcileMTReceiveAdapter r (resolvedState s uri) = Done (inl d) s2 ∧
    tracker r (deploymentRef d) = None ∧
    s' = {| world := add_tracked (deploymentRef d, keyOf (source s2)) (world s2);
            source := succeeded (source s) d s2 |}.
Proof.
  intros Huri Hscope. rewrite (cluster_branch _ _ Huri Hscope).
  unfold reconcileClusterScope.
  destruct (reconcileMTReceiveAdapter r (resolvedState s uri))
    as [[d|e] s2|msg s2] eqn:HMT;
    [|by rewrite (bind2_Done _ _ _ _ _ _ HMT)
     |by rewrite (bind2_Panic _ _ _ _ _ _ HMT)].
  rewrite (bind2_Done _ _ _ _ _ _ HMT).
  unfold TrackReference. unfold_calls. simpl. fold (deploymentRef d).
  destruct (tracker r (deploymentRef d)) eqn:Ht; simpl; [done|].
  intros [= <-]. by eexists _, _.
Qed.

Lemma second_run_cluster s uri d :
  sinkResolver r (defaultedSink (source s)) (keyOf (source s)) = inl uri →
  scopeOf (source s) = eventing.ScopeCluster →
  listerError r Deployments = None →
  lister (deployments (world s)) !! (system_Namespace, mtadapterName) = Some d →
  equality.DeepDerivative (d_PodSpec (MakeMTReceiveAdapter (mtArgs r)))
    (d_PodSpec d) = true →
  tracker r (deploymentRef d) = None →
  ∃ s', ReconcileKind r s = Done None s' ∧
        actions (world s') =
          actions (world s) ++
          [getAction Deployments system_Namespace mtadapterName None] ∧
        ∀ k, storeOf k s' = storeOf k s.
Proof.
  intros Huri Hscope He Hl HD Ht. rewrite (cluster_branch _ _ Huri Hscope).
  unfold reconcileClusterScope.
  rewrite (bind2_Done _ _ _ _ _ _
             (reconcileMTReceiveAdapter_current (resolvedState s uri) d He Hl HD)).
  unfold TrackReference. unfold_calls. simpl. fold (deploymentRef d).
  rewrite Ht. simpl. eexists. split_and!; [reflexivity|done|by intros []].
Qed.

Lemma second_run_resource s uri sa rb ra :
  let src := source s in
  let ns := Namespace (meta src) in
  let expected := MakeReceiveAdapter (adapterArgs r (resolvedSource src uri) uri) in
  sinkResolver r (defaultedSink src) (keyOf src) = inl uri →
  scopeOf src ≠ eventing.ScopeCluster →
  faithfulListers r →
  lister (serviceAccounts (world s)) !! (ns, saNameOf src) = Some sa →
  lister (roleBindings (world s)) !! (ns, saNameOf src) = Some rb →
  lister (deployments (world s)) !! (ns, Name (d_meta expected)) = Some ra →
  IsControlledBy (d_meta ra) (meta src) = true →
  equality.DeepDerivative (d_PodSpec expected) (d_PodSpec ra) = true →
  ∃ s', ReconcileKind r s = Done None s' ∧
        actions (world s') =
          actions (world s) ++
          [getAction ServiceAccounts ns (saNameOf src) None;
           getAction RoleBindings ns (saNameOf src) None;
           getAction Deployments ns (Name (d_meta expected)) None] ∧
        ∀ k, storeOf k s' = storeOf k s.
Proof.
  intros src ns expected Huri Hscope He Hsa Hrb Hra Hown HD. subst src ns.
  rewrite (resource_branch _ _ _ Huri Hscope). unfold reconcileResourceScope.
  set (s1 := resolvedState s uri).
  set (s2 := {| world := add_action (getAction ServiceAccounts
                    (Namespace (meta (source s1))) (saNameOf (source s1)) None)
                  (world s1);
                source := source s1 |}).
  set (s3 := {| world := add_action (getAction RoleBindings
                    (Namespace (meta (source s2))) (saNameOf (source s2)) None)
                  (world s2);
                source := source s2 |}).
  rewrite (bind2_Done _ _ _ _ _ _
             (reconcileServiceAccount_hit r s1 sa (He ServiceAccounts) Hsa)).
  fold s2. cbn iota.
  rewrite (bind2_Done _ _ _ _ _ _
             (reconcileRoleBinding_hit r s2 rb (He RoleBindings) Hrb)).
  fold s3. cbn iota.
  rewrite (bind2_Done _ _ _ _ _ _
             (createReceiveAdapter_current s3 uri ra (He Deployments) Hra Hown HD)).
  simpl. eexists. split_and!; [reflexivity| |by intros []].
  simpl. by rewrite <-!app_assoc.
Qed.

Lemma adapterArgs_intent src st uri :
  MakeReceiveAdapter (adapterArgs r (set_Status src st) uri) =
  MakeReceiveAdapter (adapterArgs r src uri).
Proof. unfold adapterArgs. simpl. apply adapter_intent. Qed.

(** C2. Idempotence.  Let a run succeed from a world whose listers
    agree with the stores, and let the listers catch up with what it
    wrote.  Then a second run on the source as the first one left it
    succeeds too and all its calls are gets that find their object: it
    makes no create, update or delete call, and the stores are the ones
    the first run left. *)
Theorem reconcile_idempotent (s s' : St) :
  faithfulListers r → consistent (world s) → wellKeyed (world s) →
  ReconcileKind r s = Done None s' →
  ∃ s'', ReconcileKind r {| world := sync (world s'); source := source s' |}
           = Done None s'' ∧
         Forall (λ a, a_verb a = get ∧ a_err a = None)
           (newActions (sync (world s')) (world s'')) ∧
         ∀ k, storeOf k s'' = storeOf k s'.
Proof.
  intros He (Hcsa&Hcrb&Hcd) Hk Hrun.
  destruct (sinkResolver r (defaultedSink (source s)) (keyOf (source s)))
    as [uri|e] eqn:Huri;
    [|by rewrite ReconcileKind_unfold, Huri in Hrun].
  destruct (decide (scopeOf (source s) = eventing.ScopeCluster)) as [Hscope|Hscope].
  - destruct (cluster_success _ _ _ Huri Hscope Hrun) as (d&s2&HMT&Ht&->).
    destruct (reconcileMTReceiveAdapter_stored (resolvedState s uri) d s2
                (He Deployments) Hcd Hk HMT) as (Hst&HD).
    apply reconcileMTReceiveAdapter_ok in HMT as (Hsrc&_&_&_).
    set (s'' := {| world := sync (add_tracked (deploymentRef d, keyOf (source s2))
                                    (world s2));
                   source := succeeded (source s) d s2 |}).
    destruct (second_run_cluster s'' uri d) as (s3&Hrun2&Hact&Hstores).
    + subst s''. simpl. unfold succeeded. simpl.
      change (defaultedSink (set_Status (source s2) _))
        with (defaultedSink (source s2)).
      change (keyOf (set_Status (source s2) _)) with (keyOf (source s2)).
      by rewrite Hsrc.
    + subst s''. simpl. unfold succeeded.
      change (scopeOf (set_Status (source s2) _)) with (scopeOf (source s2)).
      by rewrite Hsrc.
    + apply He.
    + done.
    + done.
    + done.
    + exists s3. split_and!; [done| |done].
      change (Forall (λ a, a_verb a = get ∧ a_err a = None)
                (newActions (world s'') (world s3))).
      rewrite (newActions_app _ _ _ Hact). by repeat constructor.
  - destruct (resource_success r _ _ _ Huri Hscope Hrun)
      as (sa&s2&rb&s3&ra&s4&HSA&HRB&HD&->).
    pose proof (reconcileServiceAccount_stored (resolvedState s uri) sa s2
                  (He ServiceAccounts) Hcsa HSA) as Hsa.
    apply reconcileServiceAccount_ok in HSA as (Hsrc2&Hrb2&Hd2).
    assert (lister (roleBindings (world s2)) = store (roleBindings (world s2)))
      as Hcrb2 by (by rewrite Hrb2).
    pose proof (reconcileRoleBinding_stored s2 rb s3
                  (He RoleBindings) Hcrb2 HRB) as Hrb.
    apply reconcileRoleBinding_ok in HRB as (Hsrc3&Hsa3&Hd3).
    assert (lister (deployments (world s3)) = store (deployments (world s3)))
      as Hcd3 by (by rewrite Hd3, Hd2).
    assert (wellKeyed (world s3)) as Hk3.
    { unfold wellKeyed. by rewrite Hd3, Hd2. }
    destruct (createReceiveAdapter_stored s3 uri ra s4
                (He Deployments) Hcd3 Hk3 HD) as (Hra&Hown&HDD).
    apply createReceiveAdapter_ok in HD as (Hsrc4&Hsa4&Hrb4).
    assert (source s3 = resolvedSource (source s) uri) as Hsrc
      by (by rewrite Hsrc3, Hsrc2).
    rewrite Hsrc in Hra, Hown, HDD. rewrite Hsrc2 in Hrb.
    simpl in Hsa, Hrb, Hra, Hown.
    unfold resolvedSource in Hra, HDD. rewrite adapterArgs_intent in Hra, HDD.
    match goal with |- context [ReconcileKind r ?x] => set (s'' := x) end.
    assert (∃ st, source s'' = set_Status (source s) st) as [st Hst].
    { subst s''. simpl. rewrite Hsrc4, Hsrc. by eexists. }
    destruct (second_run_resource s'' uri sa rb ra) as (s5&Hrun2&Hact&Hstores).
    + by rewrite Hst.
    + by rewrite Hst.
    + done.
    + rewrite Hst. subst s''. simpl. by rewrite Hsa4, Hsa3.
    + rewrite Hst. subst s''. simpl. by rewrite Hrb4.
    + rewrite Hst. unfold resolvedSource. by rewrite !adapterArgs_intent.
    + by rewrite Hst.
    + rewrite Hst. unfold resolvedSource. by rewrite !adapterArgs_intent.
    + exists s5. split_and!; [done| |done].
      change (Forall (λ a, a_verb a = get ∧ a_err a = None)
                (newActions (world s'') (world s5))).
      rewrite (newActions_app _ _ _ Hact). by repeat constructor.
Qed.

End Idempotence.

(** ** Beyond the claims: what else the code guarantees *)

(** Leaves of the frames below: each closes the goal for one call. *)
Ltac attrs_leaf :=
  intros ?; unfold keepsOn, attributesOf, PropagateDeploymentAvailability;
  unfold_calls; simpl; repeat case_match; simpl; done.

Ltac tracked_leaf :=
  intros ?; unfold keepsOn, trackedOf; unfold_calls; simpl;
  repeat case_match; simpl; done.

Ltac confined_leaf :=
  intros ? ?; unfold_calls; simpl; repeat case_match; simpl;
  (split; [done|]);
  first [ exists []; split; [by rewrite app_nil_r|by constructor]
        | eexists [_]; split; [reflexivity|];
          repeat constructor; simpl; (done || congruence) ].

Ltac announces_leaf :=
  intros ?;
  lazymatch goal with
  | |- announces ?a ?b =>
      exists (newActions (world a) (world b)), (newEvents (world a) (world b))
  end;
  unfold_steps; unfold_calls; unfold newActions, newEvents; simpl;
  repeat (case_match; simplify_eq/=);
  rewrite <-?app_assoc, ?drop_app_length, ?drop_all, ?app_nil_r; simpl;
  (split_and!; [done|done|lia]).

Ltac callsOn_leaf :=
  intros ?;
  lazymatch goal with
  | |- callsOn _ _ ?a ?b => exists (newActions (world a) (world b))
  end;
  unfold_steps; unfold_calls; unfold newActions; simpl;
  repeat (case_match; simplify_eq/=);
  rewrite <-?app_assoc, ?drop_app_length, ?drop_all, ?app_nil_r; simpl;
  (split_and!; [done|by repeat constructor|lia]).

Section Outcome.
Context `{Resources}.
Variable r : Reconciler.

Lemma reconcileScope_run src uri s1 :
  reconcileScope r src uri s1 =
    match (if String.eqb (scopeOf src) eventing.ScopeCluster
           then reconcileClusterScope r
           else reconcileResourceScope r uri) s1 with
    | Done failed s2 => finishReconcile src failed s2
    | Panic msg s2 => Panic msg s2
    end.
Proof. reflexivity. Qed.

Lemma keepsAttributes_branch uri (b : bool) :
  preserves (keepsOn attributesOf)
    (if b then reconcileClusterScope r else reconcileResourceScope r uri).
Proof. destruct b; unfold_steps; frame attrs_leaf. Qed.

(** X1. The event types the source emits.  A run that succeeds leaves
    exactly one descriptor on the status, built from the namespace and
    the name of the source, whatever was there before.  A run that
    returns an error, or panics, leaves the descriptors it found. *)
Theorem cloud_event_attributes (s : St) :
  (∀ s', ReconcileKind r s = Done None s' →
     CloudEventAttributes (Status (source s')) =
       [{| cea_Type := PingSourceEventType;
           cea_Source := PingSourceSource (Namespace (meta (source s)))
                                          (Name (meta (source s))) |}]) ∧
  (∀ err s', ReconcileKind r s = Done (Some err) s' →
     CloudEventAttributes (Status (source s')) =
       CloudEventAttributes (Status (source s))) ∧
  (∀ msg s', ReconcileKind r s = Panic msg s' →
     CloudEventAttributes (Status (source s')) =
       CloudEventAttributes (Status (source s))).
Proof.
  rewrite ReconcileKind_unfold.
  destruct (sinkResolver r _ _) as [uri|e].
  2:{ split_and!; intros; by simplify_eq/=. }
  rewrite reconcileScope_run.
  pose proof (keepsAttributes_branch uri
                (String.eqb (scopeOf (resolvedSource (source s) uri))
                   eventing.ScopeCluster) (resolvedState s uri)) as Hk.
  match type of Hk with keepsOn _ _ (final ?x) =>
    destruct x as [[err|] s2|msg s2] end;
    unfold keepsOn, attributesOf in Hk; simpl in Hk;
    unfold finishReconcile; unfold_calls; simpl;
    split_and!; intros; by simplify_eq/=.
Qed.

End Outcome.

Section Confinement.
Context `{Resources}.
Variable r : Reconciler.

#[export] Instance confinedTo_refl m P : Reflexive (confinedTo m P).
Proof. intros s Hm. split; [done|]. exists []. by rewrite app_nil_r. Qed.

#[export] Instance confinedTo_trans m P : Transitive (confinedTo m P).
Proof.
  intros s1 s2 s3 H1 H2 Hm.
  destruct (H1 Hm) as [Hm2 (l1&Hl1&?)]. destruct (H2 Hm2) as [Hm3 (l2&Hl2&?)].
  split; [done|]. exists (l1 ++ l2).
  rewrite Hl2, Hl1, (assoc_L (++)). split; [done|]. by apply Forall_app.
Qed.

Lemma confinedTo_getSource {A} m P (f : PingSource → M A) :
  (∀ src, meta src = m → preserves (confinedTo m P) (f src)) →
  preserves (confinedTo m P) (bind getSource f).
Proof. intros Hf s Hm. unfold bind, getSource. by apply (Hf (source s) Hm s). Qed.

Ltac confined :=
  repeat first
    [ apply preserves_ret; tc_solve
    | apply confinedTo_getSource; intros ? ?
    | apply preserves_bind; [tc_solve| |intros ?]
    | progress cbv zeta
    | case_match
    | confined_leaf ].

Lemma confined_cluster m src :
  preserves (confinedTo m (λ a, a_kind a = Deployments ∧
                                a_namespace a = system_Namespace))
    (failed <- reconcileClusterScope r;; finishReconcile src failed).
Proof. unfold_steps. confined. Qed.

Lemma confined_resource m src uri :
  preserves (confinedTo m (λ a, a_namespace a = Namespace m))
    (failed <- reconcileResourceScope r uri;; finishReconcile src failed).
Proof. unfold_steps. confined. Qed.

Lemma confinedTo_new m P s s' :
  meta (source s) = m → confinedTo m P s s' →
  Forall P (newActions (world s) (world s')).
Proof.
  intros Hm Hc. destruct (Hc Hm) as [_ (l&Hl&?)].
  by rewrite (newActions_app _ _ _ Hl).
Qed.

(** X2. Where a run makes its calls.  A source of the cluster scope
    only makes calls on deployments of the system namespace; a source
    of any other scope only makes calls in its own namespace. *)
Theorem calls_confined (s : St) :
  let s' := final (ReconcileKind r s) in
  (scopeOf (source s) = eventing.ScopeCluster →
     Forall (λ a, a_kind a = Deployments ∧ a_namespace a = system_Namespace)
       (newActions (world s) (world s'))) ∧
  (scopeOf (source s) ≠ eventing.ScopeCluster →
     Forall (λ a, a_namespace a = Namespace (meta (source s)))
       (newActions (world s) (world s'))).
Proof.
  intros s'. subst s'. rewrite ReconcileKind_unfold.
  destruct (sinkResolver r _ _) as [uri|e].
  2:{ unfold newActions. simpl. rewrite drop_all. by split. }
  unfold reconcileScope.
  change (scopeOf (resolvedSource (source s) uri)) with (scopeOf (source s)).
  split; intros Hscope.
  - apply String.eqb_eq in Hscope as ->.
    by apply (confinedTo_new (meta (source s)) _ (resolvedState s uri)),
      confined_cluster.
  - apply String.eqb_neq in Hscope as ->.
    by apply (confinedTo_new (meta (source s)) _ (resolvedState s uri)),
      confined_resource.
Qed.

Lemma keepsTracked_resource src uri :
  preserves (keepsOn trackedOf)
    (failed <- reconcileResourceScope r uri;; finishReconcile src failed).
Proof. unfold_steps. frame tracked_leaf. Qed.

Lemma keepsTracked_MT :
  preserves (keepsOn trackedOf) (reconcileMTReceiveAdapter r).
Proof. unfold_steps. frame tracked_leaf. Qed.

(** X3. The tracker.  A source that is not of the cluster scope never
    reaches the tracker.  For a source of the cluster scope, a run that
    succeeds has registered exactly one reference, to the deployment
    the shared-adapter step returned, for this source; a run that
    returns an error has registered none. *)
Theorem tracker_registration (s : St) (uri : string) :
  sinkResolver r (defaultedSink (source s)) (keyOf (source s)) = inl uri →
  (scopeOf (source s) ≠ eventing.ScopeCluster →
     tracked (world (final (ReconcileKind r s))) = tracked (world s)) ∧
  (scopeOf (source s) = eventing.ScopeCluster →
     (∀ s', ReconcileKind r s = Done None s' →
        ∃ d s2, reconcileMTReceiveAdapter r (resolvedState s uri) = Done (inl d) s2 ∧
                tracker r (deploymentRef d) = None ∧
                tracked (world s') =
                  tracked (world s) ++ [(deploymentRef d, keyOf (source s))]) ∧
     (∀ err s', ReconcileKind r s = Done (Some err) s' →
        tracked (world s') = tracked (world s))).
Proof.
  intros Huri. split.
  - intros Hscope. rewrite (resource_branch _ _ _ Huri Hscope).
    apply (keepsTracked_resource _ uri (resolvedState s uri)).
  - intros Hscope. split.
    + intros s' Hrun.
      destruct (cluster_success _ _ _ _ Huri Hscope Hrun) as (d&s2&HMT&Ht&->).
      exists d, s2. split_and!; [done..|]. simpl.
      pose proof (keepsTracked_MT (resolvedState s uri)) as Hk.
      rewrite HMT in Hk. unfold keepsOn, trackedOf in Hk. simpl in Hk.
      rewrite Hk.
      by apply reconcileMTReceiveAdapter_ok in HMT as (->&_).
    + intros err s'. rewrite (cluster_branch _ _ _ Huri Hscope).
      unfold reconcileClusterScope.
      pose proof (keepsTracked_MT (resolvedState s uri)) as Hk.
      destruct (reconcileMTReceiveAdapter r (resolvedState s uri))
        as [[d|e] s2|msg s2] eqn:HMT; unfold keepsOn, trackedOf in Hk;
        simpl in Hk.
      * rewrite (bind2_Done _ _ _ _ _ _ HMT).
        unfold TrackReference, finishReconcile. unfold_calls. simpl.
        destruct (tracker r _); simpl; intros; by simplify_eq/=.
      * rewrite (bind2_Done _ _ _ _ _ _ HMT).
        unfold finishReconcile. unfold_calls. simpl. intros; by simplify_eq/=.
      * by rewrite (bind2_Panic _ _ _ _ _ _ HMT).
Qed.

Lemma destructive_cluster m src :
  preserves (confinedTo m (λ a, a_verb a ≠ delete))
    (failed <- reconcileClusterScope r;; finishReconcile src failed).
Proof. unfold_steps. confined. Qed.

Lemma destructive_resource m src uri :
  preserves
    (confinedTo m
       (λ a, (a_verb a = delete →
                a_kind a = Deployments ∧ a_namespace a = Namespace m ∧
                a_name a = GenerateFixedName m ("pingsource-" +:+ Name m)) ∧
             (a_verb a = update → a_kind a = Deployments)))
    (failed <- reconcileResourceScope r uri;; finishReconcile src failed).
Proof. unfold_steps. unfold deprecatedNameOf. confined. Qed.

(** X18. What a run deletes and updates.  The only object a run ever
    deletes is the deployment of the deprecated name of the source, in
    the namespace of the source; service accounts and role bindings
    are only read and created, never updated.  A run for a source of the
    cluster scope deletes nothing. *)
Theorem destructive_calls (s : St) :
  let src := source s in
  let s' := final (ReconcileKind r s) in
  (scopeOf src ≠ eventing.ScopeCluster →
     Forall (λ a, (a_verb a = delete →
                     a_kind a = Deployments ∧
                     a_namespace a = Namespace (meta src) ∧
                     a_name a = deprecatedNameOf src) ∧
                  (a_verb a = update → a_kind a = Deployments))
       (newActions (world s) (world s'))) ∧
  (scopeOf src = eventing.ScopeCluster →
     Forall (λ a, a_verb a ≠ delete) (newActions (world s) (world s'))).
Proof.
  intros src s'. subst src s'. rewrite ReconcileKind_unfold.
  destruct (sinkResolver r _ _) as [uri|e].
  2:{ unfold newActions. simpl. rewrite drop_all. by split. }
  unfold reconcileScope.
  change (scopeOf (resolvedSource (source s) uri)) with (scopeOf (source s)).
  split; intros Hscope.
  - apply String.eqb_neq in Hscope as ->.
    by apply (confinedTo_new (meta (source s)) _ (resolvedState s uri)),
      destructive_resource.
  - apply String.eqb_eq in Hscope as ->.
    by apply (confinedTo_new (meta (source s)) _ (resolvedState s uri)),
      destructive_cluster.
Qed.

End Confinement.

Section ShortCircuit.
Context `{Resources}.
Variable r : Reconciler.

(** X4. The per-source steps run in order and stop at the first
    failure.  When the run returns the error of the service-account
    step, every call it made was on a service account and the role
    bindings and deployments in the store are untouched; when it
    returns the error of the role-binding step, it made no call on a
    deployment and the deployments in the store are untouched. *)
Theorem steps_short_circuit (s : St) (uri : string) :
  sinkResolver r (defaultedSink (source s)) (keyOf (source s)) = inl uri →
  scopeOf (source s) ≠ eventing.ScopeCluster →
  (∀ e s', ReconcileKind r s =
             Done (Some (Errorf "creating receive adapter service account: %v"
                           [AError e])) s' →
     Forall (λ a, a_kind a = ServiceAccounts) (newActions (world s) (world s')) ∧
     storeOf RoleBindings s' = storeOf RoleBindings s ∧
     storeOf Deployments s' = storeOf Deployments s) ∧
  (∀ e s', ReconcileKind r s =
             Done (Some (Errorf "creating receive adapter role binding: %v"
                           [AError e])) s' →
     Forall (λ a, a_kind a ≠ Deployments) (newActions (world s) (world s')) ∧
     storeOf Deployments s' = storeOf Deployments s).
Proof.
  intros Huri Hscope. rewrite (resource_branch _ _ _ Huri Hscope).
  unfold reconcileResourceScope.
  set (s1 := resolvedState s uri).
  destruct (ownKind_reconcileServiceAccount r s1) as (lSA&HlSA&HkSA).
  pose proof (noWritesOn_reconcileServiceAccount r RoleBindings ltac:(done) s1)
    as [HrbSA _].
  pose proof (noWritesOn_reconcileServiceAccount r Deployments ltac:(done) s1)
    as [HdSA _].
  destruct (reconcileServiceAccount r s1) as [[sa|e0] s2|msg s2] eqn:HSA;
    simpl in HlSA, HrbSA, HdSA.
  2:{ rewrite (bind2_Done _ _ _ _ _ _ HSA).
      unfold finishReconcile. unfold_calls. simpl.
      split; intros e s'; [|discriminate]. intros [= <- <-].
      split_and!; [|done..]. by rewrite (newActions_app (world s) _ lSA). }
  2:{ rewrite (bind2_Panic _ _ _ _ _ _ HSA). by split. }
  rewrite (bind2_Done _ _ _ _ _ _ HSA).
  destruct (ownKind_reconcileRoleBinding r s2) as (lRB&HlRB&HkRB).
  pose proof (noWritesOn_reconcileRoleBinding r Deployments ltac:(done) s2)
    as [HdRB _].
  destruct (reconcileRoleBinding r s2) as [[rb|e0] s3|msg s3] eqn:HRB;
    simpl in HlRB, HdRB.
  2:{ rewrite (bind2_Done _ _ _ _ _ _ HRB).
      unfold finishReconcile. unfold_calls. simpl.
      split; intros e s'; [discriminate|]. intros [= <- <-].
      split; [|by rewrite HdRB].
      rewrite (newActions_app (world s) _ (lSA ++ lRB)).
      - apply Forall_app. split; (eapply Forall_impl; [eassumption|]);
          by intros ? ->.
      - by rewrite HlRB, HlSA, <-app_assoc. }
  2:{ rewrite (bind2_Panic _ _ _ _ _ _ HRB). by split. }
  rewrite (bind2_Done _ _ _ _ _ _ HRB).
  destruct (createReceiveAdapter r uri s3) as [[ra|e0] s4|msg s4] eqn:HD.
  - rewrite (bind2_Done _ _ _ _ _ _ HD).
    unfold finishReconcile. unfold_calls. simpl. by split.
  - rewrite (bind2_Done _ _ _ _ _ _ HD).
    unfold finishReconcile. unfold_calls. simpl. split; intros; discriminate.
  - rewrite (bind2_Panic _ _ _ _ _ _ HD). by split.
Qed.

End ShortCircuit.

Section Convergence.
Context `{Resources} `{!WellBuilt}.
Variable r : Reconciler.

(** X5. What a run that succeeds leaves behind, from listers that
    agree with the stores.  For a source of the per-source scope the
    store holds its service account and its role binding under the
    name of the source's objects, and its adapter deployment under the
    name of the desired one, controlled by the source and without
    drift from the desired pod spec.  For a source of the cluster scope
    the store holds the shared adapter, without drift. *)
Theorem success_converges (s s' : St) (uri : string) :
  let src := source s in
  let ns := Namespace (meta src) in
  let expected := MakeReceiveAdapter (adapterArgs r (resolvedSource src uri) uri) in
  faithfulListers r → consistent (world s) → wellKeyed (world s) →
  sinkResolver r (defaultedSink src) (keyOf src) = inl uri →
  ReconcileKind r s = Done None s' →
  (scopeOf src ≠ eventing.ScopeCluster →
     is_Some (store (serviceAccounts (world s')) !! (ns, saNameOf src)) ∧
     is_Some (store (roleBindings (world s')) !! (ns, saNameOf src)) ∧
     ∃ ra, store (deployments (world s')) !! (ns, Name (d_meta expected)) = Some ra ∧
           IsControlledBy (d_meta ra) (meta src) = true ∧
           podSpecChanged (d_PodSpec ra) (d_PodSpec expected) = false) ∧
  (scopeOf src = eventing.ScopeCluster →
     ∃ d, store (deployments (world s')) !! (system_Namespace, mtadapterName) = Some d ∧
          podSpecChanged (d_PodSpec d)
            (d_PodSpec (MakeMTReceiveAdapter (mtArgs r))) = false).
Proof.
  intros src ns expected He (Hcsa&Hcrb&Hcd) Hk Huri Hrun. subst src ns expected.
  split; intros Hscope.
  - destruct (resource_success r _ _ _ Huri Hscope Hrun)
      as (sa&s2&rb&s3&ra&s4&HSA&HRB&HD&->).
    pose proof (reconcileServiceAccount_stored r (resolvedState s uri) sa s2
                  (He ServiceAccounts) Hcsa HSA) as Hsa.
    apply reconcileServiceAccount_ok in HSA as (Hsrc2&Hrb2&Hd2).
    assert (lister (roleBindings (world s2)) = store (roleBindings (world s2)))
      as Hcrb2 by (by rewrite Hrb2).
    pose proof (reconcileRoleBinding_stored r s2 rb s3
                  (He RoleBindings) Hcrb2 HRB) as Hrb.
    apply reconcileRoleBinding_ok in HRB as (Hsrc3&Hsa3&Hd3).
    assert (lister (deployments (world s3)) = store (deployments (world s3)))
      as Hcd3 by (by rewrite Hd3, Hd2).
    assert (wellKeyed (world s3)) as Hk3.
    { unfold wellKeyed. by rewrite Hd3, Hd2. }
    destruct (createReceiveAdapter_stored r s3 uri ra s4
                (He Deployments) Hcd3 Hk3 HD) as (Hra&Hown&HDD).
    apply createReceiveAdapter_ok in HD as (Hsrc4&Hsa4&Hrb4).
    rewrite Hsrc3, Hsrc2 in Hra, Hown, HDD. rewrite Hsrc2 in Hrb.
    simpl in Hsa, Hrb, Hra, Hown |- *.
    split_and!.
    + rewrite Hsa4, Hsa3. by eexists.
    + rewrite Hrb4. by eexists.
    + exists ra. split_and!; [done..|]. by apply podSpecChanged_derivative.
  - destruct (cluster_success r _ _ _ Huri Hscope Hrun) as (d&s2&HMT&Ht&->).
    destruct (reconcileMTReceiveAdapter_stored r (resolvedState s uri) d s2
                (He Deployments) Hcd Hk HMT) as (Hst&HD).
    exists d. split; [done|]. by apply podSpecChanged_derivative.
Qed.

End Convergence.

Section Updates.
Context `{Resources}.
Variable r : Reconciler.

(** X6. An update overwrites the pod spec and nothing else.  When the
    lister finds the adapter of the source, controlled by it and
    drifted, and the update goes through, the step makes the get and
    the update, emits the update event, and stores under the name of
    the live deployment the live deployment with the desired pod spec:
    its metadata and its status are kept, and it no longer drifts. *)
Theorem update_overwrites_pod_spec (s : St) (uri : string) (ra old : Deployment) :
  let src := source s in
  let ns := Namespace (meta src) in
  let expected := MakeReceiveAdapter (adapterArgs r src uri) in
  let updated := set_PodSpec ra (d_PodSpec expected) in
  listerError r Deployments = None →
  lister (deployments (world s)) !! (ns, Name (d_meta expected)) = Some ra →
  IsControlledBy (d_meta ra) (meta src) = true →
  podSpecChanged (d_PodSpec ra) (d_PodSpec expected) = true →
  kubeClientSet r update Deployments = None →
  store (deployments (world s)) !! (ns, Name (d_meta ra)) = Some old →
  ∃ s', createReceiveAdapter r uri s = Done (inl updated) s' ∧
        source s' = src ∧
        store (deployments (world s')) =
          <[(ns, Name (d_meta ra)):=updated]> (store (deployments (world s))) ∧
        newActions (world s) (world s') =
          [ getAction Deployments ns (Name (d_meta expected)) None;
            {| a_verb := update; a_kind := Deployments; a_namespace := ns;
               a_name := Name (d_meta ra); a_err := None |} ] ∧
        newEvents (world s) (world s') =
          [ {| e_object := keyOf src; e_type := EventTypeNormal;
               e_reason := pingSourceDeploymentUpdated;
               e_format := "Deployment %q updated";
               e_args := [AString (Name (d_meta ra))] |} ] ∧
        d_meta updated = d_meta ra ∧ d_Conditions updated = d_Conditions ra ∧
        IsControlledBy (d_meta updated) (meta src) = true ∧
        podSpecChanged (d_PodSpec updated) (d_PodSpec expected) = false.
Proof.
  intros src ns expected updated He Hl Hown Hdrift Hu Hst.
  subst src ns updated. unfold createReceiveAdapter. unfold_calls. simpl.
  fold expected. rewrite He, Hl. simpl. rewrite Hown, Hdrift. simpl.
  rewrite Hu, Hst. simpl. eexists. split; [reflexivity|]. simpl.
  unfold newActions, newEvents. simpl.
  rewrite <-!app_assoc, !drop_app_length.
  split_and!; try done.
  unfold podSpecChanged. by rewrite DeepDerivative_refl.
Qed.

(** X7. A failed update still changes the informer cache.  The step
    assigns the desired pod spec to the deployment the lister returned
    before it calls the clientset, so when the update fails the store
    keeps the live deployment while the cache holds the one with the
    desired pod spec.  Run again on that state, before the cache is
    refreshed, the step finds no drift and returns after the get
    alone. *)
Theorem failed_update_taints_cache (s : St) (uri : string) (ra : Deployment)
    (e : APIError) :
  let src := source s in
  let ns := Namespace (meta src) in
  let expected := MakeReceiveAdapter (adapterArgs r src uri) in
  let assigned := set_PodSpec ra (d_PodSpec expected) in
  listerError r Deployments = None →
  lister (deployments (world s)) !! (ns, Name (d_meta expected)) = Some ra →
  IsControlledBy (d_meta ra) (meta src) = true →
  podSpecChanged (d_PodSpec ra) (d_PodSpec expected) = true →
  kubeClientSet r update Deployments = Some e →
  ∃ s', createReceiveAdapter r uri s = Done (inr (StatusError e)) s' ∧
        source s' = src ∧
        store (deployments (world s')) = store (deployments (world s)) ∧
        lister (deployments (world s')) !! (ns, Name (d_meta expected))
          = Some assigned ∧
        createReceiveAdapter r uri s' =
          Done (inl assigned)
            {| world := add_action (getAction Deployments ns
                                      (Name (d_meta expected)) None) (world s');
               source := src |}.
Proof.
  intros src ns expected assigned He Hl Hown Hdrift Hu.
  subst src ns assigned.
  assert (createReceiveAdapter r uri s =
          Done (inr (StatusError e))
            {| world := add_action
                 {| a_verb := update; a_kind := Deployments;
                    a_namespace := Namespace (meta (source s));
                    a_name := Name (d_meta ra); a_err := Some e |}
                 (set_deployments
                    {| store := store (deployments (world s));
                       lister := <[(Namespace (meta (source s)),
                                    Name (d_meta expected)):=
                                   set_PodSpec ra (d_PodSpec expected)]>
                                   (lister (deployments (world s))) |}
                    (add_action (getAction Deployments
                                   (Namespace (meta (source s)))
                                   (Name (d_meta expected)) None) (world s)));
               source := source s |}) as Hrun.
  { unfold createReceiveAdapter. unfold_calls. simpl.
    fold expected. rewrite He, Hl. simpl. rewrite Hown, Hdrift. simpl.
    by rewrite Hu. }
  eexists. split; [exact Hrun|]. simpl.
  split_and!; [done|done|apply lookup_insert_eq|].
  match goal with |- createReceiveAdapter r uri ?x = _ =>
    pose proof (createReceiveAdapter_current r x uri
                  (set_PodSpec ra (d_PodSpec expected))) as Hc end.
  simpl in Hc. apply Hc; [done|apply lookup_insert_eq|done|].
  apply DeepDerivative_refl.
Qed.

End Updates.

Section Panics.
Context `{Resources}.
Variable r : Reconciler.

Lemma reconcileServiceAccount_panics s msg s' :
  reconcileServiceAccount r s = Panic msg s' →
  msg = "assignment to entry in nil map" ∧
  StatusAnnotations (Status (source s)) = None ∧
  listerFailed r ServiceAccounts.
Proof.
  unfold reconcileServiceAccount, listerFailed. unfold_calls. simpl.
  destruct (listerError r ServiceAccounts) as [[]|] eqn:He; simpl;
    repeat (case_match; simplify_eq/=); intros; simplify_eq/=;
    (split_and!; [done..|]); eexists; (split; [reflexivity|done]).
Qed.

Lemma reconcileRoleBinding_panics s msg s' :
  reconcileRoleBinding r s = Panic msg s' →
  msg = "assignment to entry in nil map" ∧
  StatusAnnotations (Status (source s)) = None ∧
  listerFailed r RoleBindings.
Proof.
  unfold reconcileRoleBinding, listerFailed. unfold_calls. simpl.
  destruct (listerError r RoleBindings) as [[]|] eqn:He; simpl;
    repeat (case_match; simplify_eq/=); intros; simplify_eq/=;
    (split_and!; [done..|]); eexists; (split; [reflexivity|done]).
Qed.

Lemma createReceiveAdapter_returns uri s :
  ∃ res s', createReceiveAdapter r uri s = Done res s'.
Proof.
  unfold createReceiveAdapter. unfold_calls. simpl.
  repeat (case_match; simplify_eq/=); by eexists _, _.
Qed.

Lemma reconcileMTReceiveAdapter_returns s :
  ∃ res s', reconcileMTReceiveAdapter r s = Done res s'.
Proof.
  unfold reconcileMTReceiveAdapter. unfold_calls. simpl.
  repeat (case_match; simplify_eq/=); by eexists _, _.
Qed.

(** X8. When a run panics.  The only panic of the reconciler is the
    assignment to the annotations of the status after a failed get of
    the service account or of the role binding: a run that panics was
    for a source that is not of the cluster scope and whose status has
    no annotations map, with one of the two listers failing, and it
    has made no call on a deployment.  Conversely such a source makes
    the run panic right after the get, as soon as the lister of the
    service accounts fails. *)
Theorem panic_on_nil_annotations (s : St) :
  (∀ msg s', ReconcileKind r s = Panic msg s' →
     msg = "assignment to entry in nil map" ∧
     StatusAnnotations (Status (source s)) = None ∧
     scopeOf (source s) ≠ eventing.ScopeCluster ∧
     (listerFailed r ServiceAccounts ∨ listerFailed r RoleBindings) ∧
     Forall (λ a, a_kind a ≠ Deployments) (newActions (world s) (world s'))) ∧
  (∀ uri e,
     sinkResolver r (defaultedSink (source s)) (keyOf (source s)) = inl uri →
     scopeOf (source s) ≠ eventing.ScopeCluster →
     StatusAnnotations (Status (source s)) = None →
     listerError r ServiceAccounts = Some e → e ≠ ErrNotFound →
     ∃ s', ReconcileKind r s = Panic "assignment to entry in nil map" s' ∧
           newActions (world s) (world s') =
             [getAction ServiceAccounts (Namespace (meta (source s)))
                (saNameOf (source s)) (Some e)] ∧
           source s' = resolvedSource (source s) uri).
Proof.
  split.
  - intros msg s'. rewrite ReconcileKind_unfold.
    destruct (sinkResolver r _ _) as [uri|e] eqn:Huri; [|done].
    unfold reconcileScope.
    change (scopeOf (resolvedSource (source s) uri)) with (scopeOf (source s)).
    destruct (String.eqb (scopeOf (source s)) eventing.ScopeCluster) eqn:Hscope.
    { unfold reconcileClusterScope, finishReconcile, TrackReference.
      destruct (reconcileMTReceiveAdapter_returns (resolvedState s uri))
        as (res&s2&HMT).
      rewrite (bind2_Done _ _ _ _ _ _ HMT). unfold_calls. simpl.
      repeat (case_match; simplify_eq/=); done. }
    apply String.eqb_neq in Hscope.
    unfold reconcileResourceScope. set (s1 := resolvedState s uri).
    destruct (ownKind_reconcileServiceAccount r s1) as (lSA&HlSA&HkSA).
    destruct (reconcileServiceAccount r s1) as [[sa|e0] s2|msg2 s2] eqn:HSA;
      simpl in HlSA.
    3:{ rewrite (bind2_Panic _ _ _ _ _ _ HSA). intros [= <- <-].
        apply reconcileServiceAccount_panics in HSA as (->&Ha&Hf).
        split_and!; [done|done|done|by left|].
        rewrite (newActions_app (world s) _ lSA HlSA).
        eapply Forall_impl; [eassumption|]. by intros ? ->. }
    2:{ rewrite (bind2_Done _ _ _ _ _ _ HSA).
        unfold finishReconcile. unfold_calls. by simpl. }
    rewrite (bind2_Done _ _ _ _ _ _ HSA).
    destruct (ownKind_reconcileRoleBinding r s2) as (lRB&HlRB&HkRB).
    destruct (reconcileRoleBinding r s2) as [[rb|e0] s3|msg3 s3] eqn:HRB;
      simpl in HlRB.
    3:{ rewrite (bind2_Panic _ _ _ _ _ _ HRB). intros [= <- <-].
        apply reconcileRoleBinding_panics in HRB as (->&Ha&Hf).
        apply reconcileServiceAccount_ok in HSA as (Hsrc&_).
        rewrite Hsrc in Ha.
        split_and!; [done|done|done|by right|].
        rewrite (newActions_app (world s) _ (lSA ++ lRB)).
        - apply Forall_app. split; (eapply Forall_impl; [eassumption|]);
            by intros ? ->.
        - by rewrite HlRB, HlSA, <-app_assoc. }
    2:{ rewrite (bind2_Done _ _ _ _ _ _ HRB).
        unfold finishReconcile. unfold_calls. by simpl. }
    rewrite (bind2_Done _ _ _ _ _ _ HRB).
    destruct (createReceiveAdapter_returns uri s3) as (res&s4&HD).
    rewrite (bind2_Done _ _ _ _ _ _ HD).
    unfold finishReconcile. unfold_calls. simpl.
    repeat (case_match; simplify_eq/=); done.
  - intros uri e Huri Hscope Ha He Hne.
    rewrite (resource_branch _ _ _ Huri Hscope).
    unfold reconcileResourceScope, reconcileServiceAccount, saNameOf.
    unfold_calls. simpl. rewrite He. simpl.
    destruct e; try done; simpl; rewrite Ha; eexists;
      (split_and!; [reflexivity| |done]);
      unfold newActions; simpl; by rewrite drop_app_length.
Qed.

End Panics.

Section Edges.
Context `{Resources}.
Variable r : Reconciler.

(** X9. The edges of the removal of the deployment of the deprecated
    name.  When the deprecated name is the name of the desired
    deployment, the step that finds no deployment makes no delete
    call and emits no removal event: it goes from the get to the
    create.  When the names differ and the delete fails with anything
    but not-found, the step returns the wrapped error after the get and
    the delete: it attempts no create, emits no event and leaves the
    store and the source as they were. *)
Theorem deprecated_delete_edges (s : St) (uri : string) :
  let src := source s in
  let ns := Namespace (meta src) in
  let expected := MakeReceiveAdapter (adapterArgs r src uri) in
  listerError r Deployments = None →
  lister (deployments (world s)) !! (ns, Name (d_meta expected)) = None →
  (deprecatedNameOf src = Name (d_meta expected) →
     ∃ e, newActions (world s) (world (final (createReceiveAdapter r uri s))) =
            [ getAction Deployments ns (Name (d_meta expected)) (Some ErrNotFound);
              {| a_verb := create; a_kind := Deployments; a_namespace := ns;
                 a_name := Name (d_meta expected); a_err := e |} ] ∧
          Forall (λ ev, e_reason ev = pingSourceDeploymentCreated)
            (newEvents (world s) (world (final (createReceiveAdapter r uri s))))) ∧
  (∀ e, deprecatedNameOf src ≠ Name (d_meta expected) →
     kubeClientSet r delete Deployments = Some e → e ≠ ErrNotFound →
     ∃ s', createReceiveAdapter r uri s =
             Done (inr (Errorf "error deleting deprecated named deployment: %v"
                          [AError (StatusError e)])) s' ∧
           newActions (world s) (world s') =
             [ getAction Deployments ns (Name (d_meta expected)) (Some ErrNotFound);
               {| a_verb := delete; a_kind := Deployments; a_namespace := ns;
                  a_name := deprecatedNameOf src; a_err := Some e |} ] ∧
           newEvents (world s) (world s') = [] ∧
           store (deployments (world s')) = store (deployments (world s)) ∧
           source s' = src).
Proof.
  intros src ns expected He Hl. subst src ns. split.
  - intros Hsame. apply String.eqb_eq in Hsame.
    unfold createReceiveAdapter. unfold_calls. simpl. fold expected.
    rewrite He, Hl. simpl. rewrite Hsame. simpl.
    unfold newActions, newEvents.
    repeat (case_match; simplify_eq/=);
      rewrite <-?app_assoc, !drop_app_length; simpl;
      (eexists; split; [reflexivity|]); by repeat constructor.
  - intros e Hdiff Hd Hne. apply String.eqb_neq in Hdiff.
    unfold createReceiveAdapter. unfold_calls. simpl. fold expected.
    rewrite He, Hl. simpl. rewrite Hdiff. simpl. rewrite Hd. simpl.
    destruct e; try done; simpl; eexists; (split; [reflexivity|]); simpl;
      unfold newActions, newEvents; simpl;
      rewrite <-?app_assoc, !drop_app_length, ?drop_all; done.
Qed.

(** X10. A create that meets an object the cache has not seen yet.
    When the lister finds nothing under the name but the store already
    holds an object there, the create is refused with already-exists
    and the step returns that as its error: the code has no branch
    that takes the existing object.  The store keeps the object it
    had, and the two identity steps emit no event. *)
Theorem stale_cache_create_conflicts (s : St) :
  let src := source s in
  let ns := Namespace (meta src) in
  (∀ old,
     let expected := MakeServiceAccount (meta src) (saNameOf src) in
     listerError r ServiceAccounts = None →
     lister (serviceAccounts (world s)) !! (ns, saNameOf src) = None →
     kubeClientSet r create ServiceAccounts = None →
     store (serviceAccounts (world s)) !! (ns, Name (sa_meta expected)) = Some old →
     ∃ s', reconcileServiceAccount r s =
             Done (inr (newServiceAccountWarn (StatusError ErrAlreadyExists))) s' ∧
           store (serviceAccounts (world s')) = store (serviceAccounts (world s)) ∧
           newEvents (world s) (world s') = [] ∧ source s' = src) ∧
  (∀ old,
     let expected := MakeRoleBinding src (saNameOf src) stadapterClusterRoleName in
     listerError r RoleBindings = None →
     lister (roleBindings (world s)) !! (ns, saNameOf src) = None →
     kubeClientSet r create RoleBindings = None →
     store (roleBindings (world s)) !! (ns, Name (rb_meta expected)) = Some old →
     ∃ s', reconcileRoleBinding r s =
             Done (inr (newRoleBindingWarn (StatusError ErrAlreadyExists))) s' ∧
           store (roleBindings (world s')) = store (roleBindings (world s)) ∧
           newEvents (world s) (world s') = [] ∧ source s' = src) ∧
  (∀ old,
     let expected := MakeMTReceiveAdapter (mtArgs r) in
     listerError r Deployments = None →
     lister (deployments (world s)) !! (system_Namespace, mtadapterName) = None →
     kubeClientSet r create Deployments = None →
     store (deployments (world s)) !! (system_Namespace, Name (d_meta expected))
       = Some old →
     ∃ s', reconcileMTReceiveAdapter r s =
             Done (inr (StatusError ErrAlreadyExists)) s' ∧
           store (deployments (world s')) = store (deployments (world s)) ∧
           newEvents (world s) (world s') =
             [mtCreateFailedEvent src ErrAlreadyExists] ∧ source s' = src).
Proof.
  intros src ns. subst src ns. split_and!.
  - intros old expected He Hl Hc Hst. subst expected.
    unfold reconcileServiceAccount, saNameOf in *. unfold_calls. simpl.
    rewrite He, Hl. simpl. rewrite Hc, Hst. simpl.
    eexists. split; [reflexivity|]. simpl. unfold newEvents.
    by rewrite drop_all.
  - intros old expected He Hl Hc Hst. subst expected.
    unfold reconcileRoleBinding, saNameOf in *. unfold_calls. simpl.
    rewrite He, Hl. simpl. rewrite Hc, Hst. simpl.
    eexists. split; [reflexivity|]. simpl. unfold newEvents.
    by rewrite drop_all.
  - intros old expected He Hl Hc Hst. subst expected.
    unfold reconcileMTReceiveAdapter in *. unfold_calls. simpl.
    rewrite He, Hl. simpl. rewrite Hc, Hst. simpl.
    eexists. split; [reflexivity|]. simpl. unfold newEvents. simpl.
    by rewrite drop_app_length.
Qed.

End Edges.

Section Announcements.
Context `{Resources}.
Variable r : Reconciler.

#[export] Instance announces_refl : Reflexive announces.
Proof. intros s. exists [], []. by rewrite !app_nil_r. Qed.

#[export] Instance announces_trans : Transitive announces.
Proof.
  intros s1 s2 s3 (la1&le1&Ha1&He1&?) (la2&le2&Ha2&He2&?).
  exists (la1 ++ la2), (le1 ++ le2).
  rewrite Ha2, Ha1, He2, He1, !(assoc_L (++)). split_and!; [done..|].
  rewrite List.filter_app, !List.length_app. lia.
Qed.

Lemma announces_reconcileServiceAccount :
  preserves announces (reconcileServiceAccount r).
Proof. announces_leaf. Qed.

Lemma announces_reconcileRoleBinding :
  preserves announces (reconcileRoleBinding r).
Proof. announces_leaf. Qed.

Lemma announces_createReceiveAdapter uri :
  preserves announces (createReceiveAdapter r uri).
Proof. announces_leaf. Qed.

Lemma announces_reconcileMTReceiveAdapter :
  preserves announces (reconcileMTReceiveAdapter r).
Proof. announces_leaf. Qed.

Lemma announces_reconcileScope src uri :
  preserves announces (reconcileScope r src uri).
Proof.
  unfold reconcileScope, finishReconcile, reconcileClusterScope,
    reconcileResourceScope, TrackReference.
  repeat first
    [ apply announces_reconcileServiceAccount
    | apply announces_reconcileRoleBinding
    | apply announces_createReceiveAdapter
    | apply announces_reconcileMTReceiveAdapter
    | apply preserves_ret; tc_solve
    | apply preserves_bind; [tc_solve| |intros ?]
    | case_match
    | announces_leaf ].
Qed.

(** X11. Events follow writes.  A run emits no more events than it
    makes create, update and delete calls, whether the calls went
    through or not: a run that only reads emits no event. *)
Theorem events_follow_writes (s : St) :
  let s' := final (ReconcileKind r s) in
  (List.length (newEvents (world s) (world s'))
     ≤ List.length (List.filter isWrite (newActions (world s) (world s'))))%nat ∧
  (Forall (λ a, a_verb a = get) (newActions (world s) (world s')) →
   newEvents (world s) (world s') = []).
Proof.
  intros s'.
  assert (announces s s') as (la&le&Ha&He&Hle).
  { subst s'. rewrite ReconcileKind_unfold.
    destruct (sinkResolver r _ _) as [uri|e].
    - trans (resolvedState s uri); [|apply announces_reconcileScope].
      exists [], []. by rewrite !app_nil_r.
    - exists [], []. by rewrite !app_nil_r. }
  rewrite (newActions_app _ _ _ Ha).
  unfold newEvents. rewrite He, drop_app_length.
  split; [done|]. intros Hg.
  assert (List.filter isWrite la = []) as Hf.
  { clear -Hg. induction Hg as [|a l Ha _ IH]; [done|].
    simpl. unfold isWrite at 1. by rewrite Ha. }
  rewrite Hf in Hle. by destruct le; [|simpl in Hle; lia].
Qed.

End Announcements.

Section Agreement.

Lemma deriveString_agrees s1 s2 :
  equality.deriveString s1 s2 = true → s1 = "" ∨ s2 = s1.
Proof.
  destruct s1 as [|a s1]; [by left|]. simpl. intros Heq. right.
  symmetry. by apply String.eqb_eq.
Qed.

Lemma deriveElems_lookup {A} (f : A → A → bool) l1 l2 i x1 :
  equality.deriveElems f l1 l2 = true → l1 !! i = Some x1 →
  ∃ x2, l2 !! i = Some x2 ∧ f x1 x2 = true.
Proof.
  revert l2 i. induction l1 as [|y1 l1 IH]; intros [|y2 l2] i; simpl; try done.
  intros [Hf Hr]%andb_true_iff. destruct i as [|i]; simpl.
  - intros [= <-]. by exists y2.
  - by apply IH.
Qed.

Lemma deriveSlice_lookup {A} (f : A → A → bool) l1 l2 i x1 :
  equality.deriveSlice f l1 l2 = true → l1 !! i = Some x1 →
  ∃ x2, l2 !! i = Some x2 ∧ f x1 x2 = true.
Proof.
  unfold equality.deriveSlice. destruct l1 as [|y1 l1]; [done|].
  destruct (Nat.ltb _ _); [done|]. apply deriveElems_lookup.
Qed.

(** X13. What the absence of drift guarantees.  A pod spec never drifts
    from itself.  And when the drift check finds no drift of a live pod
    spec from the desired one, the live one agrees with the desired one
    wherever the desired one is set: it has a container for each of the
    desired ones, at the same position, with the desired name and image
    and, position by position, the desired environment variables; it
    has the desired service account; and the same host-network flag. *)
Theorem drift_check_sound (L D : PodSpec) :
  podSpecChanged D D = false ∧
  (podSpecChanged L D = false →
     (ServiceAccountName D = "" ∨ ServiceAccountName L = ServiceAccountName D) ∧
     HostNetwork L = HostNetwork D ∧
     ∀ i cD, Containers D !! i = Some cD →
       ∃ cL, Containers L !! i = Some cL ∧
             (c_Name cD = "" ∨ c_Name cL = c_Name cD) ∧
             (c_Image cD = "" ∨ c_Image cL = c_Image cD) ∧
             ∀ j eD, c_Env cD !! j = Some eD →
               ∃ eL, c_Env cL !! j = Some eL ∧
                     (ev_Name eD = "" ∨ ev_Name eL = ev_Name eD) ∧
                     (ev_Value eD = "" ∨ ev_Value eL = ev_Value eD)).
Proof.
  split.
  - unfold podSpecChanged. by rewrite DeepDerivative_refl.
  - unfold podSpecChanged. intros HD%negb_false_iff.
    unfold equality.DeepDerivative in HD.
    repeat match type of HD with
           | _ && _ = true => apply andb_true_iff in HD as [HD ?]
           end.
    split_and!.
    + by apply deriveString_agrees.
    + symmetry. by apply Bool.eqb_prop.
    + intros i cD Hi.
      destruct (deriveSlice_lookup _ _ _ _ _ HD Hi) as (cL&HcL&Hc).
      exists cL. split; [done|].
      unfold equality.deriveContainer in Hc.
      repeat match type of Hc with
             | _ && _ = true => apply andb_true_iff in Hc as [Hc ?]
             end.
      split_and!; [by apply deriveString_agrees..|].
      intros j eD Hj.
      match goal with
      | He : equality.deriveSlice equality.deriveEnvVar _ _ = true |- _ =>
          destruct (deriveSlice_lookup _ _ _ _ _ He Hj) as (eL&HeL&He')
      end.
      exists eL. split; [done|].
      apply andb_true_iff in He' as [??].
      split; by apply deriveString_agrees.
Qed.

End Agreement.

Section CallbackAlgebra.
Context `{Resources}.
Variable r : Reconciler.

Lemma stripExample_idemp cfg : stripExample (stripExample cfg) = stripExample cfg.
Proof.
  destruct cfg as [c|]; [|done]. simpl. f_equal. f_equal.
  apply map_eq. intros k. destruct (decide (k = "_example")) as [->|].
  - by rewrite !lookup_delete_eq.
  - by rewrite !lookup_delete_ne.
Qed.

(** X14. The configuration callbacks are independent and can be
    delivered again.  A callback that returns has changed nothing of the
    reconciler but its own configuration, and hands back the snapshot
    without the reserved key.  Delivered again with the snapshot it
    handed back, it returns the same reconciler and the same snapshot.
    The two callbacks commute. *)
Theorem callbacks_independent (lcfg mcfg : option ConfigMap) :
  (∀ r1 c1, UpdateFromLoggingConfigMap r lcfg = Returned (r1, c1) →
     r1 = set_loggingConfig r (loggingConfig r1) ∧ c1 = stripExample lcfg ∧
     UpdateFromLoggingConfigMap r1 c1 = Returned (r1, c1)) ∧
  (∀ r2 c2, UpdateFromMetricsConfigMap r mcfg = Returned (r2, c2) →
     r2 = set_metricsConfig r (metricsConfig r2) ∧ c2 = stripExample mcfg ∧
     UpdateFromMetricsConfigMap r2 c2 = Returned (r2, c2)) ∧
  (∀ r1 c1 r2 c2,
     UpdateFromLoggingConfigMap r lcfg = Returned (r1, c1) →
     UpdateFromMetricsConfigMap r mcfg = Returned (r2, c2) →
     ∃ r', UpdateFromMetricsConfigMap r1 mcfg = Returned (r', c2) ∧
           UpdateFromLoggingConfigMap r2 lcfg = Returned (r', c1)).
Proof.
  split_and!.
  - intros r1 c1. unfold UpdateFromLoggingConfigMap.
    destruct (NewConfigFromConfigMap (stripExample lcfg)) as [[lc|e]|msg] eqn:Hp;
      [| |done].
    + intros [= <- <-]. rewrite stripExample_idemp, Hp. by destruct r.
    + destruct (stripExample lcfg) as [c|] eqn:Hs; [|done].
      assert (stripExample (Some c) = Some c) as Hc
        by (rewrite <-Hs; apply stripExample_idemp).
      intros [= <- <-]. rewrite Hc, Hp. by destruct r.
  - intros r2 c2. unfold UpdateFromMetricsConfigMap.
    destruct (stripExample mcfg) as [c|] eqn:Hs; [|done].
    assert (stripExample (Some c) = Some c) as Hc
      by (rewrite <-Hs; apply stripExample_idemp).
    intros [= <- <-]. rewrite Hc. by destruct r.
  - intros r1 c1 r2 c2. unfold UpdateFromLoggingConfigMap, UpdateFromMetricsConfigMap.
    destruct (NewConfigFromConfigMap (stripExample lcfg)) as [[lc|e]|msg] eqn:Hp;
      [| |done];
      destruct (stripExample mcfg) as [c|] eqn:Hs; try done.
    + intros [= <- <-] [= <- <-]. eexists. split; reflexivity.
    + destruct (stripExample lcfg); [|done].
      intros [= <- <-] [= <- <-]. eexists. split; reflexivity.
Qed.

End CallbackAlgebra.

Section SharedUpdate.
Context `{Resources}.
Variable r : Reconciler.

(** X15. The update of the shared adapter.  The step has no ownership
    check: whatever deployment the lister finds under the name of the
    shared adapter, if its pod spec drifts and the update goes through
    the step stores it with the desired pod spec, its metadata and its
    status kept, after the get and the update, and emits the update
    event.  When the update fails the store keeps what it had, no
    event is emitted, and the cache holds the deployment with the
    desired pod spec all the same. *)
Theorem shared_update (s : St) (d old : Deployment) :
  let expected := MakeMTReceiveAdapter (mtArgs r) in
  let updated := set_PodSpec d (d_PodSpec expected) in
  listerError r Deployments = None →
  lister (deployments (world s)) !! (system_Namespace, mtadapterName) = Some d →
  podSpecChanged (d_PodSpec d) (d_PodSpec expected) = true →
  (kubeClientSet r update Deployments = None →
   store (deployments (world s)) !! (system_Namespace, Name (d_meta d)) = Some old →
   ∃ s', reconcileMTReceiveAdapter r s = Done (inl updated) s' ∧
         source s' = source s ∧
         store (deployments (world s')) =
           <[(system_Namespace, Name (d_meta d)):=updated]>
             (store (deployments (world s))) ∧
         newActions (world s) (world s') =
           [ getAction Deployments system_Namespace mtadapterName None;
             {| a_verb := update; a_kind := Deployments;
                a_namespace := system_Namespace;
                a_name := Name (d_meta d); a_err := None |} ] ∧
         newEvents (world s) (world s') =
           [ {| e_object := keyOf (source s); e_type := EventTypeNormal;
                e_reason := pingSourceDeploymentUpdated;
                e_format := "Cluster-scoped deployment updated";
                e_args := [] |} ] ∧
         d_meta updated = d_meta d ∧ d_Conditions updated = d_Conditions d ∧
         podSpecChanged (d_PodSpec updated) (d_PodSpec expected) = false) ∧
  (∀ e, kubeClientSet r update Deployments = Some e →
   ∃ s', reconcileMTReceiveAdapter r s = Done (inr (StatusError e)) s' ∧
         source s' = source s ∧
         store (deployments (world s')) = store (deployments (world s)) ∧
         newEvents (world s) (world s') = [] ∧
         lister (deployments (world s')) !! (system_Namespace, mtadapterName)
           = Some updated).
Proof.
  intros expected updated He Hl Hdrift. subst updated. split.
  - intros Hu Hst.
    unfold reconcileMTReceiveAdapter. unfold_calls. simpl. fold expected.
    rewrite He, Hl. simpl. rewrite Hdrift. simpl. rewrite Hu, Hst. simpl.
    eexists. split; [reflexivity|]. simpl.
    unfold newActions, newEvents. simpl.
    rewrite <-!app_assoc, !drop_app_length.
    split_and!; try done.
    unfold podSpecChanged. by rewrite DeepDerivative_refl.
  - intros e Hu.
    unfold reconcileMTReceiveAdapter. unfold_calls. simpl. fold expected.
    rewrite He, Hl. simpl. rewrite Hdrift. simpl. rewrite Hu. simpl.
    eexists. split; [reflexivity|]. simpl.
    unfold newEvents. simpl. rewrite drop_all.
    split_and!; try done. apply lookup_insert_eq.
Qed.

End SharedUpdate.

Section StatusOnSuccess.
Context `{Resources} `{!WellBuilt}.
Variable r : Reconciler.

(** X16. The status after a run that succeeds, from listers that agree
    with the stores.  The source keeps its metadata and its spec, and
    its status is the one it had with the sink and the schedule marked,
    the availability of the adapter propagated and the event types
    set; the adapter whose availability is propagated is the one the
    store holds at the end: the shared adapter for the cluster scope,
    the adapter of the source otherwise. *)
Theorem status_on_success (s s' : St) (uri : string) :
  let src := source s in
  let expected := MakeReceiveAdapter (adapterArgs r (resolvedSource src uri) uri) in
  let at_ := if String.eqb (scopeOf src) eventing.ScopeCluster
             then (system_Namespace, mtadapterName)
             else (Namespace (meta src), Name (d_meta expected)) in
  faithfulListers r → consistent (world s) → wellKeyed (world s) →
  sinkResolver r (defaultedSink src) (keyOf src) = inl uri →
  ReconcileKind r s = Done None s' →
  ∃ d, store (deployments (world s')) !! at_ = Some d ∧
       source s' =
         set_Status src
           (set_CloudEventAttributes
              (PropagateDeploymentAvailability d
                 (MarkSchedule (MarkSink uri (Status src))))
              [{| cea_Type := PingSourceEventType;
                  cea_Source := PingSourceSource (Namespace (meta src))
                                                 (Name (meta src)) |}]).
Proof.
  intros src expected at_ He (Hcsa&Hcrb&Hcd) Hk Huri Hrun.
  subst src expected at_.
  destruct (String.eqb (scopeOf (source s)) eventing.ScopeCluster) eqn:Hscope.
  - apply String.eqb_eq in Hscope.
    destruct (cluster_success r _ _ _ Huri Hscope Hrun) as (d&s2&HMT&Ht&->).
    destruct (reconcileMTReceiveAdapter_stored r (resolvedState s uri) d s2
                (He Deployments) Hcd Hk HMT) as (Hst&HD).
    apply reconcileMTReceiveAdapter_ok in HMT as (Hsrc&_).
    exists d. split; [done|]. simpl. unfold succeeded. by rewrite Hsrc.
  - apply String.eqb_neq in Hscope.
    destruct (resource_success r _ _ _ Huri Hscope Hrun)
      as (sa&s2&rb&s3&ra&s4&HSA&HRB&HD&->).
    apply reconcileServiceAccount_ok in HSA as (Hsrc2&Hrb2&Hd2).
    apply reconcileRoleBinding_ok in HRB as (Hsrc3&Hsa3&Hd3).
    assert (lister (deployments (world s3)) = store (deployments (world s3)))
      as Hcd3 by (by rewrite Hd3, Hd2).
    assert (wellKeyed (world s3)) as Hk3.
    { unfold wellKeyed. by rewrite Hd3, Hd2. }
    destruct (createReceiveAdapter_stored r s3 uri ra s4
                (He Deployments) Hcd3 Hk3 HD) as (Hra&Hown&HDD).
    apply createReceiveAdapter_ok in HD as (Hsrc4&Hsa4&Hrb4).
    rewrite Hsrc3, Hsrc2 in Hra. simpl in Hra |- *.
    exists ra. split; [done|]. by rewrite Hsrc4, Hsrc3, Hsrc2.
Qed.

End StatusOnSuccess.

Section Order.
Context `{Resources}.
Variable r : Reconciler.

Lemma callsOn_reconcileServiceAccount :
  preserves (callsOn ServiceAccounts 2) (reconcileServiceAccount r).
Proof. callsOn_leaf. Qed.

Lemma callsOn_reconcileRoleBinding :
  preserves (callsOn RoleBindings 2) (reconcileRoleBinding r).
Proof. callsOn_leaf. Qed.

Lemma callsOn_createReceiveAdapter uri :
  preserves (callsOn Deployments 3) (createReceiveAdapter r uri).
Proof. callsOn_leaf. Qed.

Lemma callsOn_reconcileMTReceiveAdapter :
  preserves (callsOn Deployments 2) (reconcileMTReceiveAdapter r).
Proof. callsOn_leaf. Qed.

(** X17. The order and the number of the calls.  A run for a source
    that is not of the cluster scope makes at most two calls on the
    service account, then at most two on the role binding, then at
    most three on deployments, and no call of an earlier kind after
    one of a later kind.  A run for a source of the cluster scope makes
    at most two calls. *)
Theorem calls_in_order (s : St) :
  let s' := final (ReconcileKind r s) in
  (scopeOf (source s) ≠ eventing.ScopeCluster →
     ∃ lSA lRB lD,
       newActions (world s) (world s') = lSA ++ lRB ++ lD ∧
       Forall (λ a, a_kind a = ServiceAccounts) lSA ∧ (List.length lSA ≤ 2)%nat ∧
       Forall (λ a, a_kind a = RoleBindings) lRB ∧ (List.length lRB ≤ 2)%nat ∧
       Forall (λ a, a_kind a = Deployments) lD ∧ (List.length lD ≤ 3)%nat) ∧
  (scopeOf (source s) = eventing.ScopeCluster →
     (List.length (newActions (world s) (world s')) ≤ 2)%nat).
Proof.
  intros s'. subst s'. rewrite ReconcileKind_unfold.
  destruct (sinkResolver r _ _) as [uri|e].
  2:{ unfold newActions. simpl. rewrite drop_all. split; intros _; [|simpl; lia].
      exists [], [], []. split_and!; (done || (simpl; lia)). }
  unfold reconcileScope.
  change (scopeOf (resolvedSource (source s) uri)) with (scopeOf (source s)).
  set (s1 := resolvedState s uri).
  split; intros Hscope.
  - apply String.eqb_neq in Hscope as ->. unfold reconcileResourceScope.
    destruct (callsOn_reconcileServiceAccount s1) as (lSA&HlSA&HkSA&HnSA).
    destruct (reconcileServiceAccount r s1) as [[sa|e0] s2|msg s2] eqn:HSA;
      simpl in HlSA.
    2:{ rewrite (bind2_Done _ _ _ _ _ _ HSA).
        unfold finishReconcile. unfold_calls. simpl.
        exists lSA, [], []. rewrite (newActions_app (world s) _ lSA HlSA).
        rewrite !app_nil_r. split_and!; (done || (simpl; lia)). }
    2:{ rewrite (bind2_Panic _ _ _ _ _ _ HSA). simpl.
        exists lSA, [], []. rewrite (newActions_app (world s) _ lSA HlSA).
        rewrite !app_nil_r. split_and!; (done || (simpl; lia)). }
    rewrite (bind2_Done _ _ _ _ _ _ HSA).
    destruct (callsOn_reconcileRoleBinding s2) as (lRB&HlRB&HkRB&HnRB).
    destruct (reconcileRoleBinding r s2) as [[rb|e0] s3|msg s3] eqn:HRB;
      simpl in HlRB.
    2:{ rewrite (bind2_Done _ _ _ _ _ _ HRB).
        unfold finishReconcile. unfold_calls. simpl.
        exists lSA, lRB, []. rewrite (newActions_app (world s) _ (lSA ++ lRB)).
        - rewrite !app_nil_r. split_and!; (done || (simpl; lia)).
        - by rewrite HlRB, HlSA, <-app_assoc. }
    2:{ rewrite (bind2_Panic _ _ _ _ _ _ HRB). simpl.
        exists lSA, lRB, []. rewrite (newActions_app (world s) _ (lSA ++ lRB)).
        - rewrite !app_nil_r. split_and!; (done || (simpl; lia)).
        - by rewrite HlRB, HlSA, <-app_assoc. }
    rewrite (bind2_Done _ _ _ _ _ _ HRB).
    destruct (callsOn_createReceiveAdapter uri s3) as (lD&HlD&HkD&HnD).
    destruct (createReceiveAdapter r uri s3) as [[ra|e0] s4|msg s4] eqn:HD;
      simpl in HlD.
    3:{ rewrite (bind2_Panic _ _ _ _ _ _ HD). simpl.
        exists lSA, lRB, lD.
        rewrite (newActions_app (world s) _ (lSA ++ lRB ++ lD)).
        - split_and!; done.
        - by rewrite HlD, HlRB, HlSA, <-!app_assoc. }
    all: rewrite (bind2_Done _ _ _ _ _ _ HD);
      unfold finishReconcile; unfold_calls; simpl;
      exists lSA, lRB, lD;
      rewrite (newActions_app (world s) _ (lSA ++ lRB ++ lD));
      [ split_and!; done | by rewrite HlD, HlRB, HlSA, <-!app_assoc ].
  - apply String.eqb_eq in Hscope as ->.
    unfold reconcileClusterScope, TrackReference.
    destruct (callsOn_reconcileMTReceiveAdapter s1) as (l&Hl&_&Hn).
    destruct (reconcileMTReceiveAdapter r s1) as [[d|e0] s2|msg s2] eqn:HMT;
      simpl in Hl.
    3:{ rewrite (bind2_Panic _ _ _ _ _ _ HMT). simpl.
        by rewrite (newActions_app (world s) _ l Hl). }
    all: rewrite (bind2_Done _ _ _ _ _ _ HMT);
      unfold finishReconcile; unfold_calls; simpl;
      repeat (case_match; simplify_eq/=);
      (erewrite (newActions_app (world s) _ l); [done|exact Hl]).
Qed.

End Order.

Section Taxonomy.
Context `{Resources}.
Variable r : Reconciler.

Lemma reconcileServiceAccount_error s err s' :
  reconcileServiceAccount r s = Done (inr err) s' →
  ∃ e, err = newServiceAccountWarn (StatusError e).
Proof.
  unfold reconcileServiceAccount. unfold_calls. simpl.
  repeat (case_match; simplify_eq/=); intros; simplify_eq/=; by eexists.
Qed.

Lemma reconcileRoleBinding_error s err s' :
  reconcileRoleBinding r s = Done (inr err) s' →
  ∃ e, err = newRoleBindingWarn (StatusError e).
Proof.
  unfold reconcileRoleBinding. unfold_calls. simpl.
  repeat (case_match; simplify_eq/=); intros; simplify_eq/=; by eexists.
Qed.

Lemma reconcileMTReceiveAdapter_error s err s' :
  reconcileMTReceiveAdapter r s = Done (inr err) s' →
  ∃ e, err = StatusError e ∨
       err = Errorf "error getting mt adapter deployment %v" [AError (StatusError e)].
Proof.
  unfold reconcileMTReceiveAdapter. unfold_calls. simpl.
  repeat (case_match; simplify_eq/=); intros; simplify_eq/=; eauto.
Qed.

(** X19. The errors a run returns.  For a source that is not of the
    cluster scope the error names the step that failed: it wraps the
    warning of the service-account step, the warning of the
    role-binding step or the error of the deployment step.  For a
    source of the cluster scope nothing is wrapped: the error is the
    one the clientset gave, the error of the failed get, or the one
    the tracker returned for the reference to a deployment. *)
Theorem error_taxonomy (s s' : St) (uri : string) (err : error) :
  sinkResolver r (defaultedSink (source s)) (keyOf (source s)) = inl uri →
  ReconcileKind r s = Done (Some err) s' →
  (scopeOf (source s) ≠ eventing.ScopeCluster →
     (∃ e, err = Errorf "creating receive adapter service account: %v"
                   [AError (newServiceAccountWarn (StatusError e))]) ∨
     (∃ e, err = Errorf "creating receive adapter role binding: %v"
                   [AError (newRoleBindingWarn (StatusError e))]) ∨
     (∃ e s3 s4, createReceiveAdapter r uri s3 = Done (inr e) s4 ∧
                 err = Errorf "creating receive adapter: %v" [AError e])) ∧
  (scopeOf (source s) = eventing.ScopeCluster →
     (∃ e, err = StatusError e) ∨
     (∃ e, err = Errorf "error getting mt adapter deployment %v"
                   [AError (StatusError e)]) ∨
     (∃ d, tracker r (deploymentRef d) = Some err)).
Proof.
  intros Huri Hrun. split; intros Hscope.
  - rewrite (resource_branch _ _ _ Huri Hscope) in Hrun.
    unfold reconcileResourceScope in Hrun.
    destruct (reconcileServiceAccount r (resolvedState s uri))
      as [[sa|e0] s2|msg s2] eqn:HSA.
    3:{ by rewrite (bind2_Panic _ _ _ _ _ _ HSA) in Hrun. }
    2:{ rewrite (bind2_Done _ _ _ _ _ _ HSA) in Hrun.
        unfold finishReconcile in Hrun. unfold_calls. simplify_eq/=.
        left. apply reconcileServiceAccount_error in HSA as [e ->]. by eexists. }
    rewrite (bind2_Done _ _ _ _ _ _ HSA) in Hrun.
    destruct (reconcileRoleBinding r s2) as [[rb|e0] s3|msg s3] eqn:HRB.
    3:{ by rewrite (bind2_Panic _ _ _ _ _ _ HRB) in Hrun. }
    2:{ rewrite (bind2_Done _ _ _ _ _ _ HRB) in Hrun.
        unfold finishReconcile in Hrun. unfold_calls. simplify_eq/=.
        right; left. apply reconcileRoleBinding_error in HRB as [e ->].
        by eexists. }
    rewrite (bind2_Done _ _ _ _ _ _ HRB) in Hrun.
    destruct (createReceiveAdapter r uri s3) as [[ra|e0] s4|msg s4] eqn:HD.
    3:{ by rewrite (bind2_Panic _ _ _ _ _ _ HD) in Hrun. }
    all: rewrite (bind2_Done _ _ _ _ _ _ HD) in Hrun;
      unfold finishReconcile in Hrun; unfold_calls; simplify_eq/=.
    right; right. by eexists _, _, _.
  - rewrite (cluster_branch _ _ _ Huri Hscope) in Hrun.
    unfold reconcileClusterScope in Hrun.
    destruct (reconcileMTReceiveAdapter r (resolvedState s uri))
      as [[d|e0] s2|msg s2] eqn:HMT.
    3:{ by rewrite (bind2_Panic _ _ _ _ _ _ HMT) in Hrun. }
    2:{ rewrite (bind2_Done _ _ _ _ _ _ HMT) in Hrun.
        unfold finishReconcile in Hrun. unfold_calls. simplify_eq/=.
        apply reconcileMTReceiveAdapter_error in HMT as [e [->| ->]];
          [left|right; left]; by eexists. }
    rewrite (bind2_Done _ _ _ _ _ _ HMT) in Hrun.
    unfold TrackReference, finishReconcile in Hrun. unfold_calls. simpl in Hrun.
    fold (deploymentRef d) in Hrun.
    destruct (tracker r (deploymentRef d)) eqn:Ht; simplify_eq/=.
    right; right. by exists d.
Qed.

(** X20. The shared adapter does not depend on the source.  From the
    same cluster, the shared-adapter step run for two sources makes the
    same calls, returns the same result and leaves the same
    deployments in the store and in the cache. *)
Theorem shared_adapter_any_source (w : World) (src1 src2 : PingSource) :
  let x1 := reconcileMTReceiveAdapter r {| world := w; source := src1 |} in
  let x2 := reconcileMTReceiveAdapter r {| world := w; source := src2 |} in
  actions (world (final x1)) = actions (world (final x2)) ∧
  deployments (world (final x1)) = deployments (world (final x2)) ∧
  (∀ res s1, x1 = Done res s1 → ∃ s2, x2 = Done res s2) ∧
  source (final x1) = src1 ∧ source (final x2) = src2.
Proof.
  intros x1 x2. subst x1 x2.
  unfold reconcileMTReceiveAdapter. unfold_calls. simpl.
  repeat (case_match; simplify_eq/=);
    (split_and!; [done|done| |done|done]);
    intros; simplify_eq/=; by eexists.
Qed.

End Taxonomy.

Section PartialStatus.
Context `{Resources}.
Variable r : Reconciler.

Lemma keepsDeployed_reconcileServiceAccount s :
  Deployed (Status (source (final (reconcileServiceAccount r s))))
    = Deployed (Status (source s)).
Proof.
  unfold reconcileServiceAccount. unfold_calls. simpl.
  repeat (case_match; simplify_eq/=); done.
Qed.

Lemma keepsDeployed_reconcileRoleBinding s :
  Deployed (Status (source (final (reconcileRoleBinding r s))))
    = Deployed (Status (source s)).
Proof.
  unfold reconcileRoleBinding. unfold_calls. simpl.
  repeat (case_match; simplify_eq/=); done.
Qed.

Lemma keepsSource_createReceiveAdapter uri s :
  source (final (createReceiveAdapter r uri s)) = source s.
Proof.
  unfold createReceiveAdapter. unfold_calls. simpl.
  repeat (case_match; simplify_eq/=); done.
Qed.

Lemma keepsSource_reconcileMTReceiveAdapter s :
  source (final (reconcileMTReceiveAdapter r s)) = source s.
Proof.
  unfold reconcileMTReceiveAdapter. unfold_calls. simpl.
  repeat (case_match; simplify_eq/=); done.
Qed.

(** X21. The availability condition when a run fails.  With the sink
    resolved, a run for a source that is not of the cluster scope that
    returns an error has left the availability condition as it found
    it.  For a source of the cluster scope this holds when the error
    is the one of the shared-adapter step; but the availability is
    propagated before the tracker is called, so when it is the tracker
    that fails the run returns the tracker's error with the
    availability of the shared adapter already written on the status. *)
Theorem availability_on_failure (s s' : St) (uri : string) (err : error) :
  sinkResolver r (defaultedSink (source s)) (keyOf (source s)) = inl uri →
  ReconcileKind r s = Done (Some err) s' →
  (scopeOf (source s) ≠ eventing.ScopeCluster →
     Deployed (Status (source s')) = Deployed (Status (source s))) ∧
  (scopeOf (source s) = eventing.ScopeCluster →
     (Deployed (Status (source s')) = Deployed (Status (source s)) ∧
      ∃ s2, reconcileMTReceiveAdapter r (resolvedState s uri) = Done (inr err) s2) ∨
     (∃ d s2, reconcileMTReceiveAdapter r (resolvedState s uri) = Done (inl d) s2 ∧
              tracker r (deploymentRef d) = Some err ∧
              Status (source s') =
                PropagateDeploymentAvailability d
                  (MarkSchedule (MarkSink uri (Status (source s)))))).
Proof.
  intros Huri Hrun. split; intros Hscope.
  - rewrite (resource_branch _ _ _ Huri Hscope) in Hrun.
    unfold reconcileResourceScope in Hrun.
    pose proof (keepsDeployed_reconcileServiceAccount (resolvedState s uri)) as HkSA.
    destruct (reconcileServiceAccount r (resolvedState s uri))
      as [[sa|e0] s2|msg s2] eqn:HSA; simpl in HkSA.
    3:{ by rewrite (bind2_Panic _ _ _ _ _ _ HSA) in Hrun. }
    2:{ rewrite (bind2_Done _ _ _ _ _ _ HSA) in Hrun.
        unfold finishReconcile in Hrun. unfold_calls. by simplify_eq/=. }
    rewrite (bind2_Done _ _ _ _ _ _ HSA) in Hrun.
    pose proof (keepsDeployed_reconcileRoleBinding s2) as HkRB.
    destruct (reconcileRoleBinding r s2) as [[rb|e0] s3|msg s3] eqn:HRB;
      simpl in HkRB.
    3:{ by rewrite (bind2_Panic _ _ _ _ _ _ HRB) in Hrun. }
    2:{ rewrite (bind2_Done _ _ _ _ _ _ HRB) in Hrun.
        unfold finishReconcile in Hrun. unfold_calls. simplify_eq/=.
        by rewrite HkRB. }
    rewrite (bind2_Done _ _ _ _ _ _ HRB) in Hrun.
    pose proof (keepsSource_createReceiveAdapter uri s3) as HkD.
    destruct (createReceiveAdapter r uri s3) as [[ra|e0] s4|msg s4] eqn:HD;
      simpl in HkD.
    3:{ by rewrite (bind2_Panic _ _ _ _ _ _ HD) in Hrun. }
    all: rewrite (bind2_Done _ _ _ _ _ _ HD) in Hrun;
      unfold finishReconcile in Hrun; unfold_calls; simplify_eq/=.
    by rewrite HkD, HkRB.
  - rewrite (cluster_branch _ _ _ Huri Hscope) in Hrun.
    unfold reconcileClusterScope in Hrun.
    pose proof (keepsSource_reconcileMTReceiveAdapter (resolvedState s uri)) as Hk.
    destruct (reconcileMTReceiveAdapter r (resolvedState s uri))
      as [[d|e0] s2|msg s2] eqn:HMT; simpl in Hk.
    3:{ by rewrite (bind2_Panic _ _ _ _ _ _ HMT) in Hrun. }
    2:{ rewrite (bind2_Done _ _ _ _ _ _ HMT) in Hrun.
        unfold finishReconcile in Hrun. unfold_calls. simplify_eq/=.
        left. rewrite Hk. split; [done|by eexists]. }
    rewrite (bind2_Done _ _ _ _ _ _ HMT) in Hrun.
    unfold TrackReference, finishReconcile in Hrun. unfold_calls. simpl in Hrun.
    fold (deploymentRef d) in Hrun.
    destruct (tracker r (deploymentRef d)) eqn:Ht; simplify_eq/=.
    right. exists d, s2. split_and!; [done..|]. by rewrite Hk.
Qed.

End PartialStatus.

Section FirstRun.
Context `{Resources}.
Variable r : Reconciler.

(** X22. The first run for a source of the per-source scope, on a
    cluster that has none of its objects and with a clientset that
    accepts everything.  The run succeeds after seven calls: get and
    create of the service account, get and create of the role binding,
    and on deployments the get, the delete of the deprecated name,
    answered not-found, and the create.  It emits four events, in this
    order: the service account and the role binding created, the
    deprecated deployment removed, though the delete found nothing to
    remove, and the deployment created.  The three stores gain exactly
    the objects the builders made. *)
Theorem first_run (s : St) (uri : string) :
  let src := source s in
  let ns := Namespace (meta src) in
  let src1 := resolvedSource src uri in
  let sa := MakeServiceAccount (meta src) (saNameOf src) in
  let rb := MakeRoleBinding src1 (saNameOf src) stadapterClusterRoleName in
  let ra := MakeReceiveAdapter (adapterArgs r src1 uri) in
  sinkResolver r (defaultedSink src) (keyOf src) = inl uri →
  scopeOf src ≠ eventing.ScopeCluster →
  faithfulListers r → (∀ v k, kubeClientSet r v k = None) →
  lister (serviceAccounts (world s)) !! (ns, saNameOf src) = None →
  store (serviceAccounts (world s)) !! (ns, Name (sa_meta sa)) = None →
  lister (roleBindings (world s)) !! (ns, saNameOf src) = None →
  store (roleBindings (world s)) !! (ns, Name (rb_meta rb)) = None →
  lister (deployments (world s)) !! (ns, Name (d_meta ra)) = None →
  store (deployments (world s)) !! (ns, Name (d_meta ra)) = None →
  store (deployments (world s)) !! (ns, deprecatedNameOf src) = None →
  deprecatedNameOf src ≠ Name (d_meta ra) →
  ∃ s', ReconcileKind r s = Done None s' ∧
        newActions (world s) (world s') =
          [ getAction ServiceAccounts ns (saNameOf src) (Some ErrNotFound);
            {| a_verb := create; a_kind := ServiceAccounts; a_namespace := ns;
               a_name := Name (sa_meta sa); a_err := None |};
            getAction RoleBindings ns (saNameOf src) (Some ErrNotFound);
            {| a_verb := create; a_kind := RoleBindings; a_namespace := ns;
               a_name := Name (rb_meta rb); a_err := None |};
            getAction Deployments ns (Name (d_meta ra)) (Some ErrNotFound);
            {| a_verb := delete; a_kind := Deployments; a_namespace := ns;
               a_name := deprecatedNameOf src; a_err := Some ErrNotFound |};
            {| a_verb := create; a_kind := Deployments; a_namespace := ns;
               a_name := Name (d_meta ra); a_err := None |} ] ∧
        map e_reason (newEvents (world s) (world s')) =
          [ pingSourceServiceAccountCreated; pingSourceRoleBindingCreated;
            pingSourceDeploymentDeleted; pingSourceDeploymentCreated ] ∧
        store (serviceAccounts (world s')) =
          <[(ns, Name (sa_meta sa)):=sa]> (store (serviceAccounts (world s))) ∧
        store (roleBindings (world s')) =
          <[(ns, Name (rb_meta rb)):=rb]> (store (roleBindings (world s))) ∧
        store (deployments (world s')) =
          <[(ns, Name (d_meta ra)):=ra]> (store (deployments (world s))).
Proof.
  intros src ns src1 sa rb ra Huri Hscope He Hc HlSA HsSA HlRB HsRB HlD HsD HsO Hne.
  subst src ns src1 sa rb ra.
  rewrite (resource_branch _ _ _ Huri Hscope).
  apply String.eqb_neq in Hne.
  unfold reconcileResourceScope, finishReconcile, reconcileServiceAccount,
    reconcileRoleBinding, createReceiveAdapter, saNameOf, deprecatedNameOf in *.
  unfold_calls. simpl in *.
  rewrite !He, !Hc. simpl. rewrite HlSA. simpl. rewrite HsSA. simpl.
  rewrite HlRB. simpl. rewrite HsRB. simpl.
  rewrite HlD. simpl. rewrite Hne. simpl. rewrite HsO. simpl. rewrite HsD. simpl.
  eexists. split; [reflexivity|]. simpl.
  unfold newActions, newEvents. simpl.
  rewrite <-!app_assoc, !drop_app_length. done.
Qed.

End FirstRun.

(** ** The claims of the design document that the code does not meet *)
Section Counterexamples.
Import Fixture.

(** C5, as stated: a source whose scope annotation holds a value that is
    neither [cluster] nor [resource] would make the same calls as one
    annotated [cluster].  It does not: it takes the per-source branch. *)
Lemma unrecognized_scope_not_cluster :
  ¬ (actions (world (final (ReconcileKind healthy
                              (start emptyWorld (p1 (scoped "bogus")))))) =
     actions (world (final (ReconcileKind healthy
                              (start emptyWorld (p1 (scoped eventing.ScopeCluster))))))).
Proof. vm_compute. discriminate. Qed.

(** C6, as stated: when the resolver fails, the sink condition would
    carry the serialised reference.  It does not: neither its reason nor
    its message is the serialised destination, the message is empty. *)
Lemma sink_condition_without_reference :
  ¬ (∃ c, SinkProvided (Status (source (final (ReconcileKind healthy
                                                 (start emptyWorld lost))))) = Some c ∧
          (cond_Message c = json_Marshal (defaultedSink lost) ∨
           cond_Reason c = json_Marshal (defaultedSink lost))).
Proof. intros (c&Hc&Hm). vm_compute in Hc, Hm. simplify_eq. by destruct Hm. Qed.

(** C1, as stated: a service account found at the expected name and
    owned by another source would end the run with an ownership
    conflict.  It does not: the service-account step has no ownership
    check, the account is taken as it is and the run succeeds. *)
Lemma foreign_service_account_reused :
  lister (serviceAccounts foreignWorld)
    !! (Namespace (meta (p1 resourceScoped)), saNameOf (p1 resourceScoped))
    = Some foreignServiceAccount ∧
  IsControlledBy (sa_meta foreignServiceAccount) (meta (p1 resourceScoped)) = false ∧
  ∃ s', ReconcileKind healthy (start foreignWorld (p1 resourceScoped)) = Done None s'.
Proof. vm_compute. split_and!; [done..|]. eexists. reflexivity. Qed.


(** C8, as stated: a failed create of an adapter deployment would emit
    no event.  Both deployment steps emit one for it. *)
Lemma failed_create_emits_event :
  (∃ err s', reconcileMTReceiveAdapter noCreate (start emptyWorld (p1 ∅))
               = Done (inr err) s' ∧
             newEvents emptyWorld (world s') ≠ []) ∧
  (∃ err s', createReceiveAdapter noCreate "http://svc1.default.svc.cluster.local"
               (start emptyWorld (p1 resourceScoped))
               = Done (inr err) s' ∧
             newEvents emptyWorld (world s') ≠ []).
Proof. split; vm_compute; eexists _, _; (split; [reflexivity|discriminate]). Qed.

(** C3, as stated: fields the reconciler did not set would never by
    themselves cause an update.  A plain scalar does: a live pod spec
    that differs from the desired one only in the host-network flag,
    which the desired one leaves at its zero value, is reported as
    drift, and the step issues the update. *)
Lemma unset_scalar_causes_update :
  HostNetwork (d_PodSpec Examples.desiredAdapter) = false ∧
  {| Containers := Containers (d_PodSpec Scenarios.hostNetworkAdapter);
     RestartPolicy := RestartPolicy (d_PodSpec Scenarios.hostNetworkAdapter);
     TerminationGracePeriodSeconds :=
       TerminationGracePeriodSeconds (d_PodSpec Scenarios.hostNetworkAdapter);
     DNSPolicy := DNSPolicy (d_PodSpec Scenarios.hostNetworkAdapter);
     NodeSelector := NodeSelector (d_PodSpec Scenarios.hostNetworkAdapter);
     ServiceAccountName := ServiceAccountName (d_PodSpec Scenarios.hostNetworkAdapter);
     NodeName := NodeName (d_PodSpec Scenarios.hostNetworkAdapter);
     HostNetwork := false;
     SchedulerName := SchedulerName (d_PodSpec Scenarios.hostNetworkAdapter) |}
    = d_PodSpec Examples.desiredAdapter ∧
  podSpecChanged (d_PodSpec Scenarios.hostNetworkAdapter) (d_PodSpec Examples.desiredAdapter)
    = true ∧
  newActions Scenarios.hostNetworkWorld
    (world (final (createReceiveAdapter healthy Examples.uri1
                     (start Scenarios.hostNetworkWorld (resolvedSource Examples.dedicated Examples.uri1)))))
    = [ getAction Deployments "default" (Name (d_meta Examples.desiredAdapter)) None;
        {| a_verb := update; a_kind := Deployments; a_namespace := "default";
           a_name := Name (d_meta Examples.desiredAdapter); a_err := None |} ].
Proof. vm_compute. split_and!; reflexivity. Qed.

End Counterexamples.

(** ** The theorems at work on the example cluster *)
Section Witnesses.
Import Fixture Examples.

#[local] Instance resources_WellBuilt : WellBuilt.
Proof.
  split; try reflexivity.
  intros a. unfold IsControlledBy. simpl. apply String.eqb_refl.
Qed.

Lemma ownership_conflict_witness :
  sinkResolver healthy (defaultedSink dedicated) (keyOf dedicated) = inl uri1 ∧
  scopeOf dedicated ≠ eventing.ScopeCluster ∧
  lister (deployments contestedWorld)
    !! (Namespace (meta dedicated), Name (d_meta desiredAdapter)) = Some foreignAdapter ∧
  IsControlledBy (d_meta foreignAdapter) (meta dedicated) = false ∧
  store (deployments (world (final (ReconcileKind healthy
                                      (start contestedWorld dedicated))))) =
    store (deployments contestedWorld) ∧
  Forall (readsOnly Deployments)
    (newActions contestedWorld
       (world (final (ReconcileKind healthy (start contestedWorld dedicated))))).
Proof.
  assert (sinkResolver healthy (defaultedSink dedicated) (keyOf dedicated) = inl uri1)
    as H1 by (vm_compute; reflexivity).
  assert (scopeOf dedicated ≠ eventing.ScopeCluster)
    as H2 by (vm_compute; discriminate).
  assert (lister (deployments contestedWorld)
            !! (Namespace (meta dedicated), Name (d_meta desiredAdapter))
          = Some foreignAdapter) as H3 by (vm_compute; reflexivity).
  assert (IsControlledBy (d_meta foreignAdapter) (meta dedicated) = false)
    as H4 by (vm_compute; reflexivity).
  destruct (ownership_conflict healthy (start contestedWorld dedicated) uri1 H1 H2)
    as (_&_&Hd).
  destruct (Hd foreignAdapter eq_refl H3 H4) as (Hs&Hf&_).
  split_and!; assumption.
Defined.

Lemma reconcile_idempotent_witness :
  faithfulListers healthy ∧ consistent emptyWorld ∧ wellKeyed emptyWorld ∧
  ReconcileKind healthy (start emptyWorld dedicated) = Done None afterFirstRun ∧
  ∃ s'', ReconcileKind healthy
           {| world := sync (world afterFirstRun); source := source afterFirstRun |}
           = Done None s'' ∧
         Forall (λ a, a_verb a = get ∧ a_err a = None)
           (newActions (sync (world afterFirstRun)) (world s'')) ∧
         ∀ k, storeOf k s'' = storeOf k afterFirstRun.
Proof.
  assert (faithfulListers healthy) as H1 by (intros k; reflexivity).
  assert (consistent emptyWorld) as H2 by (vm_compute; split_and!; reflexivity).
  assert (wellKeyed emptyWorld) as H3 by (intros ns n d Hd; vm_compute in Hd; discriminate).
  assert (ReconcileKind healthy (start emptyWorld dedicated) = Done None afterFirstRun)
    as H4 by (vm_compute; reflexivity).
  split_and!; [assumption..|].
  exact (reconcile_idempotent healthy (start emptyWorld dedicated) afterFirstRun
           H1 H2 H3 H4).
Defined.

Lemma drift_check_witness :
  equality.DeepDerivative (d_PodSpec desiredAdapter) (d_PodSpec liveAdapter) = true ∧
  podSpecChanged (d_PodSpec liveAdapter) (d_PodSpec desiredAdapter) = false ∧
  createReceiveAdapter healthy uri1
    (start liveWorld (resolvedSource dedicated uri1)) =
    Done (inl liveAdapter)
      {| world := add_action (getAction Deployments "default"
                                (Name (d_meta desiredAdapter)) None) liveWorld;
         source := resolvedSource dedicated uri1 |} ∧
  reconcileMTReceiveAdapter healthy (start liveMTWorld (resolvedSource shared uri1)) =
    Done (inl liveMTAdapter)
      {| world := add_action (getAction Deployments system_Namespace
                                mtadapterName None) liveMTWorld;
         source := resolvedSource shared uri1 |} ∧
  HostNetwork (d_PodSpec Scenarios.hostNetworkAdapter)
    ≠ HostNetwork (d_PodSpec desiredAdapter) ∧
  podSpecChanged (d_PodSpec Scenarios.hostNetworkAdapter) (d_PodSpec desiredAdapter)
    = true ∧
  ∃ e, newActions Scenarios.hostNetworkWorld
         (world (final (createReceiveAdapter healthy uri1
                          (start Scenarios.hostNetworkWorld
                             (resolvedSource dedicated uri1))))) =
         [ getAction Deployments "default" (Name (d_meta desiredAdapter)) None;
           {| a_verb := update; a_kind := Deployments; a_namespace := "default";
              a_name := Name (d_meta Scenarios.hostNetworkAdapter); a_err := e |} ].
Proof.
  assert (equality.DeepDerivative (d_PodSpec desiredAdapter) (d_PodSpec liveAdapter)
          = true) as H1 by (vm_compute; reflexivity).
  assert (equality.DeepDerivative (d_PodSpec (MakeMTReceiveAdapter (mtArgs healthy)))
            (d_PodSpec liveMTAdapter) = true) as H2 by (vm_compute; reflexivity).
  assert (HostNetwork (d_PodSpec Scenarios.hostNetworkAdapter)
          ≠ HostNetwork (d_PodSpec desiredAdapter)) as H3 by (vm_compute; discriminate).
  destruct (proj1 (drift_check_one_directional healthy _ _) H1) as (Hc&Hra&_).
  destruct (proj1 (drift_check_one_directional healthy _ _) H2) as (_&_&Hmt).
  destruct (proj2 (drift_check_one_directional healthy _ _) H3) as (Hch&Hup&_).
  split_and!; [exact H1|exact Hc| | |exact H3|exact Hch|].
  - apply (Hra liveWorld (resolvedSource dedicated uri1) uri1 liveAdapter);
      vm_compute; reflexivity.
  - apply (Hmt liveMTWorld (resolvedSource shared uri1) liveMTAdapter);
      vm_compute; reflexivity.
  - apply (Hup Scenarios.hostNetworkWorld (resolvedSource dedicated uri1) uri1
             Scenarios.hostNetworkAdapter); vm_compute; reflexivity.
Defined.

Lemma migration_shim_witness :
  sinkResolver healthy (defaultedSink dedicated) (keyOf dedicated) = inl uri1 ∧
  scopeOf dedicated ≠ eventing.ScopeCluster ∧
  lister (deployments emptyWorld)
    !! (Namespace (meta dedicated), Name (d_meta desiredAdapter)) = None ∧
  deprecatedNameOf dedicated ≠ Name (d_meta desiredAdapter) ∧
  ReconcileKind healthy (start emptyWorld dedicated) = Done None afterFirstRun ∧
  (∃ pre e,
     newActions emptyWorld (world afterFirstRun) =
       pre ++
       [ getAction Deployments "default" (Name (d_meta desiredAdapter))
           (Some ErrNotFound);
         {| a_verb := delete; a_kind := Deployments; a_namespace := "default";
            a_name := deprecatedNameOf dedicated; a_err := e |};
         {| a_verb := create; a_kind := Deployments; a_namespace := "default";
            a_name := Name (d_meta desiredAdapter); a_err := None |} ] ∧
     Forall (λ a, a_kind a ≠ Deployments) pre) ∧
  Forall (λ a, a_verb a ≠ delete)
    (newActions liveWorld
       (world (final (ReconcileKind healthy (start liveWorld dedicated))))).
Proof.
  assert (sinkResolver healthy (defaultedSink dedicated) (keyOf dedicated) = inl uri1)
    as H1 by (vm_compute; reflexivity).
  assert (scopeOf dedicated ≠ eventing.ScopeCluster)
    as H2 by (vm_compute; discriminate).
  assert (lister (deployments emptyWorld)
            !! (Namespace (meta dedicated), Name (d_meta desiredAdapter)) = None)
    as H3 by (vm_compute; reflexivity).
  assert (deprecatedNameOf dedicated ≠ Name (d_meta desiredAdapter))
    as H4 by (vm_compute; discriminate).
  assert (ReconcileKind healthy (start emptyWorld dedicated) = Done None afterFirstRun)
    as H5 by (vm_compute; reflexivity).
  assert (lister (deployments liveWorld)
            !! (Namespace (meta dedicated), Name (d_meta desiredAdapter))
          = Some liveAdapter) as H6 by (vm_compute; reflexivity).
  destruct (migration_shim healthy (start emptyWorld dedicated) uri1 H1 H2 eq_refl)
    as (Habsent&_).
  destruct (migration_shim healthy (start liveWorld dedicated) uri1 H1 H2 eq_refl)
    as (_&Hpresent).
  destruct (Habsent afterFirstRun H3 H4 H5) as (pre&e&Hact&Hpre&_).
  split_and!; [assumption..| |exact (Hpresent liveAdapter H6)].
  exists pre, e. by split.
Defined.

Lemma scope_routing_witness :
  sinkResolver healthy (defaultedSink shared) (keyOf shared) = inl uri1 ∧
  (∃ e l, newActions emptyWorld
            (world (final (ReconcileKind healthy (start emptyWorld shared)))) =
          getAction Deployments system_Namespace mtadapterName e :: l) ∧
  (∃ e l, newActions emptyWorld
            (world (final (ReconcileKind healthy
                             (start emptyWorld (p1 (scoped "bogus")))))) =
          getAction ServiceAccounts "default" (saNameOf dedicated) e :: l).
Proof.
  assert (sinkResolver healthy (defaultedSink shared) (keyOf shared) = inl uri1)
    as H1 by (vm_compute; reflexivity).
  destruct (scope_routing healthy (start emptyWorld shared) uri1 H1) as (Hc&_).
  destruct (scope_routing healthy (start emptyWorld (p1 (scoped "bogus"))) uri1 H1)
    as (_&Hr).
  split_and!; [assumption| |].
  - apply Hc. left. vm_compute. reflexivity.
  - apply (Hr "bogus"); [vm_compute; reflexivity|discriminate].
Defined.

Lemma sink_resolution_witness :
  sinkResolver healthy (defaultedSink lost) (keyOf lost) =
    inr (Errorf "not found" []) ∧
  ReconcileKind healthy (start emptyWorld lost) =
    Done (Some (newWarningSinkNotFound (defaultedSink lost)))
      {| world := add_resolved (defaultedSink lost, keyOf lost) emptyWorld;
         source := set_Status lost (MarkNoSink "NotFound" "" (Status lost)) |} ∧
  sinkStatusOf (final (ReconcileKind healthy (start emptyWorld dedicated))) =
    (Some condTrue, Some condTrue, Some uri1).
Proof.
  assert (sinkResolver healthy (defaultedSink lost) (keyOf lost) =
            inr (Errorf "not found" [])) as H1 by (vm_compute; reflexivity).
  assert (sinkResolver healthy (defaultedSink dedicated) (keyOf dedicated) = inl uri1)
    as H2 by (vm_compute; reflexivity).
  destruct (sink_resolution_outcome healthy (start emptyWorld lost)) as (Hf&_).
  destruct (sink_resolution_outcome healthy (start emptyWorld dedicated)) as (_&Hs).
  destruct (Hf _ H1) as (Hrun&_). destruct (Hs _ H2) as (_&_&_&Hst).
  split_and!; assumption.
Defined.


Lemma failure_events_witness :
  reconcileMTReceiveAdapter noCreate (start emptyWorld shared) =
    Done (inr (StatusError (ErrInternal "etcd timeout")))
      (final (reconcileMTReceiveAdapter noCreate (start emptyWorld shared))) ∧
  newEvents emptyWorld
    (world (final (reconcileMTReceiveAdapter noCreate (start emptyWorld shared)))) =
    [mtCreateFailedEvent shared (ErrInternal "etcd timeout")].
Proof.
  assert (reconcileMTReceiveAdapter noCreate (start emptyWorld shared) =
          Done (inr (StatusError (ErrInternal "etcd timeout")))
            (final (reconcileMTReceiveAdapter noCreate (start emptyWorld shared))))
    as H1 by (vm_compute; reflexivity).
  destruct (failure_events noCreate) as (_&_&_&Hmt).
  destruct (Hmt _ _ _ H1) as (_&Hev).
  split; [assumption|]. apply (Hev (ErrInternal "etcd timeout")).
  apply Exists_cons_tl, Exists_cons_hd. split; reflexivity.
Defined.

Lemma namespace_defaulting_witness :
  Ref (Sink (Spec dedicated)) =
    Some {| kr_Kind := "Service"; kr_Namespace := ""; kr_Name := "svc1";
            kr_APIVersion := "v1" |} ∧
  defaultedSink dedicated =
    {| Ref := Some {| kr_Kind := "Service"; kr_Namespace := "default";
                      kr_Name := "svc1"; kr_APIVersion := "v1" |};
       URI := None |} ∧
  resolved (world (final (ReconcileKind healthy (start emptyWorld dedicated)))) =
    [(defaultedSink dedicated, keyOf dedicated)] ∧
  Spec (source (final (ReconcileKind healthy (start emptyWorld dedicated)))) =
    Spec dedicated.
Proof.
  destruct (namespace_defaulting healthy (start emptyWorld dedicated))
    as (Hres&Hspec&Hdef&_).
  split_and!; [reflexivity| |exact Hres|exact Hspec].
  exact (Hdef _ eq_refl eq_refl).
Defined.

Import Scenarios.

Lemma cloud_event_attributes_witness :
  ReconcileKind healthy (start emptyWorld dedicated) = Done None afterFirstRun ∧
  CloudEventAttributes (Status (source afterFirstRun)) =
    [{| cea_Type := PingSourceEventType;
        cea_Source := PingSourceSource "default" "p1" |}].
Proof.
  assert (ReconcileKind healthy (start emptyWorld dedicated) = Done None afterFirstRun)
    as H1 by (vm_compute; reflexivity).
  split; [assumption|].
  destruct (cloud_event_attributes healthy (start emptyWorld dedicated)) as (Hok&_).
  exact (Hok afterFirstRun H1).
Defined.

Lemma calls_confined_witness :
  scopeOf shared = eventing.ScopeCluster ∧
  scopeOf dedicated ≠ eventing.ScopeCluster ∧
  Forall (λ a, a_kind a = Deployments ∧ a_namespace a = system_Namespace)
    (newActions emptyWorld
       (world (final (ReconcileKind healthy (start emptyWorld shared))))) ∧
  Forall (λ a, a_namespace a = "default")
    (newActions emptyWorld (world afterFirstRun)).
Proof.
  assert (scopeOf shared = eventing.ScopeCluster) as H1 by (vm_compute; reflexivity).
  assert (scopeOf dedicated ≠ eventing.ScopeCluster)
    as H2 by (vm_compute; discriminate).
  split_and!; [assumption..| |].
  - destruct (calls_confined healthy (start emptyWorld shared)) as (Hc&_).
    exact (Hc H1).
  - destruct (calls_confined healthy (start emptyWorld dedicated)) as (_&Hr).
    exact (Hr H2).
Defined.

Lemma tracker_registration_witness :
  sinkResolver healthy (defaultedSink shared) (keyOf shared) = inl uri1 ∧
  scopeOf shared = eventing.ScopeCluster ∧
  ∃ s', ReconcileKind healthy (start emptyWorld shared) = Done None s' ∧
        ∃ d s2, reconcileMTReceiveAdapter healthy
                  (resolvedState (start emptyWorld shared) uri1) = Done (inl d) s2 ∧
                tracker healthy (deploymentRef d) = None ∧
                tracked (world s') = [] ++ [(deploymentRef d, keyOf shared)].
Proof.
  assert (sinkResolver healthy (defaultedSink shared) (keyOf shared) = inl uri1)
    as H1 by (vm_compute; reflexivity).
  assert (scopeOf shared = eventing.ScopeCluster) as H2 by (vm_compute; reflexivity).
  assert (ReconcileKind healthy (start emptyWorld shared) =
          Done None (final (ReconcileKind healthy (start emptyWorld shared))))
    as H3 by (vm_compute; reflexivity).
  split_and!; [assumption..|]. eexists. split; [exact H3|].
  destruct (tracker_registration healthy (start emptyWorld shared) uri1 H1)
    as (_&Hc).
  destruct (Hc H2) as (Hok&_). exact (Hok _ H3).
Defined.

Lemma destructive_calls_witness :
  scopeOf shared = eventing.ScopeCluster ∧
  scopeOf dedicated ≠ eventing.ScopeCluster ∧
  Forall (λ a, a_verb a ≠ delete)
    (newActions emptyWorld
       (world (final (ReconcileKind healthy (start emptyWorld shared))))) ∧
  Forall (λ a, (a_verb a = delete →
                  a_kind a = Deployments ∧ a_namespace a = "default" ∧
                  a_name a = deprecatedNameOf dedicated) ∧
               (a_verb a = update → a_kind a = Deployments))
    (newActions emptyWorld (world afterFirstRun)).
Proof.
  assert (scopeOf shared = eventing.ScopeCluster) as H1 by (vm_compute; reflexivity).
  assert (scopeOf dedicated ≠ eventing.ScopeCluster)
    as H2 by (vm_compute; discriminate).
  split_and!; [assumption..| |].
  - destruct (destructive_calls healthy (start emptyWorld shared)) as (_&Hc).
    exact (Hc H1).
  - destruct (destructive_calls healthy (start emptyWorld dedicated)) as (Hr&_).
    exact (Hr H2).
Defined.

Lemma steps_short_circuit_witness :
  sinkResolver deafLister (defaultedSink dedicated) (keyOf dedicated) = inl uri1 ∧
  scopeOf dedicated ≠ eventing.ScopeCluster ∧
  ∃ e s', ReconcileKind deafLister (start emptyWorld dedicated) =
            Done (Some (Errorf "creating receive adapter service account: %v"
                          [AError e])) s' ∧
          Forall (λ a, a_kind a = ServiceAccounts) (newActions emptyWorld (world s')) ∧
          storeOf RoleBindings s' = storeOf RoleBindings (start emptyWorld dedicated) ∧
          storeOf Deployments s' = storeOf Deployments (start emptyWorld dedicated).
Proof.
  assert (sinkResolver deafLister (defaultedSink dedicated) (keyOf dedicated)
          = inl uri1) as H1 by (vm_compute; reflexivity).
  assert (scopeOf dedicated ≠ eventing.ScopeCluster)
    as H2 by (vm_compute; discriminate).
  assert (ReconcileKind deafLister (start emptyWorld dedicated) =
          Done (Some (Errorf "creating receive adapter service account: %v"
                        [AError (newServiceAccountWarn
                                   (StatusError (ErrInternal "cache not synced")))]))
               (final (ReconcileKind deafLister (start emptyWorld dedicated))))
    as H3 by (vm_compute; reflexivity).
  split_and!; [assumption..|]. eexists _, _. split; [exact H3|].
  destruct (steps_short_circuit deafLister (start emptyWorld dedicated) uri1 H1 H2)
    as (HSA&_).
  exact (HSA _ _ H3).
Defined.

Lemma success_converges_witness :
  faithfulListers healthy ∧ consistent emptyWorld ∧ wellKeyed emptyWorld ∧
  sinkResolver healthy (defaultedSink dedicated) (keyOf dedicated) = inl uri1 ∧
  ReconcileKind healthy (start emptyWorld dedicated) = Done None afterFirstRun ∧
  scopeOf dedicated ≠ eventing.ScopeCluster ∧
  is_Some (store (serviceAccounts (world afterFirstRun))
             !! ("default", saNameOf dedicated)) ∧
  is_Some (store (roleBindings (world afterFirstRun))
             !! ("default", saNameOf dedicated)) ∧
  ∃ ra, store (deployments (world afterFirstRun))
          !! ("default", Name (d_meta desiredAdapter)) = Some ra ∧
        IsControlledBy (d_meta ra) (meta dedicated) = true ∧
        podSpecChanged (d_PodSpec ra) (d_PodSpec desiredAdapter) = false.
Proof.
  assert (faithfulListers healthy) as H1 by (intros k; reflexivity).
  assert (consistent emptyWorld) as H2 by (vm_compute; split_and!; reflexivity).
  assert (wellKeyed emptyWorld) as H3 by (intros ns n d Hd; vm_compute in Hd; discriminate).
  assert (sinkResolver healthy (defaultedSink dedicated) (keyOf dedicated) = inl uri1)
    as H4 by (vm_compute; reflexivity).
  assert (ReconcileKind healthy (start emptyWorld dedicated) = Done None afterFirstRun)
    as H5 by (vm_compute; reflexivity).
  assert (scopeOf dedicated ≠ eventing.ScopeCluster)
    as H6 by (vm_compute; discriminate).
  do 6 (split; [assumption|]).
  destruct (success_converges healthy (start emptyWorld dedicated) afterFirstRun uri1
              H1 H2 H3 H4 H5) as (Hr&_).
  exact (Hr H6).
Defined.

Lemma status_on_success_witness :
  faithfulListers healthy ∧ consistent emptyWorld ∧ wellKeyed emptyWorld ∧
  sinkResolver healthy (defaultedSink dedicated) (keyOf dedicated) = inl uri1 ∧
  ReconcileKind healthy (start emptyWorld dedicated) = Done None afterFirstRun ∧
  ∃ d, store (deployments (world afterFirstRun))
         !! (if String.eqb (scopeOf dedicated) eventing.ScopeCluster
             then (system_Namespace, mtadapterName)
             else ("default", Name (d_meta desiredAdapter))) = Some d ∧
       source afterFirstRun =
         set_Status dedicated
           (set_CloudEventAttributes
              (PropagateDeploymentAvailability d
                 (MarkSchedule (MarkSink uri1 (Status dedicated))))
              [{| cea_Type := PingSourceEventType;
                  cea_Source := PingSourceSource "default" "p1" |}]).
Proof.
  assert (faithfulListers healthy) as H1 by (intros k; reflexivity).
  assert (consistent emptyWorld) as H2 by (vm_compute; split_and!; reflexivity).
  assert (wellKeyed emptyWorld) as H3 by (intros ns n d Hd; vm_compute in Hd; discriminate).
  assert (sinkResolver healthy (defaultedSink dedicated) (keyOf dedicated) = inl uri1)
    as H4 by (vm_compute; reflexivity).
  assert (ReconcileKind healthy (start emptyWorld dedicated) = Done None afterFirstRun)
    as H5 by (vm_compute; reflexivity).
  split_and!; [assumption..|].
  exact (status_on_success healthy (start emptyWorld dedicated) afterFirstRun uri1
           H1 H2 H3 H4 H5).
Defined.

Lemma update_overwrites_pod_spec_witness :
  listerError healthy Deployments = None ∧
  lister (deployments staleWorld) !! ("default", Name (d_meta desiredAdapter))
    = Some staleAdapter ∧
  IsControlledBy (d_meta staleAdapter) (meta dedicated) = true ∧
  podSpecChanged (d_PodSpec staleAdapter) (d_PodSpec desiredAdapter) = true ∧
  kubeClientSet healthy update Deployments = None ∧
  store (deployments staleWorld) !! ("default", Name (d_meta staleAdapter))
    = Some staleAdapter ∧
  ∃ s', createReceiveAdapter healthy uri1
          (start staleWorld (resolvedSource dedicated uri1))
          = Done (inl desiredAdapter) s' ∧
        store (deployments (world s')) !! ("default", Name (d_meta desiredAdapter))
          = Some desiredAdapter.
Proof.
  assert (listerError healthy Deployments = None) as H1 by reflexivity.
  assert (lister (deployments staleWorld) !! ("default", Name (d_meta desiredAdapter))
          = Some staleAdapter) as H2 by (vm_compute; reflexivity).
  assert (IsControlledBy (d_meta staleAdapter) (meta dedicated) = true)
    as H3 by (vm_compute; reflexivity).
  assert (podSpecChanged (d_PodSpec staleAdapter) (d_PodSpec desiredAdapter) = true)
    as H4 by (vm_compute; reflexivity).
  assert (kubeClientSet healthy update Deployments = None) as H5 by reflexivity.
  assert (store (deployments staleWorld) !! ("default", Name (d_meta staleAdapter))
          = Some staleAdapter) as H6 by (vm_compute; reflexivity).
  do 6 (split; [assumption|]).
  destruct (update_overwrites_pod_spec healthy
              (start staleWorld (resolvedSource dedicated uri1)) uri1
              staleAdapter staleAdapter H1 H2 H3 H4 H5 H6)
    as (s'&Hrun&_&Hst&_).
  exists s'. split; [exact Hrun|]. rewrite Hst. apply lookup_insert_eq.
Defined.

Lemma failed_update_taints_cache_witness :
  listerError noUpdate Deployments = None ∧
  lister (deployments staleWorld) !! ("default", Name (d_meta desiredAdapter))
    = Some staleAdapter ∧
  IsControlledBy (d_meta staleAdapter) (meta dedicated) = true ∧
  podSpecChanged (d_PodSpec staleAdapter) (d_PodSpec desiredAdapter) = true ∧
  kubeClientSet noUpdate update Deployments = Some (ErrInternal "conflict") ∧
  ∃ s', createReceiveAdapter noUpdate uri1
          (start staleWorld (resolvedSource dedicated uri1))
          = Done (inr (StatusError (ErrInternal "conflict"))) s' ∧
        store (deployments (world s')) = store (deployments staleWorld) ∧
        createReceiveAdapter noUpdate uri1 s' =
          Done (inl desiredAdapter)
            {| world := add_action (getAction Deployments "default"
                                      (Name (d_meta desiredAdapter)) None) (world s');
               source := resolvedSource dedicated uri1 |}.
Proof.
  assert (listerError noUpdate Deployments = None) as H1 by reflexivity.
  assert (lister (deployments staleWorld) !! ("default", Name (d_meta desiredAdapter))
          = Some staleAdapter) as H2 by (vm_compute; reflexivity).
  assert (IsControlledBy (d_meta staleAdapter) (meta dedicated) = true)
    as H3 by (vm_compute; reflexivity).
  assert (podSpecChanged (d_PodSpec staleAdapter) (d_PodSpec desiredAdapter) = true)
    as H4 by (vm_compute; reflexivity).
  assert (kubeClientSet noUpdate update Deployments = Some (ErrInternal "conflict"))
    as H5 by reflexivity.
  do 5 (split; [assumption|]).
  destruct (failed_update_taints_cache noUpdate
              (start staleWorld (resolvedSource dedicated uri1)) uri1
              staleAdapter (ErrInternal "conflict") H1 H2 H3 H4 H5)
    as (s'&Hrun&_&Hst&_&Hagain).
  exists s'. split_and!; [exact Hrun|exact Hst|exact Hagain].
Defined.

Lemma panic_on_nil_annotations_witness :
  sinkResolver deafLister (defaultedSink bare) (keyOf bare) = inl uri1 ∧
  scopeOf bare ≠ eventing.ScopeCluster ∧
  StatusAnnotations (Status bare) = None ∧
  listerError deafLister ServiceAccounts = Some (ErrInternal "cache not synced") ∧
  ErrInternal "cache not synced" ≠ ErrNotFound ∧
  ∃ s', ReconcileKind deafLister (start emptyWorld bare)
          = Panic "assignment to entry in nil map" s' ∧
        (listerFailed deafLister ServiceAccounts ∨
         listerFailed deafLister RoleBindings) ∧
        Forall (λ a, a_kind a ≠ Deployments) (newActions emptyWorld (world s')).
Proof.
  assert (sinkResolver deafLister (defaultedSink bare) (keyOf bare) = inl uri1)
    as H1 by (vm_compute; reflexivity).
  assert (scopeOf bare ≠ eventing.ScopeCluster) as H2 by (vm_compute; discriminate).
  assert (StatusAnnotations (Status bare) = None) as H3 by reflexivity.
  assert (listerError deafLister ServiceAccounts
          = Some (ErrInternal "cache not synced")) as H4 by reflexivity.
  assert (ErrInternal "cache not synced" ≠ ErrNotFound) as H5 by discriminate.
  do 5 (split; [assumption|]).
  destruct (panic_on_nil_annotations deafLister (start emptyWorld bare))
    as (Honly&Hif).
  destruct (Hif uri1 _ H1 H2 H3 H4 H5) as (s'&Hrun&_).
  exists s'. split; [exact Hrun|].
  destruct (Honly _ _ Hrun) as (_&_&_&Hl&Hd). split; assumption.
Defined.

Lemma deprecated_delete_edges_witness :
  listerError noDelete Deployments = None ∧
  lister (deployments emptyWorld) !! ("default", Name (d_meta desiredAdapter)) = None ∧
  deprecatedNameOf dedicated ≠ Name (d_meta desiredAdapter) ∧
  kubeClientSet noDelete delete Deployments = Some (ErrInternal "forbidden") ∧
  ErrInternal "forbidden" ≠ ErrNotFound ∧
  @deprecatedNameOf sameNames dedicated = Name (d_meta desiredAdapter) ∧
  (∃ s', createReceiveAdapter noDelete uri1
           (start emptyWorld (resolvedSource dedicated uri1)) =
           Done (inr (Errorf "error deleting deprecated named deployment: %v"
                        [AError (StatusError (ErrInternal "forbidden"))])) s' ∧
         newEvents emptyWorld (world s') = [] ∧
         store (deployments (world s')) = store (deployments emptyWorld)) ∧
  ∃ e, newActions emptyWorld
         (world (final (@createReceiveAdapter sameNames healthy uri1
                          (start emptyWorld (resolvedSource dedicated uri1))))) =
         [ getAction Deployments "default" (Name (d_meta desiredAdapter))
             (Some ErrNotFound);
           {| a_verb := create; a_kind := Deployments; a_namespace := "default";
              a_name := Name (d_meta desiredAdapter); a_err := e |} ].
Proof.
  assert (listerError noDelete Deployments = None) as H1 by reflexivity.
  assert (lister (deployments emptyWorld) !! ("default", Name (d_meta desiredAdapter))
          = None) as H2 by (vm_compute; reflexivity).
  assert (deprecatedNameOf dedicated ≠ Name (d_meta desiredAdapter))
    as H3 by (vm_compute; discriminate).
  assert (kubeClientSet noDelete delete Deployments = Some (ErrInternal "forbidden"))
    as H4 by reflexivity.
  assert (ErrInternal "forbidden" ≠ ErrNotFound) as H5 by discriminate.
  assert (@deprecatedNameOf sameNames dedicated = Name (d_meta desiredAdapter))
    as H6 by (vm_compute; reflexivity).
  do 6 (split; [assumption|]). split.
  - destruct (deprecated_delete_edges noDelete
                (start emptyWorld (resolvedSource dedicated uri1)) uri1 H1 H2)
      as (_&Hfail).
    destruct (Hfail _ H3 H4 H5) as (s'&Hrun&_&Hev&Hst&_).
    exists s'. split_and!; assumption.
  - destruct (@deprecated_delete_edges sameNames healthy
                (start emptyWorld (resolvedSource dedicated uri1)) uri1 H1 H2)
      as (Hsame&_).
    destruct (Hsame H6) as (e&Ha&_). exists e. exact Ha.
Defined.

Lemma stale_cache_create_conflicts_witness :
  listerError healthy ServiceAccounts = None ∧
  lister (serviceAccounts unseenWorld) !! ("default", saNameOf dedicated) = None ∧
  kubeClientSet healthy create ServiceAccounts = None ∧
  store (serviceAccounts unseenWorld) !! ("default", saNameOf dedicated)
    = Some (MakeServiceAccount (meta dedicated) (saNameOf dedicated)) ∧
  (∃ s', reconcileServiceAccount healthy (start unseenWorld dedicated) =
           Done (inr (newServiceAccountWarn (StatusError ErrAlreadyExists))) s' ∧
         store (serviceAccounts (world s')) = store (serviceAccounts unseenWorld)) ∧
  (∃ s', reconcileRoleBinding healthy (start unseenWorld dedicated) =
           Done (inr (newRoleBindingWarn (StatusError ErrAlreadyExists))) s' ∧
         store (roleBindings (world s')) = store (roleBindings unseenWorld)) ∧
  (∃ s', reconcileMTReceiveAdapter healthy (start unseenWorld shared) =
           Done (inr (StatusError ErrAlreadyExists)) s' ∧
         newEvents unseenWorld (world s') =
           [mtCreateFailedEvent shared ErrAlreadyExists]).
Proof.
  assert (listerError healthy ServiceAccounts = None) as H1 by reflexivity.
  assert (lister (serviceAccounts unseenWorld) !! ("default", saNameOf dedicated)
          = None) as H2 by (vm_compute; reflexivity).
  assert (kubeClientSet healthy create ServiceAccounts = None) as H3 by reflexivity.
  assert (store (serviceAccounts unseenWorld) !! ("default", saNameOf dedicated)
          = Some (MakeServiceAccount (meta dedicated) (saNameOf dedicated)))
    as H4 by (vm_compute; reflexivity).
  do 4 (split; [assumption|]).
  split_and!.
  - destruct (stale_cache_create_conflicts healthy (start unseenWorld dedicated))
      as (HSA&_&_).
    destruct (HSA _ H1 H2 H3 H4) as (s'&Hrun&Hst&_).
    exists s'. split; assumption.
  - destruct (stale_cache_create_conflicts healthy (start unseenWorld dedicated))
      as (_&HRB&_).
    destruct (HRB (MakeRoleBinding dedicated (saNameOf dedicated)
                     stadapterClusterRoleName))
      as (s'&Hrun&Hst&_); [reflexivity|vm_compute; reflexivity|reflexivity
                          |vm_compute; reflexivity|].
    exists s'. split; assumption.
  - destruct (stale_cache_create_conflicts healthy (start unseenWorld shared))
      as (_&_&HMT).
    destruct (HMT (MakeMTReceiveAdapter (mtArgs healthy)))
      as (s'&Hrun&_&Hev&_); [reflexivity|vm_compute; reflexivity|reflexivity
                            |vm_compute; reflexivity|].
    exists s'. split; assumption.
Defined.

Lemma events_follow_writes_witness :
  Forall (λ a, a_verb a = get)
    (newActions (sync (world afterFirstRun))
       (world (final (ReconcileKind healthy
                        {| world := sync (world afterFirstRun);
                           source := source afterFirstRun |})))) ∧
  newEvents (sync (world afterFirstRun))
    (world (final (ReconcileKind healthy
                     {| world := sync (world afterFirstRun);
                        source := source afterFirstRun |}))) = [].
Proof.
  assert (Forall (λ a, a_verb a = get)
            (newActions (sync (world afterFirstRun))
               (world (final (ReconcileKind healthy
                                {| world := sync (world afterFirstRun);
                                   source := source afterFirstRun |})))))
    as H1 by (vm_compute; repeat constructor).
  split; [assumption|].
  destruct (events_follow_writes healthy
              {| world := sync (world afterFirstRun);
                 source := source afterFirstRun |}) as (_&Hq).
  exact (Hq H1).
Defined.

Lemma drift_check_sound_witness :
  podSpecChanged (d_PodSpec liveAdapter) (d_PodSpec desiredAdapter) = false ∧
  ServiceAccountName (d_PodSpec liveAdapter)
    = ServiceAccountName (d_PodSpec desiredAdapter) ∧
  ∃ cL, Containers (d_PodSpec liveAdapter) !! 0%nat = Some cL ∧
        c_Image cL = "adapter:1" ∧
        ∃ eL, c_Env cL !! 0%nat = Some eL ∧ ev_Value eL = uri1.
Proof.
  assert (podSpecChanged (d_PodSpec liveAdapter) (d_PodSpec desiredAdapter) = false)
    as H1 by (vm_compute; reflexivity).
  split; [assumption|].
  destruct (drift_check_sound (d_PodSpec liveAdapter) (d_PodSpec desiredAdapter))
    as (_&Hsound).
  destruct (Hsound H1) as (Hsa&_&Hc).
  split; [by destruct Hsa as [Hsa|Hsa]; [vm_compute in Hsa|]|].
  destruct (Hc 0%nat _ eq_refl) as (cL&HcL&_&Him&Henv).
  exists cL. split; [exact HcL|].
  split; [by destruct Him as [Him|Him]; [vm_compute in Him|]|].
  destruct (Henv 0%nat _ eq_refl) as (eL&HeL&_&Hv).
  exists eL. split; [exact HeL|].
  by destruct Hv as [Hv|Hv]; [vm_compute in Hv|].
Defined.

Lemma callbacks_independent_witness :
  UpdateFromLoggingConfigMap healthy (Some loggingSnapshot)
    = Returned (afterLogging, stripExample (Some loggingSnapshot)) ∧
  UpdateFromMetricsConfigMap healthy (Some metricsSnapshot)
    = Returned (afterMetrics, stripExample (Some metricsSnapshot)) ∧
  UpdateFromLoggingConfigMap afterLogging (stripExample (Some loggingSnapshot))
    = Returned (afterLogging, stripExample (Some loggingSnapshot)) ∧
  UpdateFromMetricsConfigMap afterMetrics (stripExample (Some metricsSnapshot))
    = Returned (afterMetrics, stripExample (Some metricsSnapshot)) ∧
  ∃ r', UpdateFromMetricsConfigMap afterLogging (Some metricsSnapshot)
          = Returned (r', stripExample (Some metricsSnapshot)) ∧
        UpdateFromLoggingConfigMap afterMetrics (Some loggingSnapshot)
          = Returned (r', stripExample (Some loggingSnapshot)).
Proof.
  assert (UpdateFromLoggingConfigMap healthy (Some loggingSnapshot)
          = Returned (afterLogging, stripExample (Some loggingSnapshot)))
    as H1 by (vm_compute; reflexivity).
  assert (UpdateFromMetricsConfigMap healthy (Some metricsSnapshot)
          = Returned (afterMetrics, stripExample (Some metricsSnapshot)))
    as H2 by (vm_compute; reflexivity).
  do 2 (split; [assumption|]).
  destruct (callbacks_independent healthy (Some loggingSnapshot)
              (Some metricsSnapshot)) as (Hl&Hm&Hc).
  destruct (Hl _ _ H1) as (_&_&Hl'). destruct (Hm _ _ H2) as (_&_&Hm').
  split_and!; [exact Hl'|exact Hm'|exact (Hc _ _ _ _ H1 H2)].
Defined.

Lemma shared_update_witness :
  listerError healthy Deployments = None ∧
  lister (deployments staleMTWorld) !! (system_Namespace, mtadapterName)
    = Some staleMTAdapter ∧
  podSpecChanged (d_PodSpec staleMTAdapter)
    (d_PodSpec (MakeMTReceiveAdapter (mtArgs healthy))) = true ∧
  kubeClientSet healthy update Deployments = None ∧
  store (deployments staleMTWorld) !! (system_Namespace, Name (d_meta staleMTAdapter))
    = Some staleMTAdapter ∧
  kubeClientSet noUpdate update Deployments = Some (ErrInternal "conflict") ∧
  (∃ s', reconcileMTReceiveAdapter healthy (start staleMTWorld shared) =
           Done (inl (MakeMTReceiveAdapter (mtArgs healthy))) s' ∧
         store (deployments (world s')) !! (system_Namespace, mtadapterName)
           = Some (MakeMTReceiveAdapter (mtArgs healthy))) ∧
  (∃ s', reconcileMTReceiveAdapter noUpdate (start staleMTWorld shared) =
           Done (inr (StatusError (ErrInternal "conflict"))) s' ∧
         store (deployments (world s')) = store (deployments staleMTWorld) ∧
         lister (deployments (world s')) !! (system_Namespace, mtadapterName)
           = Some (MakeMTReceiveAdapter (mtArgs healthy))).
Proof.
  assert (listerError healthy Deployments = None) as H1 by reflexivity.
  assert (lister (deployments staleMTWorld) !! (system_Namespace, mtadapterName)
          = Some staleMTAdapter) as H2 by (vm_compute; reflexivity).
  assert (podSpecChanged (d_PodSpec staleMTAdapter)
            (d_PodSpec (MakeMTReceiveAdapter (mtArgs healthy))) = true)
    as H3 by (vm_compute; reflexivity).
  assert (kubeClientSet healthy update Deployments = None) as H4 by reflexivity.
  assert (store (deployments staleMTWorld)
            !! (system_Namespace, Name (d_meta staleMTAdapter))
          = Some staleMTAdapter) as H5 by (vm_compute; reflexivity).
  assert (kubeClientSet noUpdate update Deployments = Some (ErrInternal "conflict"))
    as H6 by reflexivity.
  do 6 (split; [assumption|]). split.
  - destruct (shared_update healthy (start staleMTWorld shared)
                staleMTAdapter staleMTAdapter H1 H2 H3) as (Hok&_).
    destruct (Hok H4 H5) as (s'&Hrun&_&Hst&_).
    exists s'. split; [exact Hrun|]. rewrite Hst. apply lookup_insert_eq.
  - destruct (shared_update noUpdate (start staleMTWorld shared)
                staleMTAdapter staleMTAdapter H1 H2 H3) as (_&Hfail).
    destruct (Hfail _ H6) as (s'&Hrun&_&Hst&_&Hl).
    exists s'. split_and!; [exact Hrun|exact Hst|exact Hl].
Defined.

Lemma calls_in_order_witness :
  scopeOf shared = eventing.ScopeCluster ∧
  scopeOf dedicated ≠ eventing.ScopeCluster ∧
  (List.length (newActions emptyWorld
                  (world (final (ReconcileKind healthy (start emptyWorld shared)))))
     ≤ 2)%nat ∧
  ∃ lSA lRB lD,
    newActions emptyWorld (world afterFirstRun) = lSA ++ lRB ++ lD ∧
    Forall (λ a, a_kind a = ServiceAccounts) lSA ∧ (List.length lSA ≤ 2)%nat ∧
    Forall (λ a, a_kind a = RoleBindings) lRB ∧ (List.length lRB ≤ 2)%nat ∧
    Forall (λ a, a_kind a = Deployments) lD ∧ (List.length lD ≤ 3)%nat.
Proof.
  assert (scopeOf shared = eventing.ScopeCluster) as H1 by (vm_compute; reflexivity).
  assert (scopeOf dedicated ≠ eventing.ScopeCluster)
    as H2 by (vm_compute; discriminate).
  do 2 (split; [assumption|]). split.
  - destruct (calls_in_order healthy (start emptyWorld shared)) as (_&Hc).
    exact (Hc H1).
  - destruct (calls_in_order healthy (start emptyWorld dedicated)) as (Hr&_).
    exact (Hr H2).
Defined.

Lemma error_taxonomy_witness :
  sinkResolver deafLister (defaultedSink dedicated) (keyOf dedicated) = inl uri1 ∧
  scopeOf dedicated ≠ eventing.ScopeCluster ∧
  sinkResolver noCreate (defaultedSink shared) (keyOf shared) = inl uri1 ∧
  scopeOf shared = eventing.ScopeCluster ∧
  (∃ err s', ReconcileKind deafLister (start emptyWorld dedicated)
               = Done (Some err) s' ∧
     ((∃ e, err = Errorf "creating receive adapter service account: %v"
                    [AError (newServiceAccountWarn (StatusError e))]) ∨
      (∃ e, err = Errorf "creating receive adapter role binding: %v"
                    [AError (newRoleBindingWarn (StatusError e))]) ∨
      (∃ e s3 s4, createReceiveAdapter deafLister uri1 s3 = Done (inr e) s4 ∧
                  err = Errorf "creating receive adapter: %v" [AError e]))) ∧
  (∃ err s', ReconcileKind noCreate (start emptyWorld shared)
               = Done (Some err) s' ∧
     ((∃ e, err = StatusError e) ∨
      (∃ e, err = Errorf "error getting mt adapter deployment %v"
                    [AError (StatusError e)]) ∨
      (∃ d, tracker noCreate (deploymentRef d) = Some err))).
Proof.
  assert (sinkResolver deafLister (defaultedSink dedicated) (keyOf dedicated)
          = inl uri1) as H1 by (vm_compute; reflexivity).
  assert (scopeOf dedicated ≠ eventing.ScopeCluster)
    as H2 by (vm_compute; discriminate).
  assert (sinkResolver noCreate (defaultedSink shared) (keyOf shared) = inl uri1)
    as H3 by (vm_compute; reflexivity).
  assert (scopeOf shared = eventing.ScopeCluster) as H4 by (vm_compute; reflexivity).
  assert (ReconcileKind deafLister (start emptyWorld dedicated) =
          Done (Some (Errorf "creating receive adapter service account: %v"
                        [AError (newServiceAccountWarn
                                   (StatusError (ErrInternal "cache not synced")))]))
               (final (ReconcileKind deafLister (start emptyWorld dedicated))))
    as H5 by (vm_compute; reflexivity).
  assert (ReconcileKind noCreate (start emptyWorld shared) =
          Done (Some (StatusError (ErrInternal "etcd timeout")))
               (final (ReconcileKind noCreate (start emptyWorld shared))))
    as H6 by (vm_compute; reflexivity).
  do 4 (split; [assumption|]). split.
  - eexists _, _. split; [exact H5|].
    destruct (error_taxonomy deafLister (start emptyWorld dedicated) _ uri1 _ H1 H5)
      as (Hr&_).
    exact (Hr H2).
  - eexists _, _. split; [exact H6|].
    destruct (error_taxonomy noCreate (start emptyWorld shared) _ uri1 _ H3 H6)
      as (_&Hc).
    exact (Hc H4).
Defined.

Lemma shared_adapter_any_source_witness :
  reconcileMTReceiveAdapter healthy (start emptyWorld shared)
    = Done (inl (MakeMTReceiveAdapter (mtArgs healthy)))
        (final (reconcileMTReceiveAdapter healthy (start emptyWorld shared))) ∧
  actions (world (final (reconcileMTReceiveAdapter healthy (start emptyWorld shared))))
    = actions (world (final (reconcileMTReceiveAdapter healthy
                               (start emptyWorld dedicated)))) ∧
  deployments (world (final (reconcileMTReceiveAdapter healthy
                               (start emptyWorld shared))))
    = deployments (world (final (reconcileMTReceiveAdapter healthy
                                   (start emptyWorld dedicated)))) ∧
  (∃ s2, reconcileMTReceiveAdapter healthy (start emptyWorld dedicated)
           = Done (inl (MakeMTReceiveAdapter (mtArgs healthy))) s2) ∧
  source (final (reconcileMTReceiveAdapter healthy (start emptyWorld shared)))
    = shared ∧
  source (final (reconcileMTReceiveAdapter healthy (start emptyWorld dedicated)))
    = dedicated.
Proof.
  assert (reconcileMTReceiveAdapter healthy (start emptyWorld shared) =
          Done (inl (MakeMTReceiveAdapter (mtArgs healthy)))
               (final (reconcileMTReceiveAdapter healthy (start emptyWorld shared))))
    as H1 by (vm_compute; reflexivity).
  split; [exact H1|].
  destruct (shared_adapter_any_source healthy emptyWorld shared dedicated)
    as (Ha&Hd&Hsame&Hs1&Hs2).
  split_and!; [exact Ha|exact Hd|exact (Hsame _ _ H1)|exact Hs1|exact Hs2].
Defined.

Lemma availability_on_failure_witness :
  sinkResolver noTracker (defaultedSink shared) (keyOf shared) = inl uri1 ∧
  scopeOf shared = eventing.ScopeCluster ∧
  ∃ s', ReconcileKind noTracker (start emptyWorld shared)
          = Done (Some (Errorf "tracker closed" [])) s' ∧
        Deployed (Status (source s')) ≠ Deployed (Status shared) ∧
        ∃ d s2, reconcileMTReceiveAdapter noTracker
                  (resolvedState (start emptyWorld shared) uri1) = Done (inl d) s2 ∧
                Status (source s') =
                  PropagateDeploymentAvailability d
                    (MarkSchedule (MarkSink uri1 (Status shared))).
Proof.
  assert (sinkResolver noTracker (defaultedSink shared) (keyOf shared) = inl uri1)
    as H1 by (vm_compute; reflexivity).
  assert (scopeOf shared = eventing.ScopeCluster) as H2 by (vm_compute; reflexivity).
  assert (ReconcileKind noTracker (start emptyWorld shared) =
          Done (Some (Errorf "tracker closed" []))
               (final (ReconcileKind noTracker (start emptyWorld shared))))
    as H3 by (vm_compute; reflexivity).
  assert (Deployed (Status (source (final (ReconcileKind noTracker
                                             (start emptyWorld shared)))))
          ≠ Deployed (Status shared)) as H4 by (vm_compute; discriminate).
  do 2 (split; [assumption|]). eexists. split; [exact H3|].
  split; [exact H4|].
  destruct (availability_on_failure noTracker (start emptyWorld shared) _ uri1 _
              H1 H3) as (_&Hc).
  destruct (Hc H2) as [[Hsame _]|(d&s2&HMT&_&Hst)]; [by destruct H4|].
  exists d, s2. split; assumption.
Defined.

Lemma first_run_witness :
  sinkResolver healthy (defaultedSink dedicated) (keyOf dedicated) = inl uri1 ∧
  scopeOf dedicated ≠ eventing.ScopeCluster ∧
  faithfulListers healthy ∧ (∀ v k, kubeClientSet healthy v k = None) ∧
  deprecatedNameOf dedicated ≠ Name (d_meta desiredAdapter) ∧
  ∃ s', ReconcileKind healthy (start emptyWorld dedicated) = Done None s' ∧
        map e_reason (newEvents emptyWorld (world s')) =
          [ pingSourceServiceAccountCreated; pingSourceRoleBindingCreated;
            pingSourceDeploymentDeleted; pingSourceDeploymentCreated ] ∧
        store (deployments (world s')) =
          <[("default", Name (d_meta desiredAdapter)):=desiredAdapter]> ∅.
Proof.
  assert (sinkResolver healthy (defaultedSink dedicated) (keyOf dedicated) = inl uri1)
    as H1 by (vm_compute; reflexivity).
  assert (scopeOf dedicated ≠ eventing.ScopeCluster)
    as H2 by (vm_compute; discriminate).
  assert (faithfulListers healthy) as H3 by (intros k; reflexivity).
  assert (∀ v k, kubeClientSet healthy v k = None) as H4 by (intros v k; reflexivity).
  assert (deprecatedNameOf dedicated ≠ Name (d_meta desiredAdapter))
    as H5 by (vm_compute; discriminate).
  do 5 (split; [assumption|]).
  destruct (first_run healthy (start emptyWorld dedicated) uri1 H1 H2 H3 H4)
    as (s'&Hrun&_&Hev&_&_&Hst); [vm_compute; reflexivity..|exact H5|].
  exists s'. split_and!; [exact Hrun|exact Hev|exact Hst].
Defined.

End Witnesses.
